(** * BigFiles: the sales-data generator and the monthly sales report

    A shallow embedding of [src/generator.ts] (class [SalesDataGenerator]) and
    [src/main.ts] (class [SalesProcessor]) together with the properties
    of the two pipelines.

    Conventions of the embedding.
    - A JavaScript [number] that holds an amount is a binary64 value: Rocq's
      primitive [float], with the IEEE operations of the kernel.  Counters,
      identifiers and calendar fields, which the code only ever fills with
      integers below [2^53], are in [Z]; a calendar field that can be [NaN]
      is an [option Z] with [None] for [NaN].
    - Text is [string]; a text file is the list of its lines, each line
      standing for the characters before its line feed.
    - The platform functions the code calls ([parseFloat], [parseInt],
      [Number.prototype.toFixed], the number to string conversion, [Date],
      [Math.max], [Math.min], [Array.prototype.sort]) are written out after
      ECMA-262.
    - [Math.random()] is a draw from [0, 1): a rational, and the arithmetic
      the generator does on a draw before rounding it ([Math.floor], [toFixed])
      is exact.
    - Local time is UTC shifted by a fixed number of milliseconds, [LocalTZA],
      a parameter of everything that builds or reads a date in local time;
      summer time is left out.
    - The [while] loop of [generate] runs on fuel, and the properties say how
      much is enough. *)

From Stdlib Require Import ZArith List String Ascii Bool Lia.
From Stdlib Require Import QArith Qround.
From Stdlib Require Import Floats.
From Stdlib Require Import Permutation Sorted.
Import ListNotations.

Local Open Scope string_scope.
Local Open Scope list_scope.
Local Open Scope Z_scope.

(** ** Decimal digits *)

Module Digits.

Definition digit_char (d : Z) : ascii :=
  ascii_of_nat (48 + Z.to_nat d).

(** The decimal digits of a non-negative integer, most significant first;
    [fuel] bounds the number of digits. *)
Fixpoint digits_aux (fuel : nat) (n : Z) (acc : string) : string :=
  match fuel with
  | O => acc
  | S fuel' =>
      let acc' := String (digit_char (n mod 10)) acc in
      if n / 10 =? 0 then acc' else digits_aux fuel' (n / 10) acc'
  end.

Definition digits_fuel (n : Z) : nat := S (Z.to_nat (Z.log2 n)).

Definition of_Z_nonneg (n : Z) : string := digits_aux (digits_fuel n) n "".

(** [String(n)] for an integer [n]. *)
Definition of_Z (n : Z) : string :=
  if n <? 0 then ("-" ++ of_Z_nonneg (- n))%string else of_Z_nonneg n.

Fixpoint repeat_char (c : ascii) (n : nat) : string :=
  match n with
  | O => ""
  | S n' => String c (repeat_char c n')
  end.

(** [s.padStart(width, '0')] *)
Definition padStart0 (width : nat) (s : string) : string :=
  (repeat_char "0"%char (width - String.length s) ++ s)%string.

Definition is_digit (c : ascii) : bool :=
  let n := nat_of_ascii c in (48 <=? n)%nat && (n <=? 57)%nat.

Definition digit_val (c : ascii) : Z := Z.of_nat (nat_of_ascii c) - 48.

End Digits.

(** ** JavaScript numbers: binary64 values and their text forms *)

Module JSNumber.

Definition number := float.

(** The Number value of an integer: the binary64 value nearest to it, ties
    to even.  Below [2^63 = 9223372036854775808] the kernel's conversion
    rounds that way. *)
Definition of_Z (z : Z) : number :=
  if Z.abs z <? 9223372036854775808
  then
    let f := of_uint63 (Uint63.of_Z (Z.abs z)) in
    if z <? 0 then (- f)%float else f
  else SF2Prim (binary_normalize prec emax z 0 false).

(** The Number value of the decimal [(-1)^neg * m * 10^e10], [m >= 0]: the
    binary64 value nearest to it, ties to even.  When
    [m < 2^53 = 9007199254740992] and the power of ten is at most [10^22]
    both are binary64 values, and their quotient, rounded once by the IEEE
    division, is that nearest value. *)
Definition of_decimal (neg : bool) (m : Z) (e10 : Z) : number :=
  match m with
  | Zpos p =>
      if (Zpos p <? 9007199254740992) && (-22 <=? e10) && (e10 <=? 0)
      then
        let q := (of_Z (Zpos p) / of_Z (10 ^ (- e10)))%float in
        if neg then (- q)%float else q
      else if 0 <=? e10
      then SF2Prim (binary_normalize prec emax
                      (cond_Zopp neg (Zpos p * 10 ^ e10)) 0 neg)
      else SF2Prim (SFdiv prec emax (S754_finite neg p 0)
                      (S754_finite false (Z.to_pos (10 ^ (- e10))) 0))
  | _ => if neg then neg_zero else zero
  end.

Definition is_neg_zero (x : number) : bool :=
  match classify x with NZero => true | _ => false end.

Definition is_pos_zero (x : number) : bool :=
  match classify x with PZero => true | _ => false end.

(** [Math.max(a, b)]: [NaN] if either is [NaN]; [+0] is larger than [-0]. *)
Definition Math_max (a b : number) : number :=
  if is_nan a || is_nan b then nan
  else if is_pos_zero b && is_neg_zero a then b
  else if (a <? b)%float then b else a.

(** [Math.min(a, b)]: [NaN] if either is [NaN]; [-0] is smaller than [+0]. *)
Definition Math_min (a b : number) : number :=
  if is_nan a || is_nan b then nan
  else if is_neg_zero b && is_pos_zero a then b
  else if (b <? a)%float then b else a.

(** [Math.pow(x, 2)]: the engines return [x * x] for the exponent 2. *)
Definition Math_pow2 (x : number) : number := (x * x)%float.

Definition Math_sqrt (x : number) : number := sqrt x.

(** *** [Number.prototype.toFixed] *)

(** For [x = m * 2^e > 0]: the integer [n] for which [n / 10^f - x] is as
    close to zero as possible, the larger one if there are two. *)
Definition toFixed_int (f : Z) (m : positive) (e : Z) : Z :=
  let num := Zpos m * 10 ^ f in
  if 0 <=? e then num * 2 ^ e
  else (2 * num + 2 ^ (- e)) / 2 ^ (1 - e).

(** The digits of [n] with a point before the last [f] of them. *)
Definition fixed_digits (n : Z) (f : nat) : string :=
  let m := Digits.of_Z_nonneg n in
  let m := if (String.length m <=? f)%nat
           then Digits.padStart0 (S f) m else m in
  match f with
  | O => m
  | _ =>
      let k := String.length m in
      (substring 0 (k - f) m ++ "." ++ substring (k - f) f m)%string
  end.

(** *** Number to string: the shortest digits that read back as [x] *)

(** [x = m * 2^e] as a fraction [num / den]. *)
Definition fraction (m : positive) (e : Z) : Z * Z :=
  if 0 <=? e then (Z.shiftl (Zpos m) e, 1) else (Zpos m, Z.shiftl 1 (- e)).

(** [floor (num / den / 10^p)] for any integer [p]. *)
Definition scaled_floor (num den p : Z) : Z :=
  if 0 <=? p then num / (den * 10 ^ p) else (num * 10 ^ (- p)) / den.

(** The least [j >= 1] with [num * 10^j >= den], searched up to [fuel]. *)
Fixpoint first_scale (fuel : nat) (num den j : Z) : Z :=
  match fuel with
  | O => j
  | S fuel' =>
      if den <=? num * 10 ^ j then j else first_scale fuel' num den (j + 1)
  end.

(** The [n] with [10^(n-1) <= num/den < 10^n]. *)
Definition decimal_exponent (num den : Z) : Z :=
  if den <=? num
  then Z.of_nat (String.length (Digits.of_Z_nonneg (num / den)))
  else 1 - first_scale 400 num den 1.

(** Twice the distance, in units of [10^(n-k)], between [s * 10^(n-k)] and
    [num/den], scaled by a common positive factor. *)
Definition distance (num den n k s : Z) : Z :=
  let p := n - k in
  if 0 <=? p then Z.abs (s * den * 10 ^ p - num)
  else Z.abs (s * den - num * 10 ^ (- p)).

(** The candidates with [k] digits: the two multiples of [10^(n0-k)] around
    [x], each kept when it has [k] digits and reads back as [x]. *)
Definition candidates (x : number) (num den n0 k : Z) : list (Z * Z) :=
  let lo := scaled_floor num den (n0 - k) in
  let up := if lo + 1 <? 10 ^ k then (n0, lo + 1) else (n0 + 1, 10 ^ (k - 1)) in
  filter (fun '(n, s) =>
            (10 ^ (k - 1) <=? s) && (s <? 10 ^ k)
            && (of_decimal false s (n - k) =? x)%float)
         [(n0, lo); up].

(** Of the candidates the one nearest to [x]; of two equally near the even. *)
Definition nearest (num den k : Z) (cs : list (Z * Z)) : option (Z * Z) :=
  match cs with
  | [] => None
  | [c] => Some c
  | (n1, s1) :: (n2, s2) :: _ =>
      let d1 := distance num den n1 k s1 in
      let d2 := distance num den n1 k (if n2 =? n1 then s2 else s2 * 10) in
      if d1 <? d2 then Some (n1, s1)
      else if d2 <? d1 then Some (n2, s2)
      else if Z.even s1 then Some (n1, s1) else Some (n2, s2)
  end.

(** [(n, k, s)] with [k] as small as possible, [k] running from [k0]. *)
Fixpoint shortest (fuel : nat) (x : number) (num den n0 k : Z)
  : option (Z * Z * Z) :=
  match fuel with
  | O => None
  | S fuel' =>
      match nearest num den k (candidates x num den n0 k) with
      | Some (n, s) => Some (n, k, s)
      | None => shortest fuel' x num den n0 (k + 1)
      end
  end.

Definition zeros (n : Z) : string := Digits.repeat_char "0"%char (Z.to_nat n).

(** The text of [s * 10^(n-k)], [s] having the [k] digits [ds]. *)
Definition layout (n k : Z) (ds : string) : string :=
  if (k <=? n) && (n <=? 21) then (ds ++ zeros (n - k))%string
  else if (0 <? n) && (n <=? 21)
  then (substring 0 (Z.to_nat n) ds ++ "."
        ++ substring (Z.to_nat n) (Z.to_nat (k - n)) ds)%string
  else if (-6 <? n) && (n <=? 0)
  then ("0." ++ zeros (- n) ++ ds)%string
  else
    let sign := if 0 <? n - 1 then "+" else "-" in
    let ex := (sign ++ Digits.of_Z_nonneg (Z.abs (n - 1)))%string in
    if k =? 1 then (ds ++ "e" ++ ex)%string
    else (substring 0 1 ds ++ "." ++ substring 1 (Z.to_nat (k - 1)) ds
          ++ "e" ++ ex)%string.

(** [String(x)], also the text of [x] in a template literal. *)
Definition toString (x : number) : string :=
  match Prim2SF x with
  | S754_nan => "NaN"
  | S754_zero _ => "0"
  | S754_infinity s => if s then "-Infinity" else "Infinity"
  | S754_finite sg m e =>
      let '(num, den) := fraction m e in
      match shortest 17 (abs x) num den (decimal_exponent num den) 1 with
      | Some (n, k, s) =>
          ((if sg then "-" else "") ++ layout n k (Digits.of_Z_nonneg s))%string
      | None => "NaN"
      end
  end.

(** [x.toFixed(f)] *)
Definition toFixed (x : number) (f : nat) : string :=
  match Prim2SF x with
  | S754_nan => "NaN"
  | S754_infinity s => if s then "-Infinity" else "Infinity"
  | S754_zero _ => fixed_digits 0 f
  | S754_finite sg m e =>
      if (0 <=? e) && (10 ^ 21 <=? Zpos m * 2 ^ e) then toString x
      else ((if sg then "-" else "")
            ++ fixed_digits (toFixed_int (Z.of_nat f) m e) f)%string
  end.

End JSNumber.

(** ** [parseFloat] and [parseInt] *)

Module JSParse.

Import JSNumber.

Definition is_space (c : ascii) : bool :=
  match nat_of_ascii c with
  | 9%nat | 10%nat | 11%nat | 12%nat | 13%nat | 32%nat => true
  | _ => false
  end.

Fixpoint trim_start (s : string) : string :=
  match s with
  | String c s' => if is_space c then trim_start s' else s
  | EmptyString => s
  end.

Definition parse_sign (s : string) : bool * string :=
  match s with
  | String "-"%char r => (true, r)
  | String "+"%char r => (false, r)
  | _ => (false, s)
  end.

(** The longest prefix of decimal digits: its value continuing [acc], the
    number of digits read continuing [count], and the rest of the text. *)
Fixpoint take_digits (s : string) (acc count : Z) : Z * Z * string :=
  match s with
  | String c s' =>
      if Digits.is_digit c
      then take_digits s' (acc * 10 + Digits.digit_val c) (count + 1)
      else (acc, count, s)
  | EmptyString => (acc, count, s)
  end.

(** The exponent part [e][+-]digits at the head of [s], [0] without one. *)
Definition parse_exponent (s : string) : Z :=
  match s with
  | String c r =>
      if (c =? "e")%char || (c =? "E")%char
      then
        let '(neg, r') := parse_sign r in
        let '(v, cnt, _) := take_digits r' 0 0 in
        if cnt =? 0 then 0 else if neg then - v else v
      else 0
  | EmptyString => 0
  end.

(** [parseFloat(String(v))]; [v] is [None] for [undefined]. *)
Definition parseFloat (v : option string) : number :=
  let s := match v with Some s => s | None => "undefined" end in
  let '(neg, r) := parse_sign (trim_start s) in
  if prefix "Infinity" r then (if neg then neg_infinity else infinity)
  else
    let '(i, ni, r1) := take_digits r 0 0 in
    let '(f, nf, r2) :=
      match r1 with
      | String "."%char r' => take_digits r' 0 0
      | _ => (0, 0, r1)
      end in
    if ni + nf =? 0 then nan
    else of_decimal neg (i * 10 ^ nf + f) (parse_exponent r2 - nf).

Definition hex_val (c : ascii) : option Z :=
  let n := Z.of_nat (nat_of_ascii c) in
  if (48 <=? n) && (n <=? 57) then Some (n - 48)
  else if (65 <=? n) && (n <=? 70) then Some (n - 55)
  else if (97 <=? n) && (n <=? 102) then Some (n - 87)
  else None.

Fixpoint take_hex (s : string) (acc count : Z) : Z * Z :=
  match s with
  | String c s' =>
      match hex_val c with
      | Some d => take_hex s' (acc * 16 + d) (count + 1)
      | None => (acc, count)
      end
  | EmptyString => (acc, count)
  end.

(** [parseInt(String(v))], no radix given: base 16 after [0x], else 10. *)
Definition parseInt (v : option string) : number :=
  let s := match v with Some s => s | None => "undefined" end in
  let '(neg, r) := parse_sign (trim_start s) in
  let '(value, count) :=
    match r with
    | String "0"%char (String c r') =>
        if (c =? "x")%char || (c =? "X")%char then take_hex r' 0 0
        else let '(a, n, _) := take_digits r 0 0 in (a, n)
    | _ => let '(a, n, _) := take_digits r 0 0 in (a, n)
    end in
  if count =? 0 then nan
  else if value =? 0 then (if neg then neg_zero else zero)
  else of_Z (if neg then - value else value).

End JSParse.

(** ** [Date]: time values, the calendar, and the ISO text form *)

Module JSDate.

Definition msPerDay : Z := 86400000.
Definition msPerHour : Z := 3600000.
Definition msPerMinute : Z := 60000.
Definition msPerSecond : Z := 1000.

Definition Day (t : Z) : Z := t / msPerDay.
Definition TimeWithinDay (t : Z) : Z := t mod msPerDay.

Definition DaysInYear (y : Z) : Z :=
  if (y mod 4 =? 0) && (negb (y mod 100 =? 0) || (y mod 400 =? 0))
  then 366 else 365.

Definition DayFromYear (y : Z) : Z :=
  365 * (y - 1970) + (y - 1969) / 4 - (y - 1901) / 100 + (y - 1601) / 400.

(** The year [y] with [DayFromYear y <= d < DayFromYear (y + 1)], searched
    from the guess [y]. *)
Fixpoint year_search (fuel : nat) (y d : Z) : Z :=
  match fuel with
  | O => y
  | S fuel' =>
      if d <? DayFromYear y then year_search fuel' (y - 1) d
      else if DayFromYear (y + 1) <=? d then year_search fuel' (y + 1) d
      else y
  end.

Definition YearFromDay (d : Z) : Z :=
  year_search (Z.to_nat (Z.abs d / 100000) + 4) (1970 + d / 366) d.

Definition YearFromTime (t : Z) : Z := YearFromDay (Day t).

Definition InLeapYear (t : Z) : Z :=
  if DaysInYear (YearFromTime t) =? 366 then 1 else 0.

Definition DayWithinYear (t : Z) : Z := Day t - DayFromYear (YearFromTime t).

(** The day within the year on which month [m] (0 to 11) starts. *)
Definition month_start (leap m : Z) : Z :=
  match m with
  | 0 => 0
  | 1 => 31
  | 2 => 59 + leap
  | 3 => 90 + leap
  | 4 => 120 + leap
  | 5 => 151 + leap
  | 6 => 181 + leap
  | 7 => 212 + leap
  | 8 => 243 + leap
  | 9 => 273 + leap
  | 10 => 304 + leap
  | _ => 334 + leap
  end.

Definition MonthFromTime (t : Z) : Z :=
  let d := DayWithinYear t in
  let l := InLeapYear t in
  if d <? 31 then 0
  else if d <? 59 + l then 1
  else if d <? 90 + l then 2
  else if d <? 120 + l then 3
  else if d <? 151 + l then 4
  else if d <? 181 + l then 5
  else if d <? 212 + l then 6
  else if d <? 243 + l then 7
  else if d <? 273 + l then 8
  else if d <? 304 + l then 9
  else if d <? 334 + l then 10
  else 11.

Definition DateFromTime (t : Z) : Z :=
  DayWithinYear t - month_start (InLeapYear t) (MonthFromTime t) + 1.

Definition HourFromTime (t : Z) : Z := (t / msPerHour) mod 24.
Definition MinFromTime (t : Z) : Z := (t / msPerMinute) mod 60.
Definition SecFromTime (t : Z) : Z := (t / msPerSecond) mod 60.
Definition msFromTime (t : Z) : Z := t mod msPerSecond.

Definition MakeTime (hour min sec ms : Z) : Z :=
  hour * msPerHour + min * msPerMinute + sec * msPerSecond + ms.

Definition MakeDay (year month date : Z) : Z :=
  let ym := year + month / 12 in
  let mn := month mod 12 in
  DayFromYear ym
  + month_start (if DaysInYear ym =? 366 then 1 else 0) mn
  + date - 1.

Definition MakeDate (day time : Z) : Z := day * msPerDay + time.

(** A [Date] object: its time value, [None] for an invalid date. *)
Definition Date := option Z.

Definition TimeClip (t : Z) : Date :=
  if Z.abs t <=? 8640000000000000 then Some t else None.

(** *** The ISO form written by [toISOString] *)

Definition pad2 (n : Z) : string :=
  String (Digits.digit_char (n / 10))
    (String (Digits.digit_char (n mod 10)) "").

Definition pad3 (n : Z) : string :=
  String (Digits.digit_char (n / 100)) (pad2 (n mod 100)).

Definition pad4 (n : Z) : string :=
  String (Digits.digit_char (n / 1000)) (pad3 (n mod 1000)).

Definition pad6 (n : Z) : string :=
  (pad2 (n / 10000) ++ pad4 (n mod 10000))%string.

Definition iso_year (y : Z) : string :=
  if (0 <=? y) && (y <=? 9999) then pad4 y
  else if y <? 0 then String "-" (pad6 (- y))
  else String "+" (pad6 y).

(** [d.toISOString()] for a valid date of time value [t]. *)
Definition toISOString (t : Z) : string :=
  (iso_year (YearFromTime t) ++ "-" ++ pad2 (MonthFromTime t + 1) ++ "-"
   ++ pad2 (DateFromTime t) ++ "T" ++ pad2 (HourFromTime t) ++ ":"
   ++ pad2 (MinFromTime t) ++ ":" ++ pad2 (SecFromTime t) ++ "."
   ++ pad3 (msFromTime t) ++ "Z")%string.

(** *** Reading the ECMA-262 date-time format *)

Definition digit1 (s : string) : option (Z * string) :=
  match s with
  | String a r =>
      if Digits.is_digit a then Some (Digits.digit_val a, r) else None
  | EmptyString => None
  end.

Definition more_digit (p : option (Z * string)) : option (Z * string) :=
  match p with
  | Some (v, r) =>
      match digit1 r with
      | Some (d, r') => Some (10 * v + d, r')
      | None => None
      end
  | None => None
  end.

Definition digit2 (s : string) := more_digit (digit1 s).
Definition digit3 (s : string) := more_digit (digit2 s).
Definition digit4 (s : string) := more_digit (digit3 s).
Definition digit6 (s : string) := more_digit (more_digit (digit4 s)).

Definition parse_year (s : string) : option (Z * string) :=
  match s with
  | String "+"%char r => digit6 r
  | String "-"%char r =>
      match digit6 r with
      | Some (y, r') => if y =? 0 then None else Some (- y, r')
      | None => None
      end
  | _ => digit4 s
  end.

(** Year, month (1 to 12) and day of the date part, and the rest. *)
Definition parse_date (s : string) : option (Z * Z * Z * string) :=
  match parse_year s with
  | Some (y, String "-"%char r1) =>
      match digit2 r1 with
      | Some (mo, String "-"%char r2) =>
          match digit2 r2 with
          | Some (d, r3) => Some (y, mo, d, r3)
          | None => None
          end
      | Some (mo, r2) => Some (y, mo, 1, r2)
      | None => None
      end
  | Some (y, r1) => Some (y, 1, 1, r1)
  | None => None
  end.

(** Hour, minute, second and millisecond of [HH:mm], [HH:mm:ss] or
    [HH:mm:ss.sss], and the rest. *)
Definition parse_time (s : string) : option (Z * Z * Z * Z * string) :=
  match digit2 s with
  | Some (h, String ":"%char r1) =>
      match digit2 r1 with
      | Some (mi, String ":"%char r2) =>
          match digit2 r2 with
          | Some (sec, String "."%char r3) =>
              match digit3 r3 with
              | Some (ms, r4) => Some (h, mi, sec, ms, r4)
              | None => None
              end
          | Some (sec, r3) => Some (h, mi, sec, 0, r3)
          | None => None
          end
      | Some (mi, r2) => Some (h, mi, 0, 0, r2)
      | None => None
      end
  | _ => None
  end.

(** The offset that ends the text: [Some None] when absent, [Some (Some m)]
    for [Z] or [+HH:mm] or [-HH:mm] with [m] in minutes. *)
Definition parse_offset (s : string) : option (option Z) :=
  match s with
  | EmptyString => Some None
  | String "Z"%char EmptyString => Some (Some 0)
  | String c r =>
      if (c =? "+")%char || (c =? "-")%char then
        match digit2 r with
        | Some (h, String ":"%char r1) =>
            match digit2 r1 with
            | Some (mi, EmptyString) =>
                if (h <=? 23) && (mi <=? 59)
                then Some (Some ((if (c =? "-")%char then -1 else 1)
                                 * (h * 60 + mi)))
                else None
            | _ => None
            end
        | _ => None
        end
      else None
  end.

Definition valid_date (mo d : Z) : bool :=
  (1 <=? mo) && (mo <=? 12) && (1 <=? d) && (d <=? 31).

Definition valid_time (h mi sec : Z) (ms : Z) : bool :=
  (mi <=? 59) && (sec <=? 59)
  && ((h <=? 23) || ((h =? 24) && (mi =? 0) && (sec =? 0) && (ms =? 0))).

Section TimeZone.

(** The offset of local time from UTC, in milliseconds; one offset for all
    instants (no daylight saving changes). *)
Variable LocalTZA : Z.

Definition LocalTime (t : Z) : Z := t + LocalTZA.
Definition UTC (t : Z) : Z := t - LocalTZA.

(** [Date.parse(s)].  A date alone is in UTC, a date and time without an
    offset is in local time.  Texts outside the format, whose reading
    ECMA-262 leaves to the engine, are not recognised. *)
Definition parse (s : string) : Date :=
  match parse_date s with
  | Some (y, mo, d, EmptyString) =>
      if valid_date mo d
      then TimeClip (MakeDate (MakeDay y (mo - 1) d) 0) else None
  | Some (y, mo, d, String "T"%char r) =>
      match parse_time r with
      | Some (h, mi, sec, ms, r') =>
          match parse_offset r' with
          | Some off =>
              if valid_date mo d && valid_time h mi sec ms then
                let tv := MakeDate (MakeDay y (mo - 1) d)
                            (MakeTime h mi sec ms) in
                match off with
                | Some m => TimeClip (tv - m * msPerMinute)
                | None => TimeClip (UTC tv)
                end
              else None
          | None => None
          end
      | None => None
      end
  | _ => None
  end.

(** [new Date(v)] for a text [v]; [v] is [None] for [undefined]. *)
Definition new_Date (v : option string) : Date :=
  match v with
  | Some s => parse s
  | None => None
  end.

(** [new Date(year, month, date, hours, minutes, seconds)], local time. *)
Definition new_Date_local (year month date hours minutes seconds : Z) : Date :=
  let yr := if (0 <=? year) && (year <=? 99) then 1900 + year else year in
  TimeClip (UTC (MakeDate (MakeDay yr month date)
                   (MakeTime hours minutes seconds 0))).

(** The local calendar getters; [None] is [NaN]. *)
Definition getFullYear (d : Date) : option Z :=
  option_map (fun t => YearFromTime (LocalTime t)) d.

Definition getMonth (d : Date) : option Z :=
  option_map (fun t => MonthFromTime (LocalTime t)) d.

Definition getDate (d : Date) : option Z :=
  option_map (fun t => DateFromTime (LocalTime t)) d.

End TimeZone.

Definition getUTCFullYear (d : Date) : option Z := option_map YearFromTime d.

End JSDate.

(** ** [Map] with text keys: entries in insertion order *)

Module JSMap.

Section Map.

Context {V : Type}.

Definition t := list (string * V).

Fixpoint get (m : t) (k : string) : option V :=
  match m with
  | [] => None
  | (k', v) :: r => if String.eqb k' k then Some v else get r k
  end.

Definition has (m : t) (k : string) : bool :=
  match get m k with Some _ => true | None => false end.

(** [m.set(k, v)]: in place when the key is there, else at the end. *)
Fixpoint set (m : t) (k : string) (v : V) : t :=
  match m with
  | [] => [(k, v)]
  | (k', v') :: r =>
      if String.eqb k' k then (k, v) :: r else (k', v') :: set r k v
  end.

Definition size (m : t) : Z := Z.of_nat (List.length m).

Definition keys (m : t) : list string := map fst m.
Definition values (m : t) : list V := map snd m.

End Map.

Arguments t : clear implicits.

End JSMap.

(** ** Completions: a call returns, or throws and leaves a state behind *)

Inductive completion (S : Type) : Type :=
| Return (s : S)
| Throw (e : string) (s : S).

Arguments Return {S} s.
Arguments Throw {S} e s.

(** The promise of an [async] method, once settled. *)
Inductive promise : Type :=
| Resolved
| Rejected (e : string).

(** ** The file system: the lines of each file that exists *)

Module FS.

Definition t := string -> option (list string).

Definition existsSync (fs : t) (path : string) : bool :=
  match fs path with Some _ => true | None => false end.

Definition writeFileSync (fs : t) (path : string) (content : list string) : t :=
  fun p => if String.eqb p path then Some content else fs p.

Definition empty : t := fun _ => None.

End FS.

(** ** [src/main.ts]: the sales processor *)

Module Processor.

Import JSNumber.

(** A row as the CSV parser hands it over: each column a text, or
    [undefined] ([None]) when the row lacks it. *)
Record RawRecord := {
  raw_id : option string;
  raw_order_id : option string;
  raw_customer_id : option string;
  raw_total : option string;
  raw_date : option string
}.

Record SalesRecord := {
  id : number;
  order_id : number;
  customer_id : number;
  total : number;
  date : option string
}.

(** [year] and [month] are [None] when [NaN]; [amounts] is [None] once
    [finalizeStats] has deleted it. *)
Record SalesStats := {
  year : option Z;
  month : option Z;
  numberOfOrders : Z;
  maxAmount : number;
  minAmount : number;
  totalAmount : number;
  salesAverage : number;
  standardDeviation : number;
  amounts : option (list number)
}.

Definition monthlyStats_t := JSMap.t SalesStats.

Record SalesProcessor := {
  inputPath : string;
  outputPath : string;
  monthlyStats : monthlyStats_t
}.

Definition new_SalesProcessor (inputPath outputPath : string) : SalesProcessor :=
  {| inputPath := inputPath; outputPath := outputPath; monthlyStats := [] |}.

Definition months : list string :=
  ["January"; "February"; "March"; "April"; "May"; "June";
   "July"; "August"; "September"; "October"; "November"; "December"].

(** [months[month - 1]]; [None] is [undefined]. *)
Definition getMonthName (month : option Z) : option string :=
  match month with
  | Some m => if 1 <=? m then nth_error months (Z.to_nat (m - 1)) else None
  | None => None
  end.

(** The text of an integer or [NaN] in a template literal. *)
Definition int_text (v : option Z) : string :=
  match v with Some z => Digits.of_Z z | None => "NaN" end.

Definition text_or_undefined (v : option string) : string :=
  match v with Some s => s | None => "undefined" end.

Definition TypeError : string := "TypeError".

(** [None] when [values] is [undefined]: reading [values.length] throws. *)
Definition calculateStandardDeviation (values : option (list number))
    (mean : number) : option number :=
  match values with
  | None => None
  | Some values =>
      if (List.length values <=? 1)%nat then Some zero
      else
        let squaredDifferences :=
          map (fun value => Math_pow2 (value - mean)%float) values in
        let variance :=
          (fold_left (fun sum sqDiff => (sum + sqDiff)%float)
                     squaredDifferences zero
           / of_Z (Z.of_nat (List.length values) - 1))%float in
        Some (Math_sqrt variance)
  end.

Section TimeZone.

Variable LocalTZA : Z.

Definition bucket_key (year month : option Z) : string :=
  (int_text year ++ "-" ++ Digits.padStart0 2 (int_text month))%string.

(** The bucket a first record opens. *)
Definition new_stats (yr mon : option Z) (record : SalesRecord) : SalesStats :=
  {| year := yr; month := mon; numberOfOrders := 0;
     maxAmount := record.(total); minAmount := record.(total);
     totalAmount := zero; salesAverage := zero;
     standardDeviation := zero; amounts := Some [] |}.

(** The four updates before [stats.amounts.push]. *)
Definition update_stats (stats : SalesStats) (record : SalesRecord) : SalesStats :=
  {| year := stats.(year); month := stats.(month);
     numberOfOrders := stats.(numberOfOrders) + 1;
     maxAmount := Math_max stats.(maxAmount) record.(total);
     minAmount := Math_min stats.(minAmount) record.(total);
     totalAmount := (stats.(totalAmount) + record.(total))%float;
     salesAverage := stats.(salesAverage);
     standardDeviation := stats.(standardDeviation);
     amounts := stats.(amounts) |}.

Definition with_amounts (stats : SalesStats) (a : list number) : SalesStats :=
  {| year := stats.(year); month := stats.(month);
     numberOfOrders := stats.(numberOfOrders);
     maxAmount := stats.(maxAmount); minAmount := stats.(minAmount);
     totalAmount := stats.(totalAmount);
     salesAverage := stats.(salesAverage);
     standardDeviation := stats.(standardDeviation);
     amounts := Some a |}.

Definition record_key (record : SalesRecord) : option Z * option Z :=
  let d := JSDate.new_Date LocalTZA record.(date) in
  (JSDate.getFullYear LocalTZA d,
   option_map (fun m => m + 1) (JSDate.getMonth LocalTZA d)).

Definition processSalesRecord (m : monthlyStats_t) (record : SalesRecord)
  : completion monthlyStats_t :=
  let '(yr, mon) := record_key record in
  let key := bucket_key yr mon in
  let m :=
    if negb (JSMap.has m key)
    then JSMap.set m key (new_stats yr mon record)
    else m in
  match JSMap.get m key with
  | None => Throw TypeError m
  | Some stats =>
      let stats := update_stats stats record in
      match stats.(amounts) with
      | None => Throw TypeError (JSMap.set m key stats)
      | Some a =>
          Return (JSMap.set m key
                    (with_amounts stats (a ++ [record.(total)])))
      end
  end.

End TimeZone.

Definition finalize_average (stats : SalesStats) : SalesStats :=
  {| year := stats.(year); month := stats.(month);
     numberOfOrders := stats.(numberOfOrders);
     maxAmount := stats.(maxAmount); minAmount := stats.(minAmount);
     totalAmount := stats.(totalAmount);
     salesAverage :=
       (stats.(totalAmount) / of_Z stats.(numberOfOrders))%float;
     standardDeviation := stats.(standardDeviation);
     amounts := stats.(amounts) |}.

Definition finalize_deviation (stats : SalesStats) (sd : number) : SalesStats :=
  {| year := stats.(year); month := stats.(month);
     numberOfOrders := stats.(numberOfOrders);
     maxAmount := stats.(maxAmount); minAmount := stats.(minAmount);
     totalAmount := stats.(totalAmount);
     salesAverage := stats.(salesAverage);
     standardDeviation := sd;
     amounts := None |}.

(** The loop of [finalizeStats] over the entries in insertion order; a throw
    leaves the entries before it finalized. *)
Fixpoint finalizeStats (m : monthlyStats_t) : completion monthlyStats_t :=
  match m with
  | [] => Return []
  | (key, stats) :: rest =>
      let stats := finalize_average stats in
      match calculateStandardDeviation stats.(amounts) stats.(salesAverage) with
      | None => Throw TypeError ((key, stats) :: rest)
      | Some sd =>
          let entry := (key, finalize_deviation stats sd) in
          match finalizeStats rest with
          | Return rest' => Return (entry :: rest')
          | Throw e rest' => Throw e (entry :: rest')
          end
      end
  end.

(** [keyA.localeCompare(keyB)] on the keys, which are made of digits, [-]
    and the letters of [NaN]: the order of the character codes. *)
Definition localeCompare (a b : string) : comparison := String.compare a b.

(** [Array.prototype.sort] with the comparator on the keys: a stable sort. *)
Fixpoint insert_entry {V} (e : string * V) (l : list (string * V))
  : list (string * V) :=
  match l with
  | [] => [e]
  | e' :: r =>
      match localeCompare (fst e) (fst e') with
      | Lt => e :: l
      | _ => e' :: insert_entry e r
      end
  end.

Definition sort_entries {V} (l : list (string * V)) : list (string * V) :=
  fold_right insert_entry [] l.

Definition report_header : string :=
  "year,month,month_name,number_of_orders,max_amount,min_amount,sales_average,standard_deviation".

Definition report_line (stats : SalesStats) : string :=
  (int_text stats.(year) ++ "," ++ int_text stats.(month) ++ ","
   ++ text_or_undefined (getMonthName stats.(month)) ++ ","
   ++ Digits.of_Z stats.(numberOfOrders) ++ ","
   ++ toFixed stats.(maxAmount) 2 ++ ","
   ++ toFixed stats.(minAmount) 2 ++ ","
   ++ toFixed stats.(salesAverage) 2 ++ ","
   ++ toFixed stats.(standardDeviation) 2)%string.

(** The lines of the report: the header, then a line per bucket. *)
Definition statsToCSV (m : monthlyStats_t) : list string :=
  report_header :: map (fun e => report_line (snd e)) (sort_entries m).

(** *** [process] *)

(** What a run of [process] leaves: the promise, the processor, the files,
    and the errors the row handler reported with [console.error], each with
    the line number it printed. *)
Record run := {
  result : promise;
  processor : SalesProcessor;
  files : FS.t;
  reported : list (Z * string)
}.

Section Process.

Variable LocalTZA : Z.

(** The CSV parser, an outside library: the rows it emits for the lines of
    a file. *)
Variable csv : list string -> list RawRecord.

Definition parse_record (rawRecord : RawRecord) : SalesRecord :=
  {| id := JSParse.parseInt rawRecord.(raw_id);
     order_id := JSParse.parseInt rawRecord.(raw_order_id);
     customer_id := JSParse.parseInt rawRecord.(raw_customer_id);
     total := JSParse.parseFloat rawRecord.(raw_total);
     date := rawRecord.(raw_date) |}.

(** The handler of a ['data'] event, on the bucket map, the count
    [recordsProcessed] and the reported errors. *)
Definition on_data (st : monthlyStats_t * Z * list (Z * string))
    (rawRecord : RawRecord) : monthlyStats_t * Z * list (Z * string) :=
  let '(m, recordsProcessed, log) := st in
  match processSalesRecord LocalTZA m (parse_record rawRecord) with
  | Return m' => (m', recordsProcessed + 1, log)
  | Throw e m' => (m', recordsProcessed, log ++ [(recordsProcessed + 1, e)])
  end.

Definition read_rows (m : monthlyStats_t) (rows : list RawRecord)
  : monthlyStats_t * Z * list (Z * string) :=
  fold_left on_data rows (m, 0, []).

Definition with_stats (p : SalesProcessor) (m : monthlyStats_t) : SalesProcessor :=
  {| inputPath := p.(inputPath); outputPath := p.(outputPath);
     monthlyStats := m |}.

Definition process (p : SalesProcessor) (fs : FS.t) : run :=
  if negb (FS.existsSync fs p.(inputPath))
  then {| result := Rejected ("Input file not found: " ++ p.(inputPath))%string;
          processor := p; files := fs; reported := [] |}
  else
    let lines := match fs p.(inputPath) with Some l => l | None => [] end in
    let '(m, _, log) := read_rows p.(monthlyStats) (csv lines) in
    match finalizeStats m with
    | Return m' =>
        {| result := Resolved; processor := with_stats p m';
           files := FS.writeFileSync fs p.(outputPath) (statsToCSV m');
           reported := log |}
    | Throw e m' =>
        {| result := Rejected e; processor := with_stats p m';
           files := fs; reported := log |}
    end.

End Process.

(** *** [getStats] *)

Record summary := {
  totalMonths : Z;
  yearRange : string;
  totalRecordsProcessed : Z
}.

(** [Math.min(...years)] and [Math.max(...years)]: [NaN] if any is. *)
Fixpoint fold_years (f : Z -> Z -> Z) (years : list (option Z)) (acc : Z)
  : option Z :=
  match years with
  | [] => Some acc
  | Some y :: r => fold_years f r (f acc y)
  | None :: _ => None
  end.

Definition spread (f : Z -> Z -> Z) (years : list (option Z)) : option Z :=
  match years with
  | Some y :: r => fold_years f r y
  | _ => None
  end.

Definition same_year (a b : option Z) : bool :=
  match a, b with
  | Some x, Some y => x =? y
  | _, _ => false
  end.

Definition getStats (p : SalesProcessor) : summary :=
  if JSMap.size p.(monthlyStats) =? 0
  then {| totalMonths := 0; yearRange := ""; totalRecordsProcessed := 0 |}
  else
    let years := map (fun stats => stats.(year)) (JSMap.values p.(monthlyStats)) in
    let minYear := spread Z.min years in
    let maxYear := spread Z.max years in
    let totalRecords :=
      fold_left (fun sum stats => sum + stats.(numberOfOrders))
                (JSMap.values p.(monthlyStats)) 0 in
    {| totalMonths := JSMap.size p.(monthlyStats);
       yearRange :=
         if same_year minYear maxYear then int_text minYear
         else (int_text minYear ++ "-" ++ int_text maxYear)%string;
       totalRecordsProcessed := totalRecords |}.

End Processor.

(** ** [src/generator.ts]: the sales data generator *)

Module Generator.

Import JSNumber.

Record SalesRecord := {
  id : Z;
  order_id : Z;
  customer_id : Z;
  total : number;
  date : string
}.

Record SalesDataGenerator := {
  outputPath : string;
  totalRecords : Z;
  batchSize : Z
}.

Definition RangeError : string := "RangeError".

(** [x.toFixed(decimals)] on the exact value [x] (below [10^21]). *)
Definition toFixed_exact (x : Q) (decimals : nat) : string :=
  let neg := negb (Qle_bool 0 x) in
  let x := if neg then Qopp x else x in
  let n := Qfloor (x * inject_Z (10 ^ Z.of_nat decimals) + (1 # 2)) in
  ((if neg then "-" else "") ++ fixed_digits n decimals)%string.

Definition header : string := "id,order_id,customer_id,total,date".

Definition record_line (record : SalesRecord) : string :=
  (Digits.of_Z record.(id) ++ "," ++ Digits.of_Z record.(order_id) ++ ","
   ++ Digits.of_Z record.(customer_id) ++ "," ++ toString record.(total)
   ++ "," ++ record.(date))%string.

Definition recordsToCSV (records : list SalesRecord) (includeHeader : bool)
  : list string :=
  (if includeHeader then [header] else []) ++ map record_line records.

Section Generator.

Variable LocalTZA : Z.

(** The results of the successive calls of [Math.random()]. *)
Variable random : nat -> Q.

(** A computation that draws: from the number of draws made so far to a
    result and the number made after it. *)
Definition M (A : Type) : Type := nat -> A * nat.

Definition ret {A} (a : A) : M A := fun i => (a, i).

Definition bind {A B} (c : M A) (k : A -> M B) : M B :=
  fun i => let '(a, i') := c i in k a i'.

Notation "x <- c ;; k" := (bind c (fun x => k))
  (at level 61, c at next level, right associativity).

Definition Math_random : M Q := fun i => (random i, S i).

Definition randomInt (min max : Z) : M Z :=
  u <- Math_random ;;
  ret (Qfloor (u * inject_Z (max - min + 1)) + min).

Definition randomFloat (min max : Z) (decimals : nat) : M number :=
  u <- Math_random ;;
  let value := (u * inject_Z (max - min) + inject_Z min)%Q in
  ret (JSParse.parseFloat (Some (toFixed_exact value decimals))).

(** [None] when [toISOString] throws a [RangeError]: the date is invalid. *)
Definition randomDate : M (option string) :=
  let startYear := 2020 in
  let endYear := 2025 in
  year <- randomInt startYear endYear ;;
  month <- randomInt 1 12 ;;
  let daysInMonth :=
    JSDate.getDate LocalTZA (JSDate.new_Date_local LocalTZA year month 0 0 0 0) in
  day <- match daysInMonth with
         | Some n => d <- randomInt 1 n ;; ret (Some d)
         | None => _ <- Math_random ;; ret None
         end ;;
  hour <- randomInt 0 23 ;;
  minute <- randomInt 0 59 ;;
  second <- randomInt 0 59 ;;
  ret match day with
      | Some day =>
          option_map JSDate.toISOString
            (JSDate.new_Date_local LocalTZA year (month - 1) day hour minute second)
      | None => None
      end.

(** The loop of [generateBatch], [n] iterations left, [i] the loop index. *)
Fixpoint generateBatch_loop (n : nat) (startId i : Z)
    (records : list SalesRecord) : M (option (list SalesRecord)) :=
  match n with
  | O => ret (Some records)
  | S n' =>
      order_id <- randomInt 100000 999999 ;;
      customer_id <- randomInt 1 50000 ;;
      total <- randomFloat 500 1800 2 ;;
      date <- randomDate ;;
      match date with
      | None => ret None
      | Some date =>
          generateBatch_loop n' startId (i + 1)
            (records ++ [{| id := startId + i; order_id := order_id;
                            customer_id := customer_id; total := total;
                            date := date |}])
      end
  end.

Definition generateBatch (startId count : Z) : M (option (list SalesRecord)) :=
  generateBatch_loop (Z.to_nat count) startId 0 [].

(** The [while] loop of [generate] on the lines written so far; [None] when
    the loop is still running after [fuel] rounds. *)
Fixpoint generate_loop (fuel : nat) (g : SalesDataGenerator) (processed : Z)
    (written : list string) : M (option (promise * list string)) :=
  if processed <? g.(totalRecords) then
    match fuel with
    | O => ret None
    | S fuel' =>
        let remainingRecords := g.(totalRecords) - processed in
        let currentBatchSize := Z.min g.(batchSize) remainingRecords in
        batch <- generateBatch (processed + 1) currentBatchSize ;;
        match batch with
        | None => ret (Some (Rejected RangeError, written))
        | Some batch =>
            generate_loop fuel' g (processed + currentBatchSize)
              (written ++ recordsToCSV batch false)
        end
    end
  else ret (Some (Resolved, written)).

(** [generate()]: the promise and the files, the output file holding what
    the stream was given up to the end or the throw. *)
Definition generate (fuel : nat) (g : SalesDataGenerator) (fs : FS.t)
  : option (promise * FS.t) :=
  match fst (generate_loop fuel g 0 [header] O) with
  | Some (p, written) => Some (p, FS.writeFileSync fs g.(outputPath) written)
  | None => None
  end.

End Generator.

End Generator.

(** * The vocabulary of the properties *)

(** ** An order on the binary64 values *)

Module FloatKey.

Import JSNumber.

(** A key of each value that is not [NaN]: the values compare as their keys
    do in the order of triples, [-0] before [+0]. *)
Definition key (x : spec_float) : Z * Z * Z :=
  match x with
  | S754_nan => (3, 0, 0)
  | S754_infinity true => (-2, 0, 0)
  | S754_infinity false => (2, 0, 0)
  | S754_zero true => (0, 0, 0)
  | S754_zero false => (0, 0, 1)
  | S754_finite true m e => (-1, - e, - Zpos m)
  | S754_finite false m e => (1, e, Zpos m)
  end.

Definition lex_ltb (a b : Z * Z * Z) : bool :=
  let '(a1, a2, a3) := a in
  let '(b1, b2, b3) := b in
  (a1 <? b1) || ((a1 =? b1) && ((a2 <? b2) || ((a2 =? b2) && (a3 <? b3)))).

Definition fkey (x : number) : Z * Z * Z := key (Prim2SF x).

Definition is_number (x : number) : Prop := is_nan x = false.

Definition SF_pos_zero (x : spec_float) : bool :=
  match x with S754_zero false => true | _ => false end.

Definition SF_neg_zero (x : spec_float) : bool :=
  match x with S754_zero true => true | _ => false end.

End FloatKey.

(** ** Inputs and observations of the sales processor *)

Module ProcessorRuns.

Import JSNumber Processor.

(** A row of the input store with the five columns present. *)
Definition row (i o c t d : string) : RawRecord :=
  {| raw_id := Some i; raw_order_id := Some o; raw_customer_id := Some c;
     raw_total := Some t; raw_date := Some d |}.

(** A processor on the default paths and a file system that holds the
    input store; the parser hands over [rows] whatever the lines are. *)
Definition sales : SalesProcessor :=
  new_SalesProcessor "sales.csv" "sales_report.csv".

Definition store : FS.t := FS.writeFileSync FS.empty "sales.csv" [].

Definition run_on (LocalTZA : Z) (rows : list RawRecord) : run :=
  process LocalTZA (fun _ => rows) sales store.

Definition report_of (LocalTZA : Z) (rows : list RawRecord)
  : option (list string) :=
  (run_on LocalTZA rows).(files) "sales_report.csv".

(** A valid row, then a row whose total is not a number. *)
Definition malformed_total_rows : list RawRecord :=
  [row "1" "100000" "7" "600.00" "2021-03-10T12:00:00.000Z";
   row "2" "100001" "8" "abc" "2021-03-15T12:00:00.000Z"].

(** A row whose date is not a date. *)
Definition malformed_date_rows : list RawRecord :=
  [row "1" "100000" "7" "700.00" "not-a-date"].

(** Rows of the years 999 and 1000. *)
Definition short_year_rows : list RawRecord :=
  [row "1" "100000" "7" "5.00" "0999-06-15T12:00:00.000Z";
   row "2" "100001" "8" "5.00" "1000-06-15T12:00:00.000Z"].

Definition sale (t : number) (d : string) : SalesRecord :=
  {| id := of_Z 1; order_id := of_Z 100000; customer_id := of_Z 7;
     total := t; date := Some d |}.

(** The state a completion leaves, returned or thrown. *)
Definition state_of {S} (c : completion S) : S :=
  match c with Return s => s | Throw _ s => s end.

(** The bucket map after the records, folded in order from [m]. *)
Definition fold_records (LocalTZA : Z) (m : monthlyStats_t)
    (records : list SalesRecord) : monthlyStats_t :=
  fold_left (fun m r => state_of (processSalesRecord LocalTZA m r)) records m.


Section TimeZone.
Variable LocalTZA : Z.

(** The key of the bucket a record goes to. *)
Definition key_of (r : SalesRecord) : string :=
  bucket_key (fst (record_key LocalTZA r)) (snd (record_key LocalTZA r)).

(** The records of [rs] that go to the bucket of key [k], in order. *)
Definition bucket_records (k : string) (rs : list SalesRecord) : list SalesRecord :=
  filter (fun r => String.eqb (key_of r) k) rs.

(** What [processSalesRecord] makes of the bucket [o] of the record's key
    ([None] when there is none yet), the amounts being retained. *)
Definition fold_stats (o : option SalesStats) (r : SalesRecord) : SalesStats :=
  let st := match o with
            | Some st => st
            | None => new_stats (fst (record_key LocalTZA r))
                        (snd (record_key LocalTZA r)) r
            end in
  with_amounts (update_stats st r)
    (match st.(amounts) with Some a => a | None => [] end ++ [r.(total)]).

End TimeZone.

(** The bucket of a year and month once the totals [ts], at least one, have
    been folded into it in this order. *)
Definition bucket_stats (yr mon : option Z) (ts : list number) : SalesStats :=
  {| year := yr; month := mon;
     numberOfOrders := Z.of_nat (List.length ts);
     maxAmount := fold_left Math_max ts (hd zero ts);
     minAmount := fold_left Math_min ts (hd zero ts);
     totalAmount := fold_left PrimFloat.add ts zero;
     salesAverage := zero; standardDeviation := zero;
     amounts := Some ts |}.

(** Every bucket still retains its amounts. *)
Definition retaining (m : monthlyStats_t) : Prop :=
  Forall (fun e => (snd e).(amounts) <> None) m.

(** The sum of the squared deviations of the amounts from [mean], summed
    in the order of the list from zero. *)
Definition sum_of_squared_deviations (ts : list number) (mean : number) : number :=
  fold_left PrimFloat.add
    (map (fun t => ((t - mean) * (t - mean))%float) ts) zero.

(** The sample standard deviation of [n] amounts: zero for at most one,
    else the root of the sum of the squared deviations over [n - 1]. *)
Definition sample_standard_deviation (n : Z) (ts : list number) (mean : number)
  : number :=
  if n <=? 1 then zero
  else sqrt (sum_of_squared_deviations ts mean / of_Z (n - 1))%float.

(** A bucket as [finalizeStats] leaves it. *)
Definition finalized (st : SalesStats) : SalesStats :=
  let st' := finalize_average st in
  finalize_deviation st'
    (sample_standard_deviation st.(numberOfOrders)
       (match st.(amounts) with Some a => a | None => [] end)
       st'.(salesAverage)).

(** The year and month of the local calendar a date text falls in, as
    [processSalesRecord] reads them. *)
Definition local_month (LocalTZA : Z) (date : string) : option Z * option Z :=
  let d := JSDate.new_Date LocalTZA (Some date) in
  (JSDate.getFullYear LocalTZA d,
   option_map (fun m => m + 1) (JSDate.getMonth LocalTZA d)).

(** Every bucket counts the amounts it retains. *)
Definition counting (m : monthlyStats_t) : Prop :=
  Forall (fun e => exists a, (snd e).(amounts) = Some a
                             /\ (snd e).(numberOfOrders) = Z.of_nat (List.length a)) m.


(** The insertion sort of [sort_entries] on the keys alone. *)
Fixpoint insert_key (k : string) (l : list string) : list string :=
  match l with
  | [] => [k]
  | k' :: r =>
      match localeCompare k k' with
      | Lt => k :: l
      | _ => k' :: insert_key k r
      end
  end.

Definition sort_keys (l : list string) : list string :=
  fold_right insert_key [] l.

Definition month_text (m : Z) : string := Digits.padStart0 2 (Digits.of_Z m).

(** The years and months a record can have: both [NaN], or a year and a
    month from 1 to 12. *)
Definition calendar (ym : option Z * option Z) : Prop :=
  ym = (None, None)
  \/ exists y m, ym = (Some y, Some m) /\ 1 <= m <= 12.

(** The columns of a report row that do not come from a sum: year, month,
    month name, number of orders, maximum and minimum. *)
Definition stable_columns (st : SalesStats) : string :=
  (int_text st.(year) ++ "," ++ int_text st.(month) ++ ","
   ++ text_or_undefined (getMonthName st.(month)) ++ ","
   ++ Digits.of_Z st.(numberOfOrders) ++ ","
   ++ toFixed st.(maxAmount) 2 ++ ","
   ++ toFixed st.(minAmount) 2)%string.

(** A report row in three parts: the stable columns, the average and the
    standard deviation. *)
Definition report_rows (m : monthlyStats_t) : list (string * string * string) :=
  map (fun e => (stable_columns (snd e),
                 toFixed (snd e).(salesAverage) 2,
                 toFixed (snd e).(standardDeviation) 2))
      (sort_entries m).

Definition render_row (r : string * string * string) : string :=
  (fst (fst r) ++ "," ++ snd (fst r) ++ "," ++ snd r)%string.

Definition stable_of (r : string * string * string) : string := fst (fst r).

(** The bucket map a run on [rows] ends with. *)
Definition final_stats (LocalTZA : Z) (rows : list RawRecord) : monthlyStats_t :=
  (run_on LocalTZA rows).(processor).(monthlyStats).

(** The total of a row parses to a number. *)
Definition total_parses (rawRecord : RawRecord) : Prop :=
  FloatKey.is_number (JSParse.parseFloat rawRecord.(raw_total)).

(** Four valid rows of one month, and the same rows with the last two
    exchanged. *)
Definition order_rows : list RawRecord :=
  [row "1" "100000" "7" "851.7" "2021-03-10T12:00:00.000Z";
   row "2" "100001" "8" "561.4" "2021-03-11T12:00:00.000Z";
   row "3" "100002" "9" "640.8" "2021-03-12T12:00:00.000Z";
   row "4" "100003" "10" "1210.4" "2021-03-13T12:00:00.000Z"].

Definition shuffled_rows : list RawRecord :=
  [row "1" "100000" "7" "851.7" "2021-03-10T12:00:00.000Z";
   row "2" "100001" "8" "561.4" "2021-03-11T12:00:00.000Z";
   row "4" "100003" "10" "1210.4" "2021-03-13T12:00:00.000Z";
   row "3" "100002" "9" "640.8" "2021-03-12T12:00:00.000Z"].

End ProcessorRuns.

(** ** Ranges of integers and checks over a range *)

Module RangeDefs.

(** The integers [lo, lo + 1, ...], [n] of them. *)
Fixpoint Zseq (lo : Z) (n : nat) : list Z :=
  match n with
  | O => []
  | S n' => lo :: Zseq (lo + 1) n'
  end.

(** [f] holds on [lo, lo + 1, ...], [len] of them; the range is halved at
    each step. *)
Fixpoint forall_range (f : Z -> bool) (lo : Z) (len : positive) : bool :=
  match len with
  | xH => f lo
  | xO p => forall_range f lo p && forall_range f (lo + Zpos p) p
  | xI p =>
      f lo && forall_range f (lo + 1) p && forall_range f (lo + 1 + Zpos p) p
  end.

End RangeDefs.

(** ** The days of the generated dates *)

Module CalendarDefs.
Import JSDate RangeDefs.

Definition MonthFromDay (d : Z) : Z := MonthFromTime (d * msPerDay).
Definition DateFromDay (d : Z) : Z := DateFromTime (d * msPerDay).

(** The days in month [month] (1 to 12) of [year], as [randomDate] finds
    them: the date of day 0 of the month after. *)
Definition days_in_month (year month : Z) : Z :=
  DateFromDay (MakeDay year month 0).

(** The day numbers of 1 January 2020 and of 31 December 2025. *)
Definition first_day : Z := 18262.
Definition last_day : Z := 20453.

(** Month [month] of [year] has 28 to 31 days, and each of them is a day of
    [year] between the first day of 2020 and the last of 2025. *)
Definition month_ok (year month : Z) : bool :=
  let n := days_in_month year month in
  (28 <=? n) && (n <=? 31)
  && (first_day <=? MakeDay year month 0) && (MakeDay year month 0 <=? last_day)
  && forall_range
       (fun d =>
          let dn := MakeDay year (month - 1) d in
          (n <? d)
          || (YearFromDay dn =? year) && (first_day <=? dn) && (dn <=? last_day))
       1 31.

(** Day [d] has a year of four digits and is the day that [MakeDay] makes
    of its year, month and date. *)
Definition day_ok (d : Z) : bool :=
  let y := YearFromDay d in
  let date := DateFromDay d in
  (0 <=? y) && (y <=? 9999)
  && (MakeDay y (MonthFromDay d) date =? d)
  && (1 <=? date) && (date <=? 31).

End CalendarDefs.

(** ** The generated totals, in hundredths *)

Module TotalDefs.
Import JSNumber RangeDefs.

(** The total of [n] hundredths is between 500 and 1800, and its exact
    value [num / den] has the integer part of [n / 100] and is less than a
    hundredth away from [n / 100]. *)
Definition total_ok (n : Z) : bool :=
  let x := (of_uint63 (Uint63.of_Z n) / 100)%float in
  (500 <=? x)%float && (x <=? 1800)%float
  && match Prim2SF x with
     | S754_finite false m e =>
         (Z.shiftr (Zpos m) (- e) =? n / 100)
         && (Z.shiftl (n - 1) (- e) <? 100 * Zpos m)
         && (100 * Zpos m <? Z.shiftl (n + 1) (- e))
         && (e <? 0)
     | _ => false
     end.

End TotalDefs.

Module TextDefs.

(** Every character of [s] is a decimal digit. *)
Fixpoint all_digits (s : string) : bool :=
  match s with
  | EmptyString => true
  | String c r => Digits.is_digit c && all_digits r
  end.

End TextDefs.

(** ** Inputs and observations of the generator *)

Module GeneratorDefs.
Import JSNumber JSDate Generator.

(** Every draw of [Math.random()] is in [0, 1). *)
Definition valid_draws (random : nat -> Q) : Prop :=
  forall i, (0 <= random i)%Q /\ (random i < 1)%Q.

(** Local time is at most a day away from UTC. *)
Definition valid_zone (LocalTZA : Z) : Prop :=
  - msPerDay <= LocalTZA <= msPerDay.

(** The text after the first point of [s], if there is a point. *)
Fixpoint after_point (s : string) : option string :=
  match s with
  | EmptyString => None
  | String c r => if (c =? ".")%char then Some r else after_point r
  end.

(** The number of characters after the point of a number's text. *)
Definition fraction_digits (s : string) : nat :=
  match after_point s with
  | Some r => String.length r
  | None => 0%nat
  end.

(** The year of a date text in local time, as a reader of the store gets it
    with [new Date(text).getFullYear()], and its year in UTC. *)
Definition local_year (LocalTZA : Z) (date : string) : option Z :=
  getFullYear LocalTZA (new_Date LocalTZA (Some date)).

Definition utc_year (LocalTZA : Z) (date : string) : option Z :=
  getUTCFullYear (new_Date LocalTZA (Some date)).

Definition total_in_range (r : SalesRecord) : Prop :=
  (500 <=? r.(total))%float = true /\ (r.(total) <=? 1800)%float = true.

(** The total is the double nearest to a whole number of hundredths. *)
Definition hundredths (r : SalesRecord) : Prop :=
  exists n, 50000 <= n <= 180000 /\ r.(total) = of_decimal false n (-2).

Definition year_in_range (LocalTZA : Z) (r : SalesRecord) : Prop :=
  exists y, local_year LocalTZA r.(date) = Some y /\ 2020 <= y <= 2025
            /\ (LocalTZA = 0 -> utc_year LocalTZA r.(date) = Some y).

(** What [generateBatch] makes of each record. *)
Definition record_ok (LocalTZA : Z) (r : SalesRecord) : Prop :=
  100000 <= r.(order_id) <= 999999
  /\ 1 <= r.(customer_id) <= 50000
  /\ hundredths r
  /\ total_in_range r
  /\ (fraction_digits (toString r.(total)) <= 2)%nat
  /\ year_in_range LocalTZA r.

End GeneratorDefs.

Module GeneratorRuns.
Import JSNumber Generator.

(** What [generate] leaves in the output file of [g], starting from no
    files. *)
Definition written (LocalTZA : Z) (random : nat -> Q) (fuel : nat)
    (g : SalesDataGenerator) : option (promise * option (list string)) :=
  match generate LocalTZA random fuel g FS.empty with
  | Some (p, fs) => Some (p, fs g.(outputPath))
  | None => None
  end.


(** Seven records in batches of three: the last batch has one. *)
Definition seven_records : SalesDataGenerator :=
  {| outputPath := "sales.csv"; totalRecords := 7; batchSize := 3 |}.

(** [Math.random()] giving 0 every time, and giving 0.565 every time:
    [0.565 * 1300 + 500] is 1234.5. *)
Definition zero_draws : nat -> Q := fun _ => 0%Q.





End GeneratorRuns.

(** ** Views of the sales processor for its further properties *)

Module ProcessorViews.
Import JSNumber Processor ProcessorRuns.

(** The sum [getStats] takes of the orders of the buckets. *)
Definition orders (m : monthlyStats_t) : Z :=
  fold_left (fun sum stats => sum + stats.(numberOfOrders)) (JSMap.values m) 0.



(** Two sales of March 2021 and the bucket they make. *)
Definition march_sales : list SalesRecord :=
  [sale (of_Z 600) "2021-03-10T12:00:00.000Z";
   sale (of_Z 900) "2021-03-15T12:00:00.000Z"].

Definition march_stats : SalesStats :=
  bucket_stats (Some 2021) (Some 3) [of_Z 600; of_Z 900].

(** The year and month of each line of the report, in the order of the
    lines. *)
Definition report_months (m : monthlyStats_t) : list (option Z * option Z) :=
  map (fun e => ((snd e).(year), (snd e).(month))) (sort_entries m).

(** Every bucket stands under the key of its year and month. *)
Definition keyed (m : monthlyStats_t) : Prop :=
  Forall (fun e => fst e = bucket_key (snd e).(year) (snd e).(month)
                   /\ calendar ((snd e).(year), (snd e).(month))) m.



(** A row of April 2021, then a row of November 2020. *)
Definition two_month_rows : list RawRecord :=
  [row "1" "100000" "7" "600.00" "2021-04-10T12:00:00.000Z";
   row "2" "100001" "8" "900.00" "2020-11-15T12:00:00.000Z"].

(** A year and a month before another: an earlier year, or the same year
    and an earlier month. *)
Definition month_before (a b : option Z * option Z) : Prop :=
  match a, b with
  | (Some y, Some m), (Some y', Some m') => y < y' \/ (y = y' /\ m < m')
  | _, _ => False
  end.

(** The year of the row, in local time, is written with four digits. *)
Definition four_digit_year (LocalTZA : Z) (rawRecord : RawRecord) : Prop :=
  exists y, fst (record_key LocalTZA (parse_record rawRecord)) = Some y
            /\ 1000 <= y <= 9999.

(** The order of two years and months: by year, then by month. *)
Definition compare_months (y m y' m' : Z) : comparison :=
  match y ?= y' with Eq => m ?= m' | c => c end.

(** A number that [toFixed] writes in fixed notation: finite and below
    [10^21] in size. *)
Definition fixed_range (x : number) : Prop :=
  match Prim2SF x with
  | S754_zero _ => True
  | S754_finite _ m e => e < 0 \/ Zpos m * 2 ^ e < 10 ^ 21
  | _ => False
  end.

(** The four amounts of a line of the report, as written. *)
Definition amount_columns (st : SalesStats) : list string :=
  [toFixed st.(maxAmount) 2; toFixed st.(minAmount) 2;
   toFixed st.(salesAverage) 2; toFixed st.(standardDeviation) 2].

(** Two rows with the same total and date columns. *)
Definition same_sale (a b : RawRecord) : Prop :=
  a.(raw_total) = b.(raw_total) /\ a.(raw_date) = b.(raw_date).

(** The rows of [two_month_rows] with other texts in the first three
    columns. *)
Definition unnumbered_rows : list RawRecord :=
  [row "abc" "" "-" "600.00" "2021-04-10T12:00:00.000Z";
   row "7" "0x1F" "1e3" "900.00" "2020-11-15T12:00:00.000Z"].



(** A sale of March 2021, then one whose total is [NaN], and the bucket
    they make. *)
Definition nan_sales : list SalesRecord :=
  [sale (of_Z 600) "2021-03-10T12:00:00.000Z";
   sale nan "2021-03-15T12:00:00.000Z"].

Definition nan_stats : SalesStats :=
  bucket_stats (Some 2021) (Some 3) [of_Z 600; nan].

End ProcessorViews.

Module GeneratorCases.
Import Generator.

(** No record at all, and a batch size of zero. *)
Definition no_records : SalesDataGenerator :=
  {| outputPath := "sales.csv"; totalRecords := 0; batchSize := 10000 |}.

Definition empty_batches : SalesDataGenerator :=
  {| outputPath := "sales.csv"; totalRecords := 5; batchSize := 0 |}.

End GeneratorCases.

(** ** Reading the generated lines back *)

Module ReadBackDefs.
Import JSNumber JSParse Generator.

(** The value of a text of digits. *)
Definition digits_value (s : string) : Z := fst (fst (take_digits s 0 0)).

(** [s] written with [j] more zeros reads as [s * 10^j] read. *)
Definition scale_ok (j s : Z) : bool :=
  PrimFloat.Leibniz.eqb (of_decimal false (s * 10 ^ j) 0) (of_decimal false s j).

(** The columns of the data line of a record, as a parser that splits the
    line at its commas hands them over. *)
Definition fields (record : SalesRecord) : Processor.RawRecord :=
  {| Processor.raw_id := Some (Digits.of_Z record.(id));
     Processor.raw_order_id := Some (Digits.of_Z record.(order_id));
     Processor.raw_customer_id := Some (Digits.of_Z record.(customer_id));
     Processor.raw_total := Some (toString record.(total));
     Processor.raw_date := Some record.(date) |}.

End ReadBackDefs.

Module PipelineDefs.
Import JSNumber Generator RangeDefs.


(** The record as the processor reads it from its columns. *)
Definition read_back (record : SalesRecord) : Processor.SalesRecord :=
  {| Processor.id := JSNumber.of_Z record.(id);
     Processor.order_id := JSNumber.of_Z record.(order_id);
     Processor.customer_id := JSNumber.of_Z record.(customer_id);
     Processor.total := record.(total);
     Processor.date := Some record.(date) |}.

End PipelineDefs.

Module DrawnDefs.
Import JSDate RangeDefs CalendarDefs.

(** Each day of month [month] of [year] falls, by the calendar, in that
    month and on that date. *)
Definition month_days_ok (year month : Z) : bool :=
  forall_range
    (fun d =>
       (days_in_month year month <? d)
       || (MonthFromDay (MakeDay year (month - 1) d) =? month - 1)
          && (DateFromDay (MakeDay year (month - 1) d) =? d))
    1 31.

End DrawnDefs.

Module LineDefs.
Import Generator.

(** No character of [s] is a comma. *)
Fixpoint no_comma (s : string) : bool :=
  match s with
  | EmptyString => true
  | String c r => negb (c =? ",")%char && no_comma r
  end.

(** The parts of [s] between its commas. *)
Fixpoint split_commas (s : string) : list string :=
  match s with
  | EmptyString => [EmptyString]
  | String c r =>
      if (c =? ",")%char then EmptyString :: split_commas r
      else
        match split_commas r with
        | part :: parts => String c part :: parts
        | [] => [String c EmptyString]
        end
  end.

(** The row of a line that splits into five columns. *)
Definition columns (line : string) : option Processor.RawRecord :=
  match split_commas line with
  | [i; o; c; t; d] => Some (ProcessorRuns.row i o c t d)
  | _ => None
  end.



(** The line of the record splits into its columns, which the processor
    reads back as the record; the date is, in local time, of a month of
    2020 to 2025 and the total is from 500 to 1800. *)
Definition reads_well (LocalTZA : Z) (r : SalesRecord) : Prop :=
  columns (record_line r) = Some (ReadBackDefs.fields r)
  /\ Processor.parse_record (ReadBackDefs.fields r) = PipelineDefs.read_back r
  /\ (exists y m,
        Processor.record_key LocalTZA (PipelineDefs.read_back r)
        = (Some y, Some m)
        /\ 2020 <= y <= 2025 /\ 1 <= m <= 12)
  /\ (500 <=? total r)%float = true /\ (total r <=? 1800)%float = true.

End LineDefs.

(** * Facts about text and digits *)

Module StringFacts.

Lemma append_assoc (a b c : string) : ((a ++ b) ++ c = a ++ (b ++ c))%string.
Proof. induction a as [|x a IH]; simpl; [reflexivity | now rewrite IH]. Qed.

Lemma append_nil_r (a : string) : (a ++ "" = a)%string.
Proof. induction a as [|x a IH]; simpl; [reflexivity | now rewrite IH]. Qed.

Lemma length_append (a b : string) :
  String.length (a ++ b) = (String.length a + String.length b)%nat.
Proof. induction a as [|x a IH]; simpl; [reflexivity | now rewrite IH]. Qed.

(** The first [length a] characters of [a ++ b], and the rest. *)
Lemma substring_append_l (a b : string) :
  substring 0 (String.length a) (a ++ b) = a.
Proof. induction a as [|x a IH]; simpl; [now destruct b | now rewrite IH]. Qed.

Lemma substring_append_r (a b : string) :
  substring (String.length a) (String.length b) (a ++ b) = b.
Proof.
  induction a as [|x a IH]; simpl; [|exact IH].
  induction b as [|y b IHb]; simpl; [reflexivity | now rewrite IHb].
Qed.

Lemma append_inj_r (a a' b b' : string) :
  String.length b = String.length b' ->
  (a ++ b = a' ++ b')%string -> a = a' /\ b = b'.
Proof.
  revert a'. induction a as [|x a IH]; intros a' Hlen H.
  - destruct a' as [|x' a']; [now split|].
    exfalso. apply (f_equal String.length) in H.
    simpl in H. rewrite length_append in H. lia.
  - destruct a' as [|x' a'].
    + exfalso. apply (f_equal String.length) in H.
      simpl in H. rewrite length_append in H. lia.
    + simpl in H. injection H as -> H.
      destruct (IH a' Hlen H) as [-> ->]. now split.
Qed.

End StringFacts.

Module DigitsFacts.

Import Digits.

Lemma is_digit_digit_char d : 0 <= d <= 9 -> is_digit (digit_char d) = true.
Proof.
  intros H. assert (d = 0 \/ d = 1 \/ d = 2 \/ d = 3 \/ d = 4 \/ d = 5 \/ d = 6
                    \/ d = 7 \/ d = 8 \/ d = 9) as Hd by lia.
  repeat (destruct Hd as [-> | Hd]; [reflexivity|]). subst. reflexivity.
Qed.

Lemma digit_val_digit_char d : 0 <= d <= 9 -> digit_val (digit_char d) = d.
Proof.
  intros H. assert (d = 0 \/ d = 1 \/ d = 2 \/ d = 3 \/ d = 4 \/ d = 5 \/ d = 6
                    \/ d = 7 \/ d = 8 \/ d = 9) as Hd by lia.
  repeat (destruct Hd as [-> | Hd]; [reflexivity|]). subst. reflexivity.
Qed.

Lemma digits_aux_step fuel n acc :
  digits_aux (S fuel) n acc
  = if n / 10 =? 0 then String (digit_char (n mod 10)) acc
    else digits_aux fuel (n / 10) (String (digit_char (n mod 10)) acc).
Proof. reflexivity. Qed.

(** With enough fuel the digits do not depend on it, and come before the
    accumulator. *)
Lemma digits_aux_fuel (N : nat) :
  forall n fuel fuel' acc,
    0 <= n < 2 ^ Z.of_nat N ->
    n < 2 ^ Z.of_nat (S fuel) -> n < 2 ^ Z.of_nat (S fuel') ->
    digits_aux (S fuel) n acc = (digits_aux (S fuel') n "" ++ acc)%string.
Proof.
  induction N as [|N IH]; intros n fuel fuel' acc Hn Hf Hf'.
  - assert (n = 0) as -> by (simpl in Hn; lia). reflexivity.
  - rewrite !digits_aux_step.
    destruct (n / 10 =? 0) eqn:Hq; [reflexivity|].
    apply Z.eqb_neq in Hq.
    assert (0 <= n / 10 < 2 ^ Z.of_nat N) as Hn'.
    { split; [apply Z.div_pos; lia|].
      apply Z.div_lt_upper_bound; [lia|].
      rewrite Nat2Z.inj_succ, Z.pow_succ_r in Hn by lia. lia. }
    assert (forall f, n < 2 ^ Z.of_nat (S f) -> exists g, f = S g /\ n / 10 < 2 ^ Z.of_nat (S g)) as Hfuel.
    { intros f H. destruct f as [|g].
      - exfalso. change (2 ^ Z.of_nat 1) with 2 in H.
        assert (n / 10 = 0) by (apply Z.div_small; lia). lia.
      - exists g. split; [reflexivity|].
        apply Z.div_lt_upper_bound; [lia|].
        rewrite (Nat2Z.inj_succ (S g)), Z.pow_succ_r in H by lia. lia. }
    destruct (Hfuel fuel Hf) as (g & -> & Hg).
    destruct (Hfuel fuel' Hf') as (g' & -> & Hg').
    rewrite (IH (n / 10) g g' _ Hn' Hg Hg').
    rewrite (IH (n / 10) g' g' (String _ "") Hn' Hg' Hg').
    rewrite StringFacts.append_assoc. reflexivity.
Qed.

Lemma digits_fuel_enough n : 0 <= n -> n < 2 ^ Z.of_nat (digits_fuel n).
Proof.
  intros Hn. unfold digits_fuel. rewrite Nat2Z.inj_succ.
  destruct (Z.eq_dec n 0) as [->|Hnz]; [reflexivity|].
  rewrite Z2Nat.id by apply Z.log2_nonneg.
  apply Z.log2_spec. lia.
Qed.

Lemma of_Z_nonneg_small n : 0 <= n < 10 -> of_Z_nonneg n = String (digit_char n) "".
Proof.
  intros Hn. unfold of_Z_nonneg, digits_fuel. rewrite digits_aux_step.
  rewrite Z.div_small, Z.mod_small by lia. reflexivity.
Qed.

Lemma of_Z_nonneg_step n :
  10 <= n ->
  of_Z_nonneg n = (of_Z_nonneg (n / 10) ++ String (digit_char (n mod 10)) "")%string.
Proof.
  intros Hn. unfold of_Z_nonneg at 1.
  pose proof (digits_fuel_enough n ltac:(lia)) as Hf.
  unfold digits_fuel in *. rewrite digits_aux_step.
  assert (n / 10 <> 0) as Hq.
  { intros H. apply Z.div_small_iff in H; lia. }
  apply Z.eqb_neq in Hq. rewrite Hq.
  assert (0 <= n / 10) as Hq0 by (apply Z.div_pos; lia).
  pose proof (digits_fuel_enough (n / 10) Hq0) as Hf'. unfold digits_fuel in Hf'.
  destruct (Z.to_nat (Z.log2 n)) as [|g] eqn:Hg.
  - exfalso. change (2 ^ Z.of_nat 1) with 2 in Hf. lia.
  - unfold of_Z_nonneg, digits_fuel.
    apply (digits_aux_fuel (S (Z.to_nat (Z.log2 (n / 10))))); auto.
    apply Z.div_lt_upper_bound; [lia|].
    rewrite (Nat2Z.inj_succ (S g)), Z.pow_succ_r in Hf by lia. lia.
Qed.

Lemma take_digits_digit c s a k :
  is_digit c = true ->
  JSParse.take_digits (String c s) a k
  = JSParse.take_digits s (a * 10 + digit_val c) (k + 1).
Proof. intros H. cbn [JSParse.take_digits]. now rewrite H. Qed.

(** Reading back the digits of [n] that stand before [rest]. *)
Lemma take_digits_of_Z_nonneg (N : nat) :
  forall n rest a c,
    0 <= n < 10 ^ Z.of_nat N ->
    exists k, 1 <= k /\ 10 ^ (k - 1) <= Z.max n 1 /\ n < 10 ^ k
      /\ String.length (of_Z_nonneg n) = Z.to_nat k
      /\ JSParse.take_digits (of_Z_nonneg n ++ rest) a c
         = JSParse.take_digits rest (a * 10 ^ k + n) (c + k).
Proof.
  induction N as [|N IH]; intros n rest a c Hn.
  - assert (n = 0) as -> by (change (10 ^ Z.of_nat 0) with 1 in Hn; lia).
    exists 1. change (of_Z_nonneg 0) with (String (digit_char 0) "").
    change (String (digit_char 0) "" ++ rest)%string
      with (String (digit_char 0) rest).
    rewrite take_digits_digit by (apply is_digit_digit_char; lia).
    rewrite digit_val_digit_char by lia.
    repeat split; try lia; f_equal; lia.
  - destruct (Z_lt_le_dec n 10) as [Hs|Hb].
    + exists 1. rewrite of_Z_nonneg_small by lia.
      change (String (digit_char n) "" ++ rest)%string
        with (String (digit_char n) rest).
      rewrite take_digits_digit by (apply is_digit_digit_char; lia).
      rewrite digit_val_digit_char by lia.
      repeat split; try lia; f_equal; lia.
    + assert (0 <= n / 10 < 10 ^ Z.of_nat N) as Hq.
      { split; [apply Z.div_pos; lia|].
        apply Z.div_lt_upper_bound; [lia|].
        rewrite Nat2Z.inj_succ, Z.pow_succ_r in Hn by lia. lia. }
      destruct (IH (n / 10) (String (digit_char (n mod 10)) rest) a c Hq)
        as (k & Hk1 & Hlo & Hhi & Hlen & Htake).
      exists (k + 1). rewrite of_Z_nonneg_step by lia.
      pose proof (Z.mod_pos_bound n 10 ltac:(lia)) as Hm.
      pose proof (Z.div_mod n 10 ltac:(lia)) as Hdm.
      assert (1 <= n / 10) by (apply Z.div_le_lower_bound; lia).
      replace (k + 1 - 1) with (Z.succ (k - 1)) by lia.
      replace (k + 1) with (Z.succ k) by lia.
      rewrite !Z.pow_succ_r by lia.
      rewrite StringFacts.append_assoc.
      change (String (digit_char (n mod 10)) "" ++ rest)%string
        with (String (digit_char (n mod 10)) rest).
      rewrite Htake.
      rewrite take_digits_digit by (apply is_digit_digit_char; lia).
      rewrite digit_val_digit_char by lia.
      repeat split; try lia; [|f_equal; lia].
      rewrite StringFacts.length_append, Hlen.
      change (String.length (String (digit_char (n mod 10)) "")) with 1%nat.
      lia.
Qed.

End DigitsFacts.

(** * Facts about the order of the binary64 values *)

Module FloatOrder.

Import JSNumber FloatKey.

Lemma lex_ltb_irrefl a : lex_ltb a a = false.
Proof. destruct a as [[a1 a2] a3]. unfold lex_ltb. lia. Qed.

Lemma lex_ltb_trans a b c :
  lex_ltb a b = true -> lex_ltb b c = true -> lex_ltb a c = true.
Proof.
  destruct a as [[a1 a2] a3], b as [[b1 b2] b3], c as [[c1 c2] c3].
  unfold lex_ltb. lia.
Qed.

Lemma lex_ltb_total a b :
  lex_ltb a b = false -> lex_ltb b a = false -> a = b.
Proof.
  destruct a as [[a1 a2] a3], b as [[b1 b2] b3]. unfold lex_ltb. intros.
  assert (a1 = b1 /\ a2 = b2 /\ a3 = b3) as (-> & -> & ->) by lia.
  reflexivity.
Qed.

Lemma is_nan_spec x : is_nan x = true <-> Prim2SF x = S754_nan.
Proof.
  unfold is_nan. rewrite eqb_spec. unfold SFeqb, SFcompare.
  destruct (Prim2SF x) as [s|s| |s m e]; try destruct s; simpl;
    rewrite ?Z.compare_refl, ?Pos.compare_cont_refl; simpl;
    split; congruence.
Qed.

Lemma is_number_spec x : is_number x <-> Prim2SF x <> S754_nan.
Proof.
  unfold is_number. rewrite <- is_nan_spec. destruct (is_nan x); split; congruence.
Qed.

Lemma key_inj x y :
  x <> S754_nan -> y <> S754_nan -> key x = key y -> x = y.
Proof.
  destruct x as [[]|[]| |[] m e], y as [[]|[]| |[] m' e']; simpl;
    intros Hx Hy H; try congruence;
    injection H; intros; solve [exfalso; lia | f_equal; lia].
Qed.

Lemma fkey_inj x y : is_number x -> is_number y -> fkey x = fkey y -> x = y.
Proof.
  rewrite !is_number_spec. intros Hx Hy H.
  apply Prim2SF_inj. now apply key_inj.
Qed.


Lemma is_pos_zero_spec x : is_pos_zero x = SF_pos_zero (Prim2SF x).
Proof.
  unfold is_pos_zero. rewrite classify_spec. unfold SF64classify, SFclassify.
  destruct (Prim2SF x) as [[]|[]| |[] m e]; try reflexivity;
    destruct (Z.eqb (Zpos (digits2_pos m)) prec); reflexivity.
Qed.

Lemma is_neg_zero_spec x : is_neg_zero x = SF_neg_zero (Prim2SF x).
Proof.
  unfold is_neg_zero. rewrite classify_spec. unfold SF64classify, SFclassify.
  destruct (Prim2SF x) as [[]|[]| |[] m e]; try reflexivity;
    destruct (Z.eqb (Zpos (digits2_pos m)) prec); reflexivity.
Qed.

Lemma SFltb_key x y :
  x <> S754_nan -> y <> S754_nan ->
  (SF_pos_zero y && SF_neg_zero x) || SFltb x y = lex_ltb (key x) (key y).
Proof.
  unfold SFltb, SFcompare.
  destruct x as [[]|[]| |[] m e], y as [[]|[]| |[] m' e'];
    intros Hx Hy; try congruence; try reflexivity; simpl;
    change (Pos.compare_cont Eq m m') with (Pos.compare m m');
    destruct (Z.compare_spec e e'); destruct (Pos.compare_spec m m');
    simpl; rewrite <- ?Pos2Z.opp_pos; lia.
Qed.

Lemma Math_max_key a b :
  is_number a -> is_number b ->
  Math_max a b = if lex_ltb (fkey a) (fkey b) then b else a.
Proof.
  intros Ha Hb. unfold Math_max, fkey.
  rewrite Ha, Hb, is_pos_zero_spec, is_neg_zero_spec, ltb_spec. simpl.
  apply is_number_spec in Ha, Hb.
  rewrite <- (SFltb_key _ _ Ha Hb).
  destruct (SF_pos_zero _ && SF_neg_zero _); simpl; reflexivity.
Qed.

Lemma Math_min_key a b :
  is_number a -> is_number b ->
  Math_min a b = if lex_ltb (fkey b) (fkey a) then b else a.
Proof.
  intros Ha Hb. unfold Math_min, fkey.
  rewrite Ha, Hb, is_pos_zero_spec, is_neg_zero_spec, ltb_spec. simpl.
  apply is_number_spec in Ha, Hb.
  rewrite <- (SFltb_key _ _ Hb Ha), (andb_comm (SF_pos_zero _)).
  destruct (SF_neg_zero _ && SF_pos_zero _); simpl; reflexivity.
Qed.

Lemma Math_max_number a b : is_number a -> is_number b -> is_number (Math_max a b).
Proof.
  intros Ha Hb. rewrite Math_max_key by assumption.
  now destruct (lex_ltb _ _).
Qed.

Lemma Math_min_number a b : is_number a -> is_number b -> is_number (Math_min a b).
Proof.
  intros Ha Hb. rewrite Math_min_key by assumption.
  now destruct (lex_ltb _ _).
Qed.

Lemma Math_max_comm a b : is_number a -> is_number b -> Math_max a b = Math_max b a.
Proof.
  intros Ha Hb. rewrite !Math_max_key by assumption.
  destruct (lex_ltb (fkey a) (fkey b)) eqn:Hab, (lex_ltb (fkey b) (fkey a)) eqn:Hba;
    try reflexivity.
  - pose proof (lex_ltb_trans _ _ _ Hab Hba) as H.
    rewrite lex_ltb_irrefl in H. discriminate.
  - apply fkey_inj; auto. now apply lex_ltb_total.
Qed.

Lemma Math_max_assoc a b c :
  is_number a -> is_number b -> is_number c ->
  Math_max (Math_max a b) c = Math_max a (Math_max b c).
Proof.
  intros Ha Hb Hc.
  rewrite (Math_max_key a b), (Math_max_key b c) by assumption.
  destruct (lex_ltb (fkey a) (fkey b)) eqn:Hab, (lex_ltb (fkey b) (fkey c)) eqn:Hbc;
    rewrite ?Math_max_key by assumption; rewrite ?Hab, ?Hbc; try reflexivity.
  - now rewrite (lex_ltb_trans _ _ _ Hab Hbc).
  - destruct (lex_ltb (fkey a) (fkey c)) eqn:Hac; try reflexivity.
    destruct (lex_ltb (fkey c) (fkey b)) eqn:Hcb.
    + pose proof (lex_ltb_trans _ _ _ Hac Hcb). congruence.
    + assert (b = c) by (apply fkey_inj; auto; now apply lex_ltb_total).
      subst. congruence.
Qed.

Lemma Math_min_comm a b : is_number a -> is_number b -> Math_min a b = Math_min b a.
Proof.
  intros Ha Hb. rewrite !Math_min_key by assumption.
  destruct (lex_ltb (fkey a) (fkey b)) eqn:Hab, (lex_ltb (fkey b) (fkey a)) eqn:Hba;
    try reflexivity.
  - pose proof (lex_ltb_trans _ _ _ Hab Hba) as H.
    rewrite lex_ltb_irrefl in H. discriminate.
  - apply fkey_inj; auto. now apply lex_ltb_total.
Qed.

Lemma Math_min_assoc a b c :
  is_number a -> is_number b -> is_number c ->
  Math_min (Math_min a b) c = Math_min a (Math_min b c).
Proof.
  intros Ha Hb Hc.
  rewrite (Math_min_key a b), (Math_min_key b c) by assumption.
  destruct (lex_ltb (fkey b) (fkey a)) eqn:Hba, (lex_ltb (fkey c) (fkey b)) eqn:Hcb;
    rewrite ?Math_min_key by assumption; rewrite ?Hba, ?Hcb; try reflexivity.
  - now rewrite (lex_ltb_trans _ _ _ Hcb Hba).
  - destruct (lex_ltb (fkey c) (fkey a)) eqn:Hca; try reflexivity.
    destruct (lex_ltb (fkey b) (fkey c)) eqn:Hbc.
    + pose proof (lex_ltb_trans _ _ _ Hbc Hca). congruence.
    + assert (b = c) by (apply fkey_inj; auto; now apply lex_ltb_total).
      subst. congruence.
Qed.

Lemma Math_max_idem a : is_number a -> Math_max a a = a.
Proof.
  intros Ha. rewrite Math_max_key by assumption. now destruct (lex_ltb _ _).
Qed.

Lemma Math_min_idem a : is_number a -> Math_min a a = a.
Proof.
  intros Ha. rewrite Math_min_key by assumption. now destruct (lex_ltb _ _).
Qed.

End FloatOrder.

(** * Facts about the bucket map *)

Module MapFacts.

Section Map.

Context {V : Type}.

Implicit Types (m : JSMap.t V) (k : string) (v : V).

Lemma get_set_same m k v : JSMap.get (JSMap.set m k v) k = Some v.
Proof.
  induction m as [|[k' v'] m IH]; simpl.
  - now rewrite String.eqb_refl.
  - destruct (String.eqb k' k) eqn:E; simpl.
    + now rewrite String.eqb_refl.
    + now rewrite E.
Qed.

Lemma get_set_other m k v k' :
  k' <> k -> JSMap.get (JSMap.set m k v) k' = JSMap.get m k'.
Proof.
  intros Hne. induction m as [|[k0 v0] m IH]; simpl.
  - apply String.eqb_neq in Hne. now rewrite String.eqb_sym, Hne.
  - destruct (String.eqb k0 k) eqn:E; simpl.
    + apply String.eqb_eq in E. subst k0.
      apply String.eqb_neq in Hne. now rewrite String.eqb_sym, Hne.
    + now rewrite IH.
Qed.

Lemma keys_set m k v :
  JSMap.keys (JSMap.set m k v)
  = if JSMap.has m k then JSMap.keys m else JSMap.keys m ++ [k].
Proof.
  unfold JSMap.has, JSMap.keys. induction m as [|[k0 v0] m IH]; simpl.
  - reflexivity.
  - destruct (String.eqb k0 k) eqn:E; simpl.
    + apply String.eqb_eq in E. now subst.
    + rewrite IH. now destruct (JSMap.get m k).
Qed.

Lemma has_In m k : JSMap.has m k = true <-> In k (JSMap.keys m).
Proof.
  unfold JSMap.has, JSMap.keys. induction m as [|[k0 v0] m IH]; simpl.
  - split; [discriminate | tauto].
  - destruct (String.eqb k0 k) eqn:E.
    + apply String.eqb_eq in E. split; auto.
    + apply String.eqb_neq in E. rewrite IH. split; [auto|intros [H|H]; congruence].
Qed.

Lemma get_In m k v : JSMap.get m k = Some v -> In (k, v) m.
Proof.
  induction m as [|[k0 v0] m IH]; simpl; [discriminate|].
  destruct (String.eqb k0 k) eqn:E.
  - apply String.eqb_eq in E. intros [= ->]. subst. now left.
  - intros H. right. now apply IH.
Qed.

Lemma In_get m k v :
  NoDup (JSMap.keys m) -> In (k, v) m -> JSMap.get m k = Some v.
Proof.
  unfold JSMap.keys. induction m as [|[k0 v0] m IH]; simpl; [tauto|].
  intros Hnd [H|H].
  - injection H as -> ->. now rewrite String.eqb_refl.
  - inversion Hnd as [|? ? Hnotin Hnd']; subst.
    destruct (String.eqb k0 k) eqn:E.
    + apply String.eqb_eq in E. subst. exfalso. apply Hnotin.
      change k with (fst (k, v)). now apply in_map.
    + now apply IH.
Qed.

Lemma NoDup_keys_set m k v :
  NoDup (JSMap.keys m) -> NoDup (JSMap.keys (JSMap.set m k v)).
Proof.
  intros Hnd. rewrite keys_set. destruct (JSMap.has m k) eqn:E; [assumption|].
  apply NoDup_app; [assumption | repeat constructor; tauto |].
  intros x Hx [<-|[]]. apply has_In in Hx. congruence.
Qed.

End Map.

End MapFacts.

(** * Facts about folding and finalizing *)

Module BucketFacts.

Import JSNumber Processor ProcessorRuns MapFacts.

Lemma set_set {V} (m : JSMap.t V) k v v' :
  JSMap.set (JSMap.set m k v) k v' = JSMap.set m k v'.
Proof.
  induction m as [|[k0 v0] m IH]; simpl.
  - now rewrite String.eqb_refl.
  - destruct (String.eqb k0 k) eqn:E; simpl.
    + now rewrite String.eqb_refl.
    + now rewrite E, IH.
Qed.

Lemma retaining_set m k st :
  retaining m -> st.(amounts) <> None -> retaining (JSMap.set m k st).
Proof.
  unfold retaining. intros Hm Hst. induction m as [|[k0 v0] m IH]; simpl.
  - repeat constructor. assumption.
  - inversion Hm; subst. destruct (String.eqb k0 k); constructor; auto.
Qed.

Lemma retaining_get m k st :
  retaining m -> JSMap.get m k = Some st -> st.(amounts) <> None.
Proof.
  intros Hm Hget. apply get_In in Hget.
  unfold retaining in Hm. rewrite Forall_forall in Hm. exact (Hm _ Hget).
Qed.

Section TimeZone.
Variable LocalTZA : Z.

(** On a map that retains its amounts [processSalesRecord] returns, and
    changes the bucket of the record's key alone. *)
Lemma processSalesRecord_retaining m r :
  retaining m ->
  processSalesRecord LocalTZA m r
  = Return (JSMap.set m (key_of LocalTZA r)
              (fold_stats LocalTZA (JSMap.get m (key_of LocalTZA r)) r)).
Proof.
  intros Hm. unfold processSalesRecord, key_of, fold_stats.
  destruct (record_key LocalTZA r) as [yr mon]. cbn [fst snd].
  unfold JSMap.has.
  destruct (JSMap.get m (bucket_key yr mon)) as [st|] eqn:Hget; cbn [negb].
  - rewrite Hget.
    pose proof (retaining_get _ _ _ Hm Hget) as Ha.
    unfold update_stats at 1. cbn [amounts].
    destruct (amounts st) as [a|]; [reflexivity | congruence].
  - rewrite get_set_same. cbn. now rewrite set_set.
Qed.

Lemma fold_stats_amounts o r : (fold_stats LocalTZA o r).(amounts) <> None.
Proof. unfold fold_stats, with_amounts. cbn. discriminate. Qed.

Lemma fold_records_cons m r rs :
  retaining m ->
  fold_records LocalTZA m (r :: rs)
  = fold_records LocalTZA
      (JSMap.set m (key_of LocalTZA r)
         (fold_stats LocalTZA (JSMap.get m (key_of LocalTZA r)) r)) rs.
Proof.
  intros Hm. unfold fold_records. cbn [fold_left].
  now rewrite processSalesRecord_retaining.
Qed.

Lemma fold_records_retaining rs : forall m,
  retaining m -> retaining (fold_records LocalTZA m rs).
Proof.
  induction rs as [|r rs IH]; intros m Hm; [exact Hm|].
  rewrite fold_records_cons by assumption.
  apply IH, retaining_set; [assumption | apply fold_stats_amounts].
Qed.

(** The bucket of key [k] after the records: the records of key [k] folded
    into what was there. *)
Lemma get_fold_records k rs : forall m,
  retaining m ->
  JSMap.get (fold_records LocalTZA m rs) k
  = fold_left (fun o r => Some (fold_stats LocalTZA o r))
      (bucket_records LocalTZA k rs) (JSMap.get m k).
Proof.
  induction rs as [|r rs IH]; intros m Hm; [reflexivity|].
  rewrite fold_records_cons by assumption.
  rewrite IH by (apply retaining_set; [assumption | apply fold_stats_amounts]).
  unfold bucket_records. cbn [filter].
  destruct (String.eqb (key_of LocalTZA r) k) eqn:E.
  - apply String.eqb_eq in E. subst k. cbn [fold_left].
    now rewrite get_set_same.
  - apply String.eqb_neq in E. rewrite get_set_other by congruence.
    reflexivity.
Qed.

Lemma keys_fold_records rs : forall m,
  retaining m -> NoDup (JSMap.keys m) ->
  NoDup (JSMap.keys (fold_records LocalTZA m rs))
  /\ (forall k, In k (JSMap.keys (fold_records LocalTZA m rs))
                <-> In k (JSMap.keys m) \/ In k (map (key_of LocalTZA) rs)).
Proof.
  induction rs as [|r rs IH]; intros m Hm Hnd.
  - split; [exact Hnd|]. intros k. cbn. tauto.
  - rewrite fold_records_cons by assumption.
    destruct (IH (JSMap.set m (key_of LocalTZA r)
                    (fold_stats LocalTZA (JSMap.get m (key_of LocalTZA r)) r)))
      as [Hnd' Hin].
    + apply retaining_set; [assumption | apply fold_stats_amounts].
    + now apply NoDup_keys_set.
    + split; [exact Hnd'|]. intros k. rewrite Hin, keys_set. cbn [map In].
      destruct (JSMap.has m (key_of LocalTZA r)) eqn:E.
      * apply has_In in E. split; [tauto|].
        intros [H|[<-|H]]; tauto.
      * rewrite in_app_iff. cbn. tauto.
Qed.

Lemma fold_stats_first r :
  fold_stats LocalTZA None r
  = bucket_stats (fst (record_key LocalTZA r)) (snd (record_key LocalTZA r))
      [r.(total)].
Proof. reflexivity. Qed.

Lemma fold_stats_next yr mon ts r :
  ts <> [] ->
  fold_stats LocalTZA (Some (bucket_stats yr mon ts)) r
  = bucket_stats yr mon (ts ++ [r.(total)]).
Proof.
  intros Hts. unfold fold_stats, bucket_stats, with_amounts, update_stats.
  cbn [year month numberOfOrders maxAmount minAmount totalAmount salesAverage
       standardDeviation amounts].
  rewrite !fold_left_app, length_app. cbn [fold_left List.length].
  replace (hd zero (ts ++ [total r])) with (hd zero ts)
    by (destruct ts; [congruence | reflexivity]).
  f_equal. lia.
Qed.

Lemma fold_stats_bucket yr mon rs : forall ts,
  ts <> [] ->
  fold_left (fun o r => Some (fold_stats LocalTZA o r)) rs
    (Some (bucket_stats yr mon ts))
  = Some (bucket_stats yr mon (ts ++ map total rs)).
Proof.
  induction rs as [|r rs IH]; intros ts Hts; cbn [fold_left map].
  - now rewrite app_nil_r.
  - rewrite fold_stats_next by assumption.
    rewrite IH by (destruct ts; discriminate).
    now rewrite <- app_assoc.
Qed.

(** The bucket of key [k] after the records are folded into an empty map. *)
Lemma get_fold_records_empty k rs :
  JSMap.get (fold_records LocalTZA [] rs) k
  = match bucket_records LocalTZA k rs with
    | [] => None
    | r :: rest =>
        Some (bucket_stats (fst (record_key LocalTZA r))
                (snd (record_key LocalTZA r)) (map total (r :: rest)))
    end.
Proof.
  rewrite get_fold_records by constructor. cbn [JSMap.get].
  destruct (bucket_records LocalTZA k rs) as [|r rest]; [reflexivity|].
  cbn [fold_left]. rewrite fold_stats_first.
  rewrite fold_stats_bucket by discriminate. reflexivity.
Qed.

End TimeZone.

End BucketFacts.

Module FinalFacts.

Import JSNumber Processor ProcessorRuns MapFacts BucketFacts.

Lemma calculateStandardDeviation_sample ts mean :
  calculateStandardDeviation (Some ts) mean
  = Some (sample_standard_deviation (Z.of_nat (List.length ts)) ts mean).
Proof.
  unfold calculateStandardDeviation, sample_standard_deviation.
  destruct (Nat.leb_spec (List.length ts) 1) as [H|H];
    destruct (Z.leb_spec (Z.of_nat (List.length ts)) 1) as [H'|H']; try lia;
    reflexivity.
Qed.

Lemma finalizeStats_counting m :
  counting m ->
  finalizeStats m = Return (map (fun e => (fst e, finalized (snd e))) m).
Proof.
  unfold counting. induction m as [|[k st] m IH]; intros Hm; [reflexivity|].
  inversion Hm as [|? ? (a & Ha & Hn) Hm']; subst. cbn [snd fst] in *.
  cbn [finalizeStats map fst snd].
  change (amounts (finalize_average st)) with (amounts st).
  rewrite Ha, calculateStandardDeviation_sample, (IH Hm').
  unfold finalized. rewrite Ha, Hn. reflexivity.
Qed.

Section TimeZone.
Variable LocalTZA : Z.

Lemma fold_records_counting rs :
  counting (fold_records LocalTZA [] rs).
Proof.
  unfold counting. apply Forall_forall. intros [k st] Hin. cbn [snd].
  destruct (keys_fold_records LocalTZA rs []) as [Hnd _];
    [constructor | constructor |].
  apply In_get in Hin; [|assumption].
  rewrite get_fold_records_empty in Hin.
  destruct (bucket_records LocalTZA k rs) as [|r rest]; [discriminate|].
  injection Hin as <-. eexists. split; reflexivity.
Qed.

(** Reading the rows folds the parsed records and reports nothing. *)
Lemma read_rows_retaining rows : forall m n log,
  retaining m ->
  fold_left (on_data LocalTZA) rows (m, n, log)
  = (fold_records LocalTZA m (map parse_record rows),
     n + Z.of_nat (List.length rows), log).
Proof.
  induction rows as [|raw rows IH]; intros m n log Hm.
  - cbn. f_equal. f_equal. lia.
  - cbn [fold_left map List.length]. unfold on_data at 2.
    rewrite processSalesRecord_retaining by assumption.
    rewrite IH by (apply retaining_set; [assumption | apply fold_stats_amounts]).
    rewrite fold_records_cons by assumption. f_equal. f_equal. lia.
Qed.

(** A run of [process] on a new processor whose input exists. *)
Lemma process_new csv i o fs lines :
  fs i = Some lines ->
  let m := map (fun e => (fst e, finalized (snd e)))
             (fold_records LocalTZA [] (map parse_record (csv lines))) in
  process LocalTZA csv (new_SalesProcessor i o) fs
  = {| result := Resolved;
       processor := with_stats (new_SalesProcessor i o) m;
       files := FS.writeFileSync fs o (statsToCSV m);
       reported := [] |}.
Proof.
  intros Hin m. unfold process, FS.existsSync. cbn [inputPath outputPath monthlyStats new_SalesProcessor].
  rewrite Hin. cbn [negb]. unfold read_rows.
  rewrite read_rows_retaining by constructor.
  rewrite finalizeStats_counting by apply fold_records_counting.
  reflexivity.
Qed.

Lemma get_map_finalized (m : monthlyStats_t) k :
  JSMap.get (map (fun e => (fst e, finalized (snd e))) m) k
  = option_map finalized (JSMap.get m k).
Proof.
  induction m as [|[k0 st] m IH]; [reflexivity|]. cbn.
  destruct (String.eqb k0 k); [reflexivity | exact IH].
Qed.

End TimeZone.

End FinalFacts.

(** * Facts about sorting, keys and the order of the rows *)

Module SortFacts.

Import Processor ProcessorRuns MapFacts.

Lemma compare_lt_trans (a b c : string) :
  String.compare a b = Lt -> String.compare b c = Lt -> String.compare a c = Lt.
Proof.
  revert b c. induction a as [|x a IH]; intros [|y b] [|z c]; simpl;
    try congruence.
  unfold Ascii.compare.
  destruct (N.compare_spec (N_of_ascii x) (N_of_ascii y)) as [Hxy|Hxy|Hxy];
    destruct (N.compare_spec (N_of_ascii y) (N_of_ascii z)) as [Hyz|Hyz|Hyz];
    destruct (N.compare_spec (N_of_ascii x) (N_of_ascii z)) as [Hxz|Hxz|Hxz];
    try congruence; try lia.
  apply IH.
Qed.

Lemma localeCompare_antisym a b :
  localeCompare a b = CompOpp (localeCompare b a).
Proof. apply String.compare_antisym. Qed.

Lemma localeCompare_eq a b : localeCompare a b = Eq -> a = b.
Proof. apply String.compare_eq_iff. Qed.

Lemma insert_key_comm x y l :
  insert_key x (insert_key y l) = insert_key y (insert_key x l).
Proof.
  induction l as [|z r IH]; cbn [insert_key].
  - rewrite (localeCompare_antisym y x).
    destruct (localeCompare x y) eqn:Hxy; cbn [CompOpp]; try reflexivity.
    apply localeCompare_eq in Hxy. now subst.
  - pose proof (localeCompare_antisym y x) as Hyx.
    destruct (localeCompare x y) eqn:Hxy; cbn [CompOpp] in Hyx;
      destruct (localeCompare y z) eqn:Hyz;
      destruct (localeCompare x z) eqn:Hxz;
      cbn [insert_key]; rewrite ?Hxy, ?Hyx, ?Hyz, ?Hxz;
      cbn [insert_key]; rewrite ?Hxy, ?Hyx, ?Hyz, ?Hxz, ?IH;
      try reflexivity.
    all: try (apply localeCompare_eq in Hxy; subst; congruence).
    all: try (apply localeCompare_eq in Hyz; subst; congruence).
    all: try (apply localeCompare_eq in Hxz; subst; congruence).
    all: try (pose proof (compare_lt_trans _ _ _ Hxy Hyz);
              unfold localeCompare in *; congruence).
    all: try (pose proof (compare_lt_trans _ _ _ Hyx Hxz);
              unfold localeCompare in *; congruence).
Qed.

Lemma sort_keys_Permutation l l' :
  Permutation l l' -> sort_keys l = sort_keys l'.
Proof.
  induction 1 as [| x l l' _ IH | x y l | l l' l'' _ IH1 _ IH2];
    cbn [sort_keys fold_right].
  - reflexivity.
  - unfold sort_keys in IH. now rewrite IH.
  - apply insert_key_comm.
  - congruence.
Qed.

Lemma insert_entry_keys {V} (e : string * V) l :
  map fst (insert_entry e l) = insert_key (fst e) (map fst l).
Proof.
  induction l as [|e' r IH]; cbn [insert_entry insert_key map]; [reflexivity|].
  destruct (localeCompare (fst e) (fst e')); cbn [map]; now rewrite ?IH.
Qed.

Lemma sort_entries_keys {V} (l : list (string * V)) :
  map fst (sort_entries l) = sort_keys (map fst l).
Proof.
  induction l as [|e r IH]; [reflexivity|].
  cbn [sort_entries fold_right map sort_keys].
  rewrite insert_entry_keys. unfold sort_entries in IH. now rewrite IH.
Qed.

Lemma insert_entry_Permutation {V} (e : string * V) l :
  Permutation (e :: l) (insert_entry e l).
Proof.
  induction l as [|e' r IH]; cbn [insert_entry]; [reflexivity|].
  destruct (localeCompare (fst e) (fst e')); try reflexivity;
    (etransitivity; [apply perm_swap | now apply perm_skip]).
Qed.

Lemma sort_entries_Permutation {V} (l : list (string * V)) :
  Permutation l (sort_entries l).
Proof.
  induction l as [|e r IH]; [reflexivity|].
  cbn [sort_entries fold_right].
  etransitivity; [apply perm_skip, IH | apply insert_entry_Permutation].
Qed.

(** The sorted entries of a map are its sorted keys, each with its value. *)
Lemma sort_entries_lookup {V} (m : JSMap.t V) :
  NoDup (JSMap.keys m) ->
  map (fun e => (fst e, Some (snd e))) (sort_entries m)
  = map (fun k => (k, JSMap.get m k)) (sort_keys (JSMap.keys m)).
Proof.
  intros Hnd. unfold JSMap.keys. rewrite <- sort_entries_keys, map_map.
  apply map_ext_in. intros [k v] Hin. cbn [fst snd]. f_equal. symmetry.
  apply In_get; [exact Hnd|].
  eapply Permutation_in; [symmetry; apply sort_entries_Permutation | exact Hin].
Qed.

Lemma Permutation_filter {A} (f : A -> bool) l l' :
  Permutation l l' -> Permutation (filter f l) (filter f l').
Proof.
  induction 1 as [| x l l' _ IH | x y l | l l' l'' _ IH1 _ IH2]; cbn [filter].
  - constructor.
  - destruct (f x); [now apply perm_skip | exact IH].
  - destruct (f x), (f y); try reflexivity. apply perm_swap.
  - etransitivity; eassumption.
Qed.

End SortFacts.

Module KeyFacts.

Import Digits DigitsFacts Processor ProcessorRuns.

Lemma pow10_gt n : 0 <= n -> n < 10 ^ Z.of_nat (Z.to_nat n).
Proof.
  intros Hn. rewrite Z2Nat.id by assumption.
  apply Z.pow_gt_lin_r; lia.
Qed.

Lemma of_Z_nonneg_inj n n' :
  0 <= n -> 0 <= n' -> of_Z_nonneg n = of_Z_nonneg n' -> n = n'.
Proof.
  intros Hn Hn' H.
  destruct (take_digits_of_Z_nonneg (Z.to_nat n) n "" 0 0)
    as (k & _ & _ & _ & _ & Hk); [split; [assumption | now apply pow10_gt]|].
  destruct (take_digits_of_Z_nonneg (Z.to_nat n') n' "" 0 0)
    as (k' & _ & _ & _ & _ & Hk'); [split; [assumption | now apply pow10_gt]|].
  rewrite H, Hk' in Hk. cbn [JSParse.take_digits] in Hk.
  injection Hk. lia.
Qed.

Lemma of_Z_nonneg_head (N : nat) : forall n,
  0 <= n < 10 ^ Z.of_nat N ->
  exists c s, of_Z_nonneg n = String c s /\ is_digit c = true.
Proof.
  induction N as [|N IH]; intros n Hn.
  - assert (n = 0) as -> by (change (10 ^ Z.of_nat 0) with 1 in Hn; lia).
    exists (digit_char 0), "". split; reflexivity.
  - destruct (Z_lt_le_dec n 10) as [Hs|Hb].
    + rewrite of_Z_nonneg_small by lia. eexists _, _. split; [reflexivity|].
      apply is_digit_digit_char. lia.
    + rewrite of_Z_nonneg_step by lia.
      destruct (IH (n / 10)) as (c & s & -> & Hc).
      { split; [apply Z.div_pos; lia|].
        apply Z.div_lt_upper_bound; [lia|].
        rewrite Nat2Z.inj_succ, Z.pow_succ_r in Hn by lia. lia. }
      eexists _, _. split; [reflexivity | exact Hc].
Qed.

Lemma of_Z_head y :
  exists c s, Digits.of_Z y = String c s
              /\ (c = "-"%char \/ is_digit c = true).
Proof.
  unfold Digits.of_Z. destruct (Z.ltb_spec y 0) as [H|H].
  - eexists _, _. split; [reflexivity | now left].
  - destruct (of_Z_nonneg_head (Z.to_nat y) y) as (c & s & -> & Hc);
      [split; [assumption | now apply pow10_gt]|].
    eexists _, _. split; [reflexivity | now right].
Qed.

Lemma of_Z_inj y y' : Digits.of_Z y = Digits.of_Z y' -> y = y'.
Proof.
  unfold Digits.of_Z.
  destruct (Z.ltb_spec y 0) as [H|H], (Z.ltb_spec y' 0) as [H'|H']; intros E.
  - injection E as E. apply of_Z_nonneg_inj in E; lia.
  - destruct (of_Z_nonneg_head (Z.to_nat y') y') as (c & s & Hs & Hc);
      [split; [assumption | now apply pow10_gt]|].
    rewrite Hs in E. injection E as <- _. discriminate.
  - destruct (of_Z_nonneg_head (Z.to_nat y) y) as (c & s & Hs & Hc);
      [split; [assumption | now apply pow10_gt]|].
    rewrite Hs in E. injection E as -> _. discriminate.
  - now apply of_Z_nonneg_inj.
Qed.

Lemma month_cases m :
  1 <= m <= 12 ->
  m = 1 \/ m = 2 \/ m = 3 \/ m = 4 \/ m = 5 \/ m = 6 \/ m = 7 \/ m = 8
  \/ m = 9 \/ m = 10 \/ m = 11 \/ m = 12.
Proof. lia. Qed.

Lemma month_text_length m : 1 <= m <= 12 -> String.length (month_text m) = 2%nat.
Proof.
  intros H. apply month_cases in H.
  repeat (destruct H as [-> | H]; [reflexivity|]). subst. reflexivity.
Qed.

Lemma month_text_read m :
  1 <= m <= 12 -> fst (fst (JSParse.take_digits (month_text m) 0 0)) = m.
Proof.
  intros H. apply month_cases in H.
  repeat (destruct H as [-> | H]; [reflexivity|]). subst. reflexivity.
Qed.

Lemma month_text_inj m m' :
  1 <= m <= 12 -> 1 <= m' <= 12 -> month_text m = month_text m' -> m = m'.
Proof.
  intros H H' E. rewrite <- (month_text_read m H), <- (month_text_read m' H').
  now rewrite E.
Qed.

Lemma MonthFromTime_range t : 0 <= JSDate.MonthFromTime t <= 11.
Proof.
  unfold JSDate.MonthFromTime.
  repeat match goal with
         | |- context [if ?c then _ else _] => destruct c
         end; lia.
Qed.

Lemma record_key_calendar LocalTZA r : calendar (record_key LocalTZA r).
Proof.
  unfold record_key, calendar, JSDate.getFullYear, JSDate.getMonth.
  destruct (JSDate.new_Date LocalTZA (date r)) as [t|]; cbn [option_map].
  - right. eexists _, _. split; [reflexivity|].
    pose proof (MonthFromTime_range (JSDate.LocalTime LocalTZA t)). lia.
  - now left.
Qed.

Lemma bucket_key_inj ym ym' :
  calendar ym -> calendar ym' ->
  bucket_key (fst ym) (snd ym) = bucket_key (fst ym') (snd ym') -> ym = ym'.
Proof.
  unfold bucket_key.
  intros [->|(y & m & -> & Hm)] [->|(y' & m' & -> & Hm')];
    cbn [fst snd int_text]; intros E.
  - reflexivity.
  - exfalso. destruct (of_Z_head y') as (c & s & Hs & Hc).
    rewrite Hs in E. cbn in E. injection E as <- _.
    destruct Hc; discriminate.
  - exfalso. destruct (of_Z_head y) as (c & s & Hs & Hc).
    rewrite Hs in E. cbn in E. injection E as -> _.
    destruct Hc; discriminate.
  - fold (month_text m) in E. fold (month_text m') in E.
    apply StringFacts.append_inj_r in E.
    + destruct E as [Ey Em]. injection Em as Em.
      apply of_Z_inj in Ey. apply month_text_inj in Em; try assumption.
      now subst.
    + cbn [String.append String.length].
      now rewrite !month_text_length.
Qed.

End KeyFacts.

Module FoldFacts.

Section FoldPermutation.

Context {A : Type} (P : A -> Prop) (op : A -> A -> A).

Hypothesis closed : forall a b, P a -> P b -> P (op a b).
Hypothesis comm : forall a b, P a -> P b -> op a b = op b a.
Hypothesis assoc : forall a b c, P a -> P b -> P c -> op (op a b) c = op a (op b c).

Lemma fold_left_Permutation l l' :
  Permutation l l' -> Forall P l ->
  forall a, P a -> fold_left op l a = fold_left op l' a.
Proof.
  induction 1 as [| x l l' Hp IH | x y l | l l' l'' Hp1 IH1 Hp2 IH2];
    intros Hl a Ha; cbn [fold_left].
  - reflexivity.
  - inversion Hl; subst. apply IH; auto.
  - inversion Hl as [|? ? Hy Hl']; subst. inversion Hl' as [|? ? Hx Hl'']; subst.
    f_equal. rewrite !assoc by assumption. f_equal. now apply comm.
  - rewrite IH1 by assumption. apply IH2; [|assumption].
    eapply Permutation_Forall; eassumption.
Qed.

(** The fold of a non-empty list from its head does not depend on the
    order of the list. *)
Lemma fold_left_head_Permutation x l y l' :
  Permutation (x :: l) (y :: l') -> Forall P (x :: l) ->
  fold_left op l x = fold_left op l' y.
Proof.
  intros Hp Hl. inversion Hl as [|? ? Hx Hl']; subst.
  assert (In y (x :: l)) as [->|Hin]
      by (eapply Permutation_in; [symmetry; exact Hp | now left]).
  - apply fold_left_Permutation; auto. now apply Permutation_cons_inv in Hp.
  - apply in_split in Hin. destruct Hin as (l1 & l2 & ->).
    assert (Permutation (l1 ++ y :: l2) (y :: l1 ++ l2)) as Hmid
        by (symmetry; apply Permutation_middle).
    assert (Permutation (x :: l1 ++ l2) l') as Hrest.
    { apply Permutation_cons_inv with (a := y).
      etransitivity; [|exact Hp].
      etransitivity; [apply perm_swap|]. now apply perm_skip. }
    assert (Forall P (y :: l1 ++ l2)) as Hl''
        by (eapply Permutation_Forall; eassumption).
    inversion Hl'' as [|? ? Hy Hl12]; subst.
    rewrite (fold_left_Permutation _ _ Hmid Hl' x Hx).
    rewrite <- (fold_left_Permutation _ _ Hrest (Forall_cons _ Hx Hl12) y Hy).
    cbn [fold_left]. f_equal. now apply comm.
Qed.

End FoldPermutation.

End FoldFacts.

Module StableFacts.

Import JSNumber FloatKey FloatOrder Processor ProcessorRuns MapFacts BucketFacts
       FinalFacts SortFacts KeyFacts FoldFacts.

Lemma report_line_render st :
  report_line st
  = render_row (stable_columns st, toFixed st.(salesAverage) 2,
                toFixed st.(standardDeviation) 2).
Proof.
  unfold report_line, render_row, stable_columns. cbn [fst snd].
  now rewrite !StringFacts.append_assoc.
Qed.

Lemma statsToCSV_render m :
  statsToCSV m = report_header :: map render_row (report_rows m).
Proof.
  unfold statsToCSV, report_rows. rewrite map_map. f_equal.
  apply map_ext. intros e. apply report_line_render.
Qed.

Lemma insert_entry_map {V W} (f : V -> W) (e : string * V) l :
  insert_entry (fst e, f (snd e)) (map (fun e => (fst e, f (snd e))) l)
  = map (fun e => (fst e, f (snd e))) (insert_entry e l).
Proof.
  induction l as [|e' r IH]; cbn [insert_entry map fst]; [reflexivity|].
  destruct (localeCompare (fst e) (fst e')); cbn [map]; now rewrite ?IH.
Qed.

Lemma sort_entries_map {V W} (f : V -> W) (l : list (string * V)) :
  sort_entries (map (fun e => (fst e, f (snd e))) l)
  = map (fun e => (fst e, f (snd e))) (sort_entries l).
Proof.
  induction l as [|e r IH]; [reflexivity|].
  cbn [sort_entries fold_right map]. unfold sort_entries in IH.
  now rewrite IH, insert_entry_map.
Qed.

(** The maximum and minimum of a bucket do not depend on the order of its
    totals, when all are numbers. *)
Lemma bucket_extrema_Permutation ts ts' :
  Permutation ts ts' -> Forall is_number ts -> ts <> [] ->
  fold_left Math_max ts (hd zero ts) = fold_left Math_max ts' (hd zero ts')
  /\ fold_left Math_min ts (hd zero ts) = fold_left Math_min ts' (hd zero ts').
Proof.
  intros Hp Hts Hne.
  destruct ts as [|t r]; [congruence|].
  destruct ts' as [|t' r']; [apply Permutation_sym, Permutation_nil in Hp; congruence|].
  assert (Forall is_number (t' :: r')) as Hts'
      by (eapply Permutation_Forall; eassumption).
  inversion Hts; subst. inversion Hts'; subst.
  cbn [hd fold_left]. rewrite !Math_max_idem, !Math_min_idem by assumption.
  split.
  - apply (fold_left_head_Permutation is_number Math_max); auto.
    + exact Math_max_number.
    + exact Math_max_comm.
    + exact Math_max_assoc.
  - apply (fold_left_head_Permutation is_number Math_min); auto.
    + exact Math_min_number.
    + exact Math_min_comm.
    + exact Math_min_assoc.
Qed.

Lemma stable_columns_finalized st :
  stable_columns (finalized st) = stable_columns st.
Proof. reflexivity. Qed.

Section TimeZone.
Variable LocalTZA : Z.

Lemma bucket_records_key k rs r :
  In r (bucket_records LocalTZA k rs) -> key_of LocalTZA r = k.
Proof.
  unfold bucket_records. rewrite filter_In. intros [_ H].
  now apply String.eqb_eq.
Qed.

(** The stable columns of the bucket of key [k] do not depend on the order
    of the records. *)
Lemma stable_bucket_Permutation k rs rs' :
  Permutation rs rs' -> Forall (fun r => is_number r.(total)) rs ->
  option_map stable_columns (JSMap.get (fold_records LocalTZA [] rs) k)
  = option_map stable_columns (JSMap.get (fold_records LocalTZA [] rs') k).
Proof.
  intros Hp Hnum. rewrite !get_fold_records_empty.
  pose proof (Permutation_filter (fun r => String.eqb (key_of LocalTZA r) k)
                _ _ Hp) as Hb.
  fold (bucket_records LocalTZA k rs) in Hb.
  fold (bucket_records LocalTZA k rs') in Hb.
  assert (Forall (fun r => is_number r.(total)) (bucket_records LocalTZA k rs))
    as Hbn.
  { rewrite Forall_forall in *. intros r Hr. apply Hnum.
    unfold bucket_records in Hr. now apply filter_In in Hr. }
  destruct (bucket_records LocalTZA k rs) as [|r rest] eqn:Er,
           (bucket_records LocalTZA k rs') as [|r' rest'] eqn:Er'.
  - reflexivity.
  - apply Permutation_nil in Hb. discriminate.
  - apply Permutation_sym, Permutation_nil in Hb. discriminate.
  - cbn [option_map]. f_equal.
    assert (record_key LocalTZA r = record_key LocalTZA r') as Hkey.
    { apply bucket_key_inj; try apply record_key_calendar.
      fold (key_of LocalTZA r). fold (key_of LocalTZA r').
      rewrite (bucket_records_key k rs r), (bucket_records_key k rs' r');
        [reflexivity | rewrite Er'; now left | rewrite Er; now left]. }
    pose proof (Permutation_map total Hb) as Hts.
    destruct (bucket_extrema_Permutation _ _ Hts) as [Hmax Hmin].
    { rewrite Forall_map. exact Hbn. }
    { discriminate. }
    unfold stable_columns, bucket_stats.
    cbn [year month numberOfOrders maxAmount minAmount].
    rewrite Hkey, Hmax, Hmin, (Permutation_length Hts). reflexivity.
Qed.

Lemma keys_fold_records_Permutation rs rs' :
  Permutation rs rs' ->
  Permutation (JSMap.keys (fold_records LocalTZA [] rs))
              (JSMap.keys (fold_records LocalTZA [] rs')).
Proof.
  intros Hp.
  destruct (keys_fold_records LocalTZA rs []) as [Hnd Hin];
    [constructor | constructor |].
  destruct (keys_fold_records LocalTZA rs' []) as [Hnd' Hin'];
    [constructor | constructor |].
  apply NoDup_Permutation; try assumption.
  intros k. rewrite Hin, Hin'. cbn [JSMap.keys map In].
  split; intros [[]|H]; right;
    (eapply Permutation_in; [|exact H]); apply Permutation_map;
    [exact Hp | symmetry; exact Hp].
Qed.

(** The stable columns of the sorted buckets, from the sorted keys. *)
Lemma stable_sorted rs :
  map (fun e => Some (stable_columns (snd e)))
      (sort_entries (fold_records LocalTZA [] rs))
  = map (fun k => option_map stable_columns
                    (JSMap.get (fold_records LocalTZA [] rs) k))
        (sort_keys (JSMap.keys (fold_records LocalTZA [] rs))).
Proof.
  destruct (keys_fold_records LocalTZA rs []) as [Hnd _];
    [constructor | constructor |].
  pose proof (sort_entries_lookup _ Hnd) as H.
  apply (f_equal (map (fun p : string * option SalesStats =>
                         option_map stable_columns (snd p)))) in H.
  rewrite !map_map in H. exact H.
Qed.

Lemma stable_report_Permutation rs rs' :
  Permutation rs rs' -> Forall (fun r => is_number r.(total)) rs ->
  map (fun e => stable_columns (snd e))
      (sort_entries (fold_records LocalTZA [] rs))
  = map (fun e => stable_columns (snd e))
        (sort_entries (fold_records LocalTZA [] rs')).
Proof.
  intros Hp Hnum.
  assert (forall l : list (string * SalesStats),
             map (fun e => stable_columns (snd e)) l
             = map (fun o => match o with Some s => s | None => "" end)
                 (map (fun e => Some (stable_columns (snd e))) l)) as Hsome.
  { intros l. rewrite map_map. reflexivity. }
  rewrite !Hsome, !stable_sorted.
  rewrite (sort_keys_Permutation _ _ (keys_fold_records_Permutation _ _ Hp)).
  f_equal. apply map_ext. intros k. now apply stable_bucket_Permutation.
Qed.

End TimeZone.

Lemma run_on_new LocalTZA rows :
  run_on LocalTZA rows
  = let m := map (fun e => (fst e, finalized (snd e)))
               (fold_records LocalTZA [] (map parse_record rows)) in
    {| result := Resolved;
       processor := with_stats sales m;
       files := FS.writeFileSync store "sales_report.csv" (statsToCSV m);
       reported := [] |}.
Proof.
  unfold run_on, sales.
  now rewrite (process_new LocalTZA _ "sales.csv" "sales_report.csv" store []
                 eq_refl).
Qed.

Lemma report_of_render LocalTZA rows :
  report_of LocalTZA rows
  = Some (report_header
          :: map render_row (report_rows (final_stats LocalTZA rows))).
Proof.
  unfold report_of, final_stats. rewrite run_on_new.
  cbn [files processor monthlyStats with_stats]. unfold FS.writeFileSync.
  rewrite String.eqb_refl. now rewrite statsToCSV_render.
Qed.

Lemma stable_final_stats LocalTZA rows :
  map stable_of (report_rows (final_stats LocalTZA rows))
  = map (fun e => stable_columns (snd e))
      (sort_entries (fold_records LocalTZA [] (map parse_record rows))).
Proof.
  unfold final_stats. rewrite run_on_new.
  cbn [processor monthlyStats with_stats]. unfold report_rows.
  rewrite sort_entries_map, !map_map. apply map_ext. intros e. reflexivity.
Qed.

End StableFacts.

(** * Facts about the calendar and the ISO text of a date *)

Module RangeFacts.
Import RangeDefs.

Lemma forall_range_spec f len : forall lo,
  forall_range f lo len = true ->
  forall z, lo <= z < lo + Zpos len -> f z = true.
Proof.
  induction len as [p IH|p IH|]; intros lo H z Hz; cbn [forall_range] in H.
  - apply andb_prop in H. destruct H as [H H2].
    apply andb_prop in H. destruct H as [H0 H1].
    destruct (Z.eq_dec z lo) as [->|Hne]; [exact H0|].
    destruct (Z_lt_le_dec z (lo + 1 + Zpos p)) as [Hlt|Hge].
    + apply (IH (lo + 1) H1). lia.
    + apply (IH (lo + 1 + Zpos p) H2). lia.
  - apply andb_prop in H. destruct H as [H1 H2].
    destruct (Z_lt_le_dec z (lo + Zpos p)) as [Hlt|Hge].
    + apply (IH lo H1). lia.
    + apply (IH (lo + Zpos p) H2). lia.
  - assert (z = lo) as -> by lia. exact H.
Qed.

Lemma Zseq_length lo n : List.length (Zseq lo n) = n.
Proof.
  revert lo. induction n as [|n IH]; intros lo; cbn; [reflexivity | now rewrite IH].
Qed.


End RangeFacts.

Module CalendarFacts.
Import JSDate RangeDefs CalendarDefs RangeFacts.

Lemma first_last_day :
  first_day = DayFromYear 2020 /\ last_day = DayFromYear 2026 - 1.
Proof. split; reflexivity. Qed.

(** Every month of 2020 to 2025, by evaluation. *)
Lemma years_ok :
  forall_range (fun y => forall_range (month_ok y) 1 12) 2020 6 = true.
Proof. vm_cast_no_check (eq_refl true). Qed.

(** Every day from 31 December 2019 to 1 January 2026, by evaluation. *)
Lemma days_ok : forall_range day_ok 18261 2194 = true.
Proof. vm_cast_no_check (eq_refl true). Qed.

Lemma Day_mul d : Day (d * msPerDay) = d.
Proof. unfold Day, msPerDay. now rewrite Z.div_mul. Qed.

Lemma YearFromTime_Day t : YearFromTime t = YearFromDay (Day t).
Proof. reflexivity. Qed.

Lemma MonthFromTime_Day t : MonthFromTime t = MonthFromDay (Day t).
Proof.
  unfold MonthFromDay, MonthFromTime, DayWithinYear, InLeapYear, YearFromTime.
  now rewrite !Day_mul.
Qed.

Lemma DateFromTime_Day t : DateFromTime t = DateFromDay (Day t).
Proof.
  unfold DateFromDay, DateFromTime. rewrite !(MonthFromTime_Day (_ * _)).
  rewrite (MonthFromTime_Day t).
  unfold DayWithinYear, InLeapYear, YearFromTime.
  now rewrite !Day_mul.
Qed.

Lemma Day_MakeDate dn time :
  0 <= time < msPerDay -> Day (MakeDate dn time) = dn.
Proof.
  intros H. unfold Day, MakeDate. rewrite Z.add_comm, Z.div_add by (unfold msPerDay; lia).
  rewrite Z.div_small by assumption. reflexivity.
Qed.

Lemma month_ok_spec year month :
  2020 <= year <= 2025 -> 1 <= month <= 12 -> month_ok year month = true.
Proof.
  intros Hy Hm.
  assert (2020 <= year < 2020 + 6) as Hy' by lia.
  assert (1 <= month < 1 + 12) as Hm' by lia.
  pose proof (forall_range_spec
                (fun y => forall_range (month_ok y) 1 12) 6 2020 years_ok
                year Hy') as H1.
  exact (forall_range_spec (month_ok year) 12 1 H1 month Hm').
Qed.

Lemma month_ok_unfold year month :
  month_ok year month
  = (28 <=? days_in_month year month) && (days_in_month year month <=? 31)
    && (first_day <=? MakeDay year month 0)
    && (MakeDay year month 0 <=? last_day)
    && forall_range
         (fun d =>
            (days_in_month year month <? d)
            || (YearFromDay (MakeDay year (month - 1) d) =? year)
               && (first_day <=? MakeDay year (month - 1) d)
               && (MakeDay year (month - 1) d <=? last_day))
         1 31.
Proof. reflexivity. Qed.

Lemma days_in_month_range year month :
  2020 <= year <= 2025 -> 1 <= month <= 12 ->
  28 <= days_in_month year month <= 31
  /\ first_day <= MakeDay year month 0 <= last_day.
Proof.
  intros Hy Hm. pose proof (month_ok_spec year month Hy Hm) as H.
  rewrite month_ok_unfold in H.
  apply andb_prop in H. destruct H as [H _].
  apply andb_prop in H. destruct H as [H H4].
  apply andb_prop in H. destruct H as [H H3].
  apply andb_prop in H. destruct H as [H1 H2].
  apply Z.leb_le in H1, H2, H3, H4. repeat split; assumption.
Qed.

Lemma day_of_month year month date :
  2020 <= year <= 2025 -> 1 <= month <= 12 ->
  1 <= date <= days_in_month year month ->
  YearFromDay (MakeDay year (month - 1) date) = year
  /\ first_day <= MakeDay year (month - 1) date <= last_day.
Proof.
  intros Hy Hm Hd. pose proof (month_ok_spec year month Hy Hm) as H.
  rewrite month_ok_unfold in H.
  apply andb_prop in H. destruct H as [_ H].
  pose proof (proj1 (days_in_month_range year month Hy Hm)) as Hn.
  assert (1 <= date < 1 + 31) as Hd' by lia.
  pose proof (forall_range_spec _ 31 1 H date Hd') as Hc.
  cbv beta in Hc. apply orb_prop in Hc. destruct Hc as [Hc|Hc].
  - apply Z.ltb_lt in Hc. lia.
  - apply andb_prop in Hc. destruct Hc as [Hc H3].
    apply andb_prop in Hc. destruct Hc as [H1 H2].
    apply Z.eqb_eq in H1. apply Z.leb_le in H2, H3. repeat split; assumption.
Qed.

Lemma day_ok_spec d : first_day - 1 <= d <= last_day + 1 -> day_ok d = true.
Proof.
  unfold first_day, last_day. intros Hd.
  assert (18261 <= d < 18261 + 2194) as Hd' by lia.
  exact (forall_range_spec day_ok 2194 18261 days_ok d Hd').
Qed.

End CalendarFacts.

Module IsoFacts.
Import Digits DigitsFacts JSDate RangeDefs CalendarDefs RangeFacts CalendarFacts.

Lemma time_fields t :
  MakeTime (HourFromTime t) (MinFromTime t) (SecFromTime t) (msFromTime t)
  = TimeWithinDay t.
Proof.
  unfold MakeTime, HourFromTime, MinFromTime, SecFromTime, msFromTime,
    TimeWithinDay, msPerHour, msPerMinute, msPerSecond, msPerDay.
  Z.to_euclidean_division_equations. lia.
Qed.

Lemma time_fields_range t :
  0 <= HourFromTime t <= 23 /\ 0 <= MinFromTime t <= 59
  /\ 0 <= SecFromTime t <= 59 /\ 0 <= msFromTime t <= 999.
Proof.
  unfold HourFromTime, MinFromTime, SecFromTime, msFromTime, msPerSecond.
  pose proof (Z.mod_pos_bound (t / msPerHour) 24 ltac:(lia)).
  pose proof (Z.mod_pos_bound (t / msPerMinute) 60 ltac:(lia)).
  pose proof (Z.mod_pos_bound (t / 1000) 60 ltac:(lia)).
  pose proof (Z.mod_pos_bound t 1000 ltac:(lia)).
  lia.
Qed.

Lemma digit_of_div n k : 0 < k -> 0 <= n < k * 10 -> 0 <= n / k <= 9.
Proof.
  intros Hk Hn. split; [apply Z.div_pos; lia|].
  assert (n / k < 10) by (apply Z.div_lt_upper_bound; lia). lia.
Qed.

Lemma digit1_char d r :
  0 <= d <= 9 -> digit1 (String (digit_char d) r) = Some (d, r).
Proof.
  intros Hd. cbn [digit1].
  now rewrite is_digit_digit_char, digit_val_digit_char.
Qed.

Lemma digit2_pad2 n r : 0 <= n <= 99 -> digit2 (pad2 n ++ r) = Some (n, r).
Proof.
  intros Hn. unfold digit2, pad2. cbn [String.append].
  rewrite digit1_char by (apply digit_of_div; lia).
  cbn [more_digit].
  rewrite digit1_char by (pose proof (Z.mod_pos_bound n 10); lia).
  f_equal. f_equal. pose proof (Z.div_mod n 10). lia.
Qed.

Lemma digit3_pad3 n r : 0 <= n <= 999 -> digit3 (pad3 n ++ r) = Some (n, r).
Proof.
  intros Hn. unfold digit3, pad3.
  change (String (digit_char (n / 100)) (pad2 (n mod 100)) ++ r)%string
    with (String (digit_char (n / 100)) (pad2 (n mod 100) ++ r)).
  unfold digit2, pad2. cbn [String.append].
  pose proof (Z.mod_pos_bound n 100 ltac:(lia)).
  pose proof (Z.div_mod n 100 ltac:(lia)).
  pose proof (Z.mod_pos_bound (n mod 100) 10 ltac:(lia)).
  pose proof (Z.div_mod (n mod 100) 10 ltac:(lia)).
  assert (0 <= n / 100 <= 9)
    by (apply digit_of_div; lia).
  assert (0 <= n mod 100 / 10 <= 9)
    by (apply digit_of_div; lia).
  rewrite digit1_char by assumption. cbn [more_digit].
  rewrite digit1_char by assumption. cbn [more_digit].
  rewrite digit1_char by lia.
  f_equal. f_equal. lia.
Qed.

Lemma digit_cases d :
  0 <= d <= 9 ->
  d = 0 \/ d = 1 \/ d = 2 \/ d = 3 \/ d = 4 \/ d = 5 \/ d = 6 \/ d = 7
  \/ d = 8 \/ d = 9.
Proof. lia. Qed.

Lemma parse_year_digit d s :
  0 <= d <= 9 ->
  parse_year (String (digit_char d) s) = digit4 (String (digit_char d) s).
Proof.
  intros Hd. apply digit_cases in Hd.
  repeat (destruct Hd as [-> | Hd]; [reflexivity|]). subst. reflexivity.
Qed.

Lemma parse_year_pad4 y r :
  0 <= y <= 9999 -> parse_year (iso_year y ++ r) = Some (y, r).
Proof.
  intros Hy. unfold iso_year.
  replace ((0 <=? y) && (y <=? 9999)) with true by lia.
  unfold pad4.
  change (String (digit_char (y / 1000)) (pad3 (y mod 1000)) ++ r)%string
    with (String (digit_char (y / 1000)) (pad3 (y mod 1000) ++ r)).
  pose proof (Z.mod_pos_bound y 1000 ltac:(lia)).
  pose proof (Z.div_mod y 1000 ltac:(lia)).
  assert (0 <= y / 1000 <= 9)
    by (apply digit_of_div; lia).
  rewrite parse_year_digit by assumption.
  unfold digit4, digit3, digit2. rewrite digit1_char by assumption.
  unfold pad3.
  change (String (digit_char (y mod 1000 / 100)) (pad2 (y mod 1000 mod 100)) ++ r)%string
    with (String (digit_char (y mod 1000 / 100)) (pad2 (y mod 1000 mod 100) ++ r)).
  pose proof (Z.mod_pos_bound (y mod 1000) 100 ltac:(lia)).
  pose proof (Z.div_mod (y mod 1000) 100 ltac:(lia)).
  assert (0 <= y mod 1000 / 100 <= 9)
    by (apply digit_of_div; lia).
  cbn [more_digit]. rewrite digit1_char by assumption.
  unfold pad2. cbn [String.append].
  pose proof (Z.mod_pos_bound (y mod 1000 mod 100) 10 ltac:(lia)).
  pose proof (Z.div_mod (y mod 1000 mod 100) 10 ltac:(lia)).
  assert (0 <= y mod 1000 mod 100 / 10 <= 9)
    by (apply digit_of_div; lia).
  cbn [more_digit]. rewrite digit1_char by assumption.
  cbn [more_digit]. rewrite digit1_char by lia.
  f_equal. f_equal. lia.
Qed.

Lemma parse_date_iso y mo d r :
  0 <= y <= 9999 -> 0 <= mo <= 99 -> 0 <= d <= 99 ->
  parse_date (iso_year y ++ "-" ++ pad2 mo ++ "-" ++ pad2 d ++ r)
  = Some (y, mo, d, r).
Proof.
  intros Hy Hmo Hd. unfold parse_date. rewrite parse_year_pad4 by assumption.
  change ("-" ++ pad2 mo ++ "-" ++ pad2 d ++ r)%string
    with (String "-" (pad2 mo ++ "-" ++ pad2 d ++ r)).
  cbv iota beta. rewrite digit2_pad2 by assumption.
  change ("-" ++ pad2 d ++ r)%string with (String "-" (pad2 d ++ r)).
  cbv iota beta. rewrite digit2_pad2 by assumption. reflexivity.
Qed.

Lemma parse_time_iso h mi s ms r :
  0 <= h <= 99 -> 0 <= mi <= 99 -> 0 <= s <= 99 -> 0 <= ms <= 999 ->
  parse_time (pad2 h ++ ":" ++ pad2 mi ++ ":" ++ pad2 s ++ "." ++ pad3 ms ++ r)
  = Some (h, mi, s, ms, r).
Proof.
  intros Hh Hmi Hs Hms. unfold parse_time. rewrite digit2_pad2 by assumption.
  change (":" ++ pad2 mi ++ ":" ++ pad2 s ++ "." ++ pad3 ms ++ r)%string
    with (String ":" (pad2 mi ++ ":" ++ pad2 s ++ "." ++ pad3 ms ++ r)).
  cbv iota beta. rewrite digit2_pad2 by assumption.
  change (":" ++ pad2 s ++ "." ++ pad3 ms ++ r)%string
    with (String ":" (pad2 s ++ "." ++ pad3 ms ++ r)).
  cbv iota beta. rewrite digit2_pad2 by assumption.
  change ("." ++ pad3 ms ++ r)%string with (String "." (pad3 ms ++ r)).
  cbv iota beta. rewrite digit3_pad3 by assumption. reflexivity.
Qed.

(** Reading back what [toISOString] writes, for a day with a year of four
    digits. *)
Lemma parse_toISOString LocalTZA t :
  day_ok (Day t) = true -> Z.abs t <= 8640000000000000 ->
  parse LocalTZA (toISOString t) = Some t.
Proof.
  intros Hok Hclip. unfold day_ok in Hok. cbv zeta in Hok.
  rewrite <- YearFromTime_Day, <- MonthFromTime_Day, <- DateFromTime_Day in Hok.
  repeat (apply andb_prop in Hok; destruct Hok as [Hok ?]).
  pose proof (KeyFacts.MonthFromTime_range t) as Hmo.
  pose proof (time_fields_range t) as (Hh & Hmi & Hs & Hms).
  unfold parse, toISOString.
  rewrite parse_date_iso by lia.
  change ("T" ++ ?x)%string with (String "T" x).
  cbv iota beta.
  change ("T" ++ pad2 (HourFromTime t) ++ ":" ++ pad2 (MinFromTime t) ++ ":"
          ++ pad2 (SecFromTime t) ++ "." ++ pad3 (msFromTime t) ++ "Z")%string
    with (String "T" (pad2 (HourFromTime t) ++ ":" ++ pad2 (MinFromTime t)
                      ++ ":" ++ pad2 (SecFromTime t) ++ "."
                      ++ pad3 (msFromTime t) ++ "Z")).
  cbv iota beta. rewrite parse_time_iso by lia.
  cbn [parse_offset].
  replace (valid_date (MonthFromTime t + 1) (DateFromTime t)) with true
    by (unfold valid_date; lia).
  replace (valid_time (HourFromTime t) (MinFromTime t) (SecFromTime t)
             (msFromTime t)) with true
    by (unfold valid_time; lia).
  cbn [andb]. replace (MonthFromTime t + 1 - 1) with (MonthFromTime t) by lia.
  apply Z.eqb_eq in H1. rewrite H1, time_fields.
  unfold MakeDate, TimeClip, Day, TimeWithinDay, msPerMinute.
  replace (t / msPerDay * msPerDay + t mod msPerDay - 0 * 60000) with t
    by (pose proof (Z.div_mod t msPerDay ltac:(unfold msPerDay; lia)); lia).
  now replace (Z.abs t <=? 8640000000000000) with true by lia.
Qed.

End IsoFacts.

(** * Facts about the generated totals and their text *)

Module RandomFacts.
Import Digits DigitsFacts JSNumber JSParse RangeDefs RangeFacts TotalDefs Generator.

Lemma totals_ok : forall_range total_ok 50000 130001 = true.
Proof. vm_cast_no_check (eq_refl true). Qed.

Lemma total_ok_spec n : 50000 <= n <= 180000 -> total_ok n = true.
Proof.
  intros Hn. assert (50000 <= n < 50000 + 130001) as Hn' by lia.
  exact (forall_range_spec total_ok 130001 50000 totals_ok n Hn').
Qed.

(** [Math.floor] of a draw scaled by [k] is one of [0, ..., k - 1]. *)
Lemma Qfloor_scale (u : Q) (k : Z) :
  (0 <= u)%Q -> (u < 1)%Q -> 0 < k -> 0 <= Qfloor (u * inject_Z k) < k.
Proof.
  destruct u as [a b]. unfold Qle, Qlt, Qmult, Qfloor, inject_Z.
  cbn [Qnum Qden]. rewrite Pos.mul_1_r, !Z.mul_1_r. intros Ha Hb Hk.
  split; [apply Z.div_pos; nia|].
  apply Z.div_lt_upper_bound; nia.
Qed.

(** Rounding to hundredths a draw scaled to [500, 1800). *)
Lemma hundredths_range (u : Q) :
  (0 <= u)%Q -> (u < 1)%Q ->
  50000
  <= Qfloor ((u * inject_Z (1800 - 500) + inject_Z 500) * inject_Z (10 ^ Z.of_nat 2)
             + (1 # 2))
  <= 180000.
Proof.
  destruct u as [a b]. unfold Qle, Qlt, Qmult, Qplus, Qfloor, inject_Z.
  cbn [Qnum Qden]. rewrite !Pos.mul_1_r, !Z.mul_1_r. intros Ha Hb.
  change (10 ^ Z.of_nat 2) with 100. change (1800 - 500) with 1300.
  rewrite Pos2Z.inj_mul. change (Z.pos 2) with 2.
  split.
  - apply Z.div_le_lower_bound; nia.
  - assert ((((a * 1300 + 500 * Z.pos b) * 100) * 2 + 1 * Z.pos b)
            / (Z.pos b * 2) < 180001) by (apply Z.div_lt_upper_bound; nia).
    lia.
Qed.

Lemma is_digit_cases c :
  is_digit c = true ->
  c = "0"%char \/ c = "1"%char \/ c = "2"%char \/ c = "3"%char
  \/ c = "4"%char \/ c = "5"%char \/ c = "6"%char \/ c = "7"%char
  \/ c = "8"%char \/ c = "9"%char.
Proof.
  destruct c as [[] [] [] [] [] [] [] []]; cbn; intros H;
    try discriminate H; tauto.
Qed.

Lemma parse_sign_digit c s :
  is_digit c = true -> parse_sign (String c s) = (false, String c s).
Proof.
  intros H. apply is_digit_cases in H.
  repeat (destruct H as [-> | H]; [reflexivity|]). subst. reflexivity.
Qed.

Lemma trim_start_digit c s :
  is_digit c = true -> trim_start (String c s) = String c s.
Proof.
  intros H. apply is_digit_cases in H.
  repeat (destruct H as [-> | H]; [reflexivity|]). subst. reflexivity.
Qed.

Lemma prefix_Infinity_digit c s :
  is_digit c = true -> prefix "Infinity" (String c s) = false.
Proof.
  intros H. apply is_digit_cases in H.
  repeat (destruct H as [-> | H]; [reflexivity|]). subst. reflexivity.
Qed.

(** The two-decimal text of [n] hundredths: the digits of [n / 100], the
    point, and two digits. *)
Lemma fixed_digits_two n :
  100 <= n ->
  fixed_digits n 2
  = (of_Z_nonneg (n / 100) ++ "."
     ++ String (digit_char (n / 10 mod 10)) (String (digit_char (n mod 10)) ""))%string.
Proof.
  intros Hn. unfold fixed_digits.
  assert (10 <= n / 10) as Hq by (apply Z.div_le_lower_bound; lia).
  rewrite (of_Z_nonneg_step n) by lia.
  rewrite (of_Z_nonneg_step (n / 10)) by assumption.
  rewrite Z.div_div by lia. change (10 * 10) with 100.
  rewrite StringFacts.append_assoc.
  change (String (digit_char (n / 10 mod 10)) "" ++ String (digit_char (n mod 10)) "")%string
    with (String (digit_char (n / 10 mod 10)) (String (digit_char (n mod 10)) "")).
  set (q := of_Z_nonneg (n / 100)).
  set (d := String (digit_char (n / 10 mod 10)) (String (digit_char (n mod 10)) "")).
  cbv zeta. rewrite !StringFacts.length_append.
  change (String.length d) with 2%nat.
  replace (String.length q + 2 <=? 2)%nat with false.
  2:{ symmetry. apply Nat.leb_gt.
      destruct (KeyFacts.of_Z_nonneg_head (Z.to_nat (n / 100)) (n / 100))
        as (c & s & Hs & _).
      { split; [apply Z.div_pos; lia | apply KeyFacts.pow10_gt, Z.div_pos; lia]. }
      subst q. rewrite Hs. cbn [String.length]. lia. }
  rewrite !StringFacts.length_append. change (String.length d) with 2%nat.
  replace (String.length q + 2 - 2)%nat with (String.length q) by lia.
  rewrite StringFacts.substring_append_l.
  change 2%nat with (String.length d) at 1.
  rewrite StringFacts.substring_append_r. reflexivity.
Qed.

Lemma take_digits_stop c s a k :
  is_digit c = false -> take_digits (String c s) a k = (a, k, String c s).
Proof. intros H. cbn [take_digits]. now rewrite H. Qed.

Lemma parseFloat_fixed_digits n :
  100 <= n -> parseFloat (Some (fixed_digits n 2)) = of_decimal false n (-2).
Proof.
  intros Hn. rewrite fixed_digits_two by assumption.
  assert (0 <= n / 100) as Hq by (apply Z.div_pos; lia).
  destruct (KeyFacts.of_Z_nonneg_head (Z.to_nat (n / 100)) (n / 100)) as (c & s & Hs & Hc);
    [split; [assumption | now apply KeyFacts.pow10_gt]|].
  destruct (take_digits_of_Z_nonneg (Z.to_nat (n / 100)) (n / 100)
              ("." ++ String (digit_char (n / 10 mod 10))
                        (String (digit_char (n mod 10)) "")) 0 0)
    as (k & Hk & _ & _ & _ & Htake);
    [split; [assumption | now apply KeyFacts.pow10_gt]|].
  unfold parseFloat. rewrite Hs at 1.
  change (String c s ++ ?x)%string with (String c (s ++ x)).
  rewrite trim_start_digit, parse_sign_digit, prefix_Infinity_digit by assumption.
  change (String c (s ++ ?x)) with (String c s ++ x)%string.
  rewrite <- Hs, Htake.
  change ("." ++ ?x)%string with (String "." x).
  rewrite take_digits_stop by reflexivity. cbv iota beta.
  pose proof (Z.mod_pos_bound (n / 10) 10 ltac:(lia)).
  pose proof (Z.mod_pos_bound n 10 ltac:(lia)).
  rewrite !take_digits_digit by (apply is_digit_digit_char; lia).
  rewrite !digit_val_digit_char by lia.
  cbn [take_digits parse_exponent]. cbv iota beta.
  replace (0 + k + (0 + 1 + 1) =? 0) with false by lia.
  f_equal.
  pose proof (Z.div_mod n 10 ltac:(lia)).
  pose proof (Z.div_mod (n / 10) 10 ltac:(lia)).
  rewrite Z.div_div in * by lia. change (10 * 10) with 100 in *.
  change (10 ^ (0 + 1 + 1)) with 100. lia.
Qed.

Lemma of_decimal_hundredths_eq n :
  50000 <= n <= 180000 ->
  of_decimal false n (-2) = (of_uint63 (Uint63.of_Z n) / 100)%float.
Proof.
  intros Hn. unfold of_decimal. destruct n as [|p|p]; try lia.
  replace (Z.pos p <? 9007199254740992) with true by lia.
  cbn [andb Z.leb Z.compare Z.opp].
  unfold of_Z. replace (Z.abs (Z.pos p) <? 9223372036854775808) with true by lia.
  cbn [Z.ltb Z.compare Z.abs]. reflexivity.
Qed.

End RandomFacts.

Module TextFacts.
Import Digits DigitsFacts JSNumber TextDefs GeneratorDefs TotalDefs RandomFacts.

Lemma all_digits_append a b :
  all_digits (a ++ b) = all_digits a && all_digits b.
Proof.
  induction a as [|c a IH]; cbn [all_digits String.append]; [reflexivity|].
  now rewrite IH, andb_assoc.
Qed.

Lemma all_digits_of_Z_nonneg (N : nat) : forall n,
  0 <= n < 10 ^ Z.of_nat N -> all_digits (of_Z_nonneg n) = true.
Proof.
  induction N as [|N IH]; intros n Hn.
  - assert (n = 0) as -> by (change (10 ^ Z.of_nat 0) with 1 in Hn; lia).
    reflexivity.
  - destruct (Z_lt_le_dec n 10) as [Hs|Hb].
    + rewrite of_Z_nonneg_small by lia. cbn [all_digits].
      rewrite is_digit_digit_char by lia. reflexivity.
    + rewrite of_Z_nonneg_step, all_digits_append by lia.
      rewrite IH.
      * cbn [all_digits]. rewrite is_digit_digit_char; [reflexivity|].
        pose proof (Z.mod_pos_bound n 10 ltac:(lia)). lia.
      * split; [apply Z.div_pos; lia|].
        apply Z.div_lt_upper_bound; [lia|].
        rewrite Nat2Z.inj_succ, Z.pow_succ_r in Hn by lia. lia.
Qed.

Lemma all_digits_substring s : forall i j,
  all_digits s = true -> all_digits (substring i j s) = true.
Proof.
  induction s as [|c s IH]; intros i j H.
  - now destruct i, j.
  - cbn [all_digits] in H. apply andb_prop in H. destruct H as [Hc Hs].
    destruct i as [|i]; cbn [substring].
    + destruct j as [|j]; [reflexivity|].
      cbn [all_digits]. now rewrite Hc, IH.
    + now apply IH.
Qed.

Lemma all_digits_zeros n : all_digits (repeat_char "0" n) = true.
Proof. induction n as [|n IH]; [reflexivity | exact IH]. Qed.

Lemma digit_not_point c : is_digit c = true -> (c =? ".")%char = false.
Proof.
  intros H. apply is_digit_cases in H.
  repeat (destruct H as [-> | H]; [reflexivity|]). subst. reflexivity.
Qed.

Lemma after_point_digits a b :
  all_digits a = true -> after_point (a ++ b) = after_point b.
Proof.
  induction a as [|c a IH]; intros H; [reflexivity|].
  cbn [all_digits] in H. apply andb_prop in H. destruct H as [Hc Ha].
  cbn [String.append after_point]. rewrite digit_not_point by assumption.
  now apply IH.
Qed.

Lemma after_point_all_digits a : all_digits a = true -> after_point a = None.
Proof.
  intros H. rewrite <- (StringFacts.append_nil_r a).
  now rewrite after_point_digits.
Qed.

Lemma length_substring s : forall i j,
  (String.length (substring i j s) <= j)%nat.
Proof.
  induction s as [|c s IH]; intros i j.
  - destruct i, j; cbn; lia.
  - destruct i as [|i]; cbn [substring].
    + destruct j as [|j]; cbn [String.length]; [lia|].
      specialize (IH 0%nat j). lia.
    + apply IH.
Qed.

(** The text laid out from digits has at most [k - n] characters after the
    point when the point falls inside or after the digits. *)
Lemma fraction_digits_layout n k ds :
  all_digits ds = true -> 0 < n <= 21 ->
  (fraction_digits (layout n k ds) <= Z.to_nat (k - n))%nat.
Proof.
  intros Hds Hn. unfold layout, fraction_digits.
  destruct (Z.leb_spec k n) as [Hkn|Hkn].
  - replace (n <=? 21) with true by lia. cbn [andb].
    rewrite after_point_all_digits; [lia|].
    rewrite all_digits_append, Hds. apply all_digits_zeros.
  - cbn [andb]. replace ((0 <? n) && (n <=? 21)) with true by lia.
    rewrite after_point_digits by now apply all_digits_substring.
    change ("." ++ ?x)%string with (String "." x).
    cbn [after_point Ascii.eqb Bool.eqb]. apply length_substring.
Qed.

Lemma nearest_In num den k cs c :
  nearest num den k cs = Some c -> In c cs.
Proof.
  unfold nearest. destruct cs as [|[n1 s1] [|[n2 s2] r]]; try discriminate.
  - intros [= <-]. now left.
  - repeat match goal with
           | |- context [if ?b then _ else _] => destruct b
           end; intros [= <-]; cbn; tauto.
Qed.

Lemma nearest_None num den k cs : nearest num den k cs = None -> cs = [].
Proof.
  unfold nearest. destruct cs as [|[n1 s1] [|[n2 s2] r]]; try discriminate;
    [reflexivity|].
  repeat match goal with
         | |- context [if ?b then _ else _] => destruct b
         end; discriminate.
Qed.

(** The search stops at the first length with a candidate. *)
Lemma shortest_found x num den n0 K : forall fuel k,
  k <= K -> (Z.to_nat (K - k) < fuel)%nat ->
  candidates x num den n0 K <> [] ->
  exists n' k' s',
    shortest fuel x num den n0 k = Some (n', k', s')
    /\ k <= k' <= K /\ In (n', s') (candidates x num den n0 k').
Proof.
  induction fuel as [|fuel IH]; intros k Hk Hfuel HK; [lia|].
  cbn [shortest].
  destruct (nearest num den k (candidates x num den n0 k)) as [[n' s']|] eqn:E.
  - exists n', k, s'. split; [reflexivity|]. split; [lia|].
    eapply nearest_In; eassumption.
  - apply nearest_None in E.
    assert (k <> K) by (intros ->; contradiction).
    destruct (IH (k + 1)) as (n' & k' & s' & Hs & Hk' & Hin); try lia;
      [assumption|].
    exists n', k', s'. repeat split; try assumption; lia.
Qed.

Lemma candidates_In x num den n0 k n' s' :
  In (n', s') (candidates x num den n0 k) ->
  n0 <= n' <= n0 + 1 /\ 10 ^ (k - 1) <= s'.
Proof.
  unfold candidates. rewrite filter_In. intros [Hin Hf].
  apply andb_prop in Hf. destruct Hf as [Hf _].
  apply andb_prop in Hf. destruct Hf as [Hlo _].
  split; [|lia].
  destruct Hin as [[= <- <-]|[Hin|[]]]; [lia|].
  destruct (scaled_floor num den (n0 - k) + 1 <? 10 ^ k);
    injection Hin as <- <-; lia.
Qed.

End TextFacts.

Module TotalTextFacts.
Import Digits DigitsFacts JSNumber TextDefs GeneratorDefs TotalDefs RandomFacts
       TextFacts FloatKey FloatOrder.

Lemma eqb_refl_finite x m e :
  Prim2SF x = S754_finite false m e -> (x =? x)%float = true.
Proof.
  intros E. rewrite eqb_spec, E. unfold SFeqb, SFcompare.
  now rewrite Z.compare_refl, Pos.compare_cont_refl.
Qed.

Lemma abs_finite x m e : Prim2SF x = S754_finite false m e -> abs x = x.
Proof.
  intros E. apply Prim2SF_inj. now rewrite abs_spec, E.
Qed.

Lemma pow10_digits q k :
  1 <= k -> 10 ^ (k - 1) <= q -> q < 10 ^ k -> 500 <= q <= 1800 ->
  3 <= k <= 4.
Proof.
  intros Hk Hlo Hhi Hq. split.
  - destruct (Z_lt_le_dec k 3) as [H|H]; [|assumption].
    assert (10 ^ k <= 10 ^ 2) by (apply Z.pow_le_mono_r; lia).
    change (10 ^ 2) with 100 in *. lia.
  - destruct (Z_lt_le_dec 4 k) as [H|H]; [|assumption].
    assert (10 ^ 4 <= 10 ^ (k - 1)) by (apply Z.pow_le_mono_r; lia).
    change (10 ^ 4) with 10000 in *. lia.
Qed.

(** The text of a total of [n] hundredths has at most two digits after the
    point. *)
Lemma total_text_digits n :
  50000 <= n <= 180000 ->
  (fraction_digits (toString (of_decimal false n (-2))) <= 2)%nat.
Proof.
  intros Hn. pose proof (total_ok_spec n Hn) as Hok.
  rewrite of_decimal_hundredths_eq by assumption.
  unfold total_ok in Hok. cbv zeta in Hok.
  set (x := (of_uint63 (Uint63.of_Z n) / 100)%float) in *.
  apply andb_prop in Hok. destruct Hok as [_ Hok].
  destruct (Prim2SF x) as [| | |[] m e] eqn:E; try discriminate.
  repeat (apply andb_prop in Hok; destruct Hok as [Hok ?]).
  assert (e < 0) as He by lia.
  set (den := 2 ^ (- e)).
  assert (0 < den) as Hden by (apply Z.pow_pos_nonneg; lia).
  assert (Z.pos m / den = n / 100) as Hq
      by (unfold den; rewrite <- Z.shiftr_div_pow2 by lia; lia).
  assert ((n - 1) * den < 100 * Z.pos m) as Hlo
      by (unfold den; rewrite <- Z.shiftl_mul_pow2 by lia; lia).
  assert (100 * Z.pos m < (n + 1) * den) as Hhi
      by (unfold den; rewrite <- Z.shiftl_mul_pow2 by lia; lia).
  assert (500 <= n / 100 <= 1800) as Hq500.
  { split; [apply Z.div_le_lower_bound; lia | apply Z.div_le_upper_bound; lia]. }
  unfold toString. rewrite E. unfold fraction.
  replace (0 <=? e) with false by lia.
  rewrite Z.shiftl_mul_pow2, Z.mul_1_l by lia. fold den.
  rewrite (abs_finite x m e E).
  (* the decimal exponent *)
  unfold decimal_exponent.
  replace (den <=? Z.pos m) with true.
  2:{ symmetry. apply Z.leb_le. destruct (Z_lt_le_dec (Z.pos m) den) as [Hlt|]; [|assumption].
      rewrite Z.div_small in Hq by lia. lia. }
  rewrite Hq.
  destruct (take_digits_of_Z_nonneg (Z.to_nat (n / 100)) (n / 100) "" 0 0)
    as (k0 & Hk0 & Hk0lo & Hk0hi & Hlen & _);
    [split; [lia | apply KeyFacts.pow10_gt; lia]|].
  rewrite Hlen, Z2Nat.id by lia.
  rewrite Z.max_l in Hk0lo by lia.
  pose proof (pow10_digits _ _ Hk0 Hk0lo Hk0hi Hq500) as Hk034.
  (* a candidate with [k0 + 2] digits *)
  assert (10 ^ (k0 + 1) <= n < 10 ^ (k0 + 2)) as Hdig.
  { replace (k0 + 1) with (k0 - 1 + 2) by lia.
    rewrite !Z.pow_add_r by lia. change (10 ^ 2) with 100.
    pose proof (Z.div_mod n 100 ltac:(lia)).
    pose proof (Z.mod_pos_bound n 100 ltac:(lia)). lia. }
  assert (In (k0, n) (candidates x (Z.pos m) den k0 (k0 + 2))) as Hcand.
  { unfold candidates. apply filter_In. split.
    - replace (k0 - (k0 + 2)) with (-2) by lia. unfold scaled_floor.
      cbn [Z.leb Z.compare Z.opp]. change (10 ^ 2) with 100.
      assert (n - 1 <= Z.pos m * 100 / den) by (apply Z.div_le_lower_bound; lia).
      assert (Z.pos m * 100 / den < n + 1) by (apply Z.div_lt_upper_bound; lia).
      destruct (Z.eq_dec (Z.pos m * 100 / den) n) as [->|Hne]; [now left|].
      right. replace (Z.pos m * 100 / den) with (n - 1) by lia.
      replace (n - 1 + 1) with n by lia.
      replace (n <? 10 ^ (k0 + 2)) with true by lia. now left.
    - replace (k0 + 2 - 1) with (k0 + 1) by lia.
      replace (k0 - (k0 + 2)) with (-2) by lia.
      replace (10 ^ (k0 + 1) <=? n) with true by lia.
      replace (n <? 10 ^ (k0 + 2)) with true by lia.
      rewrite of_decimal_hundredths_eq by assumption. fold x.
      now rewrite (eqb_refl_finite x m e E). }
  destruct (shortest_found x (Z.pos m) den k0 (k0 + 2) 17 1)
    as (n' & k' & s' & Hs & Hk' & Hin);
    [lia | lia | intros Hnil; rewrite Hnil in Hcand; exact Hcand|].
  rewrite Hs. cbn [String.append].
  apply candidates_In in Hin. destruct Hin as [Hn' Hs'].
  assert (0 < 10 ^ (k' - 1)) by (apply Z.pow_pos_nonneg; lia).
  etransitivity.
  - apply fraction_digits_layout; [|lia].
    apply (all_digits_of_Z_nonneg (Z.to_nat s')).
    split; [lia | apply KeyFacts.pow10_gt; lia].
  - lia.
Qed.

End TotalTextFacts.

(** * Facts about the generator *)

Module GeneratorFacts.
Import JSNumber JSDate Generator RangeDefs RangeFacts CalendarDefs CalendarFacts
       IsoFacts TotalDefs RandomFacts GeneratorDefs.

Lemma total_bounds n :
  50000 <= n <= 180000 ->
  (500 <=? of_decimal false n (-2))%float = true
  /\ (of_decimal false n (-2) <=? 1800)%float = true.
Proof.
  intros Hn. pose proof (total_ok_spec n Hn) as H.
  rewrite of_decimal_hundredths_eq by assumption.
  unfold total_ok in H. cbv zeta in H.
  apply andb_prop in H. destruct H as [H _].
  apply andb_prop in H. exact H.
Qed.

Section Generator.

Variable LocalTZA : Z.
Variable random : nat -> Q.

Hypothesis zone : valid_zone LocalTZA.
Hypothesis draws : valid_draws random.

Lemma bind_eq {A B} (c : M A) (k : A -> M B) i a i' :
  c i = (a, i') -> bind c k i = k a i'.
Proof. intros H. unfold bind. now rewrite H. Qed.

Lemma randomInt_spec min max i :
  min <= max ->
  exists v, randomInt random min max i = (v, S i) /\ min <= v <= max.
Proof.
  intros Hm. eexists. split; [reflexivity|].
  destruct (draws i) as [H0 H1].
  pose proof (Qfloor_scale (random i) (max - min + 1) H0 H1 ltac:(lia)). lia.
Qed.

Lemma randomFloat_spec i :
  exists n, randomFloat random 500 1800 2 i = (of_decimal false n (-2), S i)
            /\ 50000 <= n <= 180000.
Proof.
  destruct (draws i) as [H0 H1].
  pose proof (hundredths_range (random i) H0 H1) as Hn.
  eexists. split; [|exact Hn].
  unfold randomFloat, bind, Math_random, ret. f_equal.
  unfold toFixed_exact.
  replace (Qle_bool 0 (random i * inject_Z (1800 - 500) + inject_Z 500)) with true.
  - cbn [negb]. cbn [String.append].
    apply parseFloat_fixed_digits. lia.
  - symmetry. apply Qle_bool_iff.
    destruct (random i) as [a b]. unfold Qle, Qmult, Qplus, inject_Z in *.
    cbn [Qnum Qden] in *. nia.
Qed.

Lemma new_Date_local_some year month date hours minutes seconds :
  100 <= year ->
  let tv := MakeDate (MakeDay year month date)
              (MakeTime hours minutes seconds 0) in
  Z.abs (tv - LocalTZA) <= 8640000000000000 ->
  new_Date_local LocalTZA year month date hours minutes seconds
  = Some (tv - LocalTZA).
Proof.
  intros Hy tv Hclip. unfold new_Date_local, UTC, TimeClip.
  replace ((0 <=? year) && (year <=? 99)) with false by lia.
  fold tv. now replace (Z.abs (tv - LocalTZA) <=? 8640000000000000) with true by lia.
Qed.

Lemma daysInMonth_spec year month :
  2020 <= year <= 2025 -> 1 <= month <= 12 ->
  getDate LocalTZA (new_Date_local LocalTZA year month 0 0 0 0)
  = Some (days_in_month year month).
Proof.
  intros Hy Hm.
  pose proof (proj2 (days_in_month_range year month Hy Hm)) as Hd.
  unfold first_day, last_day in Hd. unfold valid_zone, msPerDay in zone.
  rewrite new_Date_local_some.
  - unfold getDate, LocalTime, option_map. f_equal.
    rewrite Z.sub_add, DateFromTime_Day, Day_MakeDate; [reflexivity|].
    unfold MakeTime, msPerDay. lia.
  - lia.
  - unfold MakeDate, MakeTime, msPerDay. lia.
Qed.

(** The date [randomDate] writes for a day of a month of 2020 to 2025: it
    reads back in local time with the year drawn. *)
Lemma date_text_year year month date hours minutes seconds :
  2020 <= year <= 2025 -> 1 <= month <= 12 ->
  1 <= date <= days_in_month year month ->
  0 <= hours <= 23 -> 0 <= minutes <= 59 -> 0 <= seconds <= 59 ->
  exists t,
    new_Date_local LocalTZA year (month - 1) date hours minutes seconds = Some t
    /\ local_year LocalTZA (toISOString t) = Some year
    /\ (LocalTZA = 0 -> utc_year LocalTZA (toISOString t) = Some year).
Proof.
  intros Hy Hm Hd Hh Hmi Hs.
  destruct (day_of_month year month date Hy Hm Hd) as [Hyear Hdn].
  unfold first_day, last_day in Hdn. unfold valid_zone, msPerDay in zone.
  set (dn := MakeDay year (month - 1) date) in *.
  set (time := MakeTime hours minutes seconds 0).
  assert (0 <= time < msPerDay) as Htime
      by (unfold time, MakeTime, msPerHour, msPerMinute, msPerSecond, msPerDay; lia).
  exists (MakeDate dn time - LocalTZA).
  assert (Z.abs (MakeDate dn time - LocalTZA) <= 8640000000000000) as Hclip
      by (unfold MakeDate, msPerDay in *; lia).
  split; [apply new_Date_local_some; [lia | exact Hclip]|].
  assert (parse LocalTZA (toISOString (MakeDate dn time - LocalTZA))
          = Some (MakeDate dn time - LocalTZA)) as Hparse.
  { apply parse_toISOString; [|exact Hclip].
    apply day_ok_spec. unfold first_day, last_day, Day, MakeDate, msPerDay in *.
    Z.to_euclidean_division_equations. lia. }
  unfold local_year, utc_year, new_Date, getFullYear, getUTCFullYear, LocalTime.
  rewrite Hparse. cbn [option_map]. split.
  - rewrite Z.sub_add, YearFromTime_Day, Day_MakeDate by assumption.
    now rewrite Hyear.
  - intros ->. rewrite Z.sub_0_r, YearFromTime_Day, Day_MakeDate by assumption.
    now rewrite Hyear.
Qed.

Lemma randomDate_spec i :
  exists d y,
    randomDate LocalTZA random i = (Some d, (i + 6)%nat)
    /\ local_year LocalTZA d = Some y /\ 2020 <= y <= 2025
    /\ (LocalTZA = 0 -> utc_year LocalTZA d = Some y).
Proof.
  destruct (randomInt_spec 2020 2025 i ltac:(lia)) as (year & Hy & Hyr).
  destruct (randomInt_spec 1 12 (S i) ltac:(lia)) as (month & Hm & Hmr).
  pose proof (proj1 (days_in_month_range year month Hyr Hmr)) as Hdim.
  destruct (randomInt_spec 1 (days_in_month year month) (S (S i)) ltac:(lia))
    as (day & Hd & Hdr).
  destruct (randomInt_spec 0 23 (S (S (S i))) ltac:(lia)) as (hour & Hh & Hhr).
  destruct (randomInt_spec 0 59 (S (S (S (S i)))) ltac:(lia))
    as (minute & Hmi & Hmir).
  destruct (randomInt_spec 0 59 (S (S (S (S (S i))))) ltac:(lia))
    as (second & Hs & Hsr).
  destruct (date_text_year year month day hour minute second)
    as (t & Ht & Hlocal & Hutc); try assumption.
  exists (toISOString t), year.
  split; [|repeat split; try assumption; lia].
  unfold randomDate.
  rewrite (bind_eq _ _ _ _ _ Hy), (bind_eq _ _ _ _ _ Hm).
  rewrite daysInMonth_spec by assumption.
  rewrite (bind_eq (bind (randomInt random 1 (days_in_month year month))
                      (fun d => ret (Some d)))
             _ (S (S i)) (Some day) (S (S (S i))))
    by (now rewrite (bind_eq _ _ _ _ _ Hd)).
  rewrite (bind_eq _ _ _ _ _ Hh), (bind_eq _ _ _ _ _ Hmi), (bind_eq _ _ _ _ _ Hs).
  unfold ret. rewrite Ht. cbn [option_map]. f_equal. lia.
Qed.

Lemma generateBatch_loop_spec n : forall startId i0 records j,
  exists rs,
    generateBatch_loop LocalTZA random n startId i0 records j
    = (Some (records ++ rs), (j + 9 * n)%nat)
    /\ map id rs = Zseq (startId + i0) n
    /\ Forall (record_ok LocalTZA) rs.
Proof.
  induction n as [|n IH]; intros startId i0 records j.
  - exists []. cbn [generateBatch_loop ret].
    rewrite app_nil_r, Nat.mul_0_r, Nat.add_0_r. repeat split. constructor.
  - cbn [generateBatch_loop].
    destruct (randomInt_spec 100000 999999 j ltac:(lia)) as (o & Ho & Hor).
    destruct (randomInt_spec 1 50000 (S j) ltac:(lia)) as (c & Hc & Hcr).
    destruct (randomFloat_spec (S (S j))) as (t & Ht & Htr).
    destruct (randomDate_spec (S (S (S j)))) as (d & y & Hd & Hy).
    rewrite (bind_eq _ _ _ _ _ Ho). cbv beta.
    rewrite (bind_eq _ _ _ _ _ Hc). cbv beta.
    rewrite (bind_eq _ _ _ _ _ Ht). cbv beta.
    rewrite (bind_eq _ _ _ _ _ Hd). cbv beta iota.
    set (r := {| id := startId + i0; order_id := o; customer_id := c;
                 total := of_decimal false t (-2); date := d |}).
    destruct (IH startId (i0 + 1) (records ++ [r]) (S (S (S j)) + 6)%nat)
      as (rs & Hrs & Hids & Hok).
    exists (r :: rs). rewrite Hrs, <- app_assoc. split; [|split].
    + cbn [app]. f_equal. lia.
    + cbn [map Zseq id r]. rewrite Hids. do 2 f_equal. lia.
    + constructor; [|exact Hok].
      unfold record_ok, hundredths, total_in_range, year_in_range.
      cbn [order_id customer_id total date r].
      repeat split; try lia.
      * now exists t.
      * now apply total_bounds.
      * now apply total_bounds.
      * now apply TotalTextFacts.total_text_digits.
      * exists y. exact Hy.
Qed.



End Generator.



End GeneratorFacts.

(** * Further facts about the sales processor *)

Module CountFacts.
Import JSNumber Processor ProcessorRuns ProcessorViews MapFacts BucketFacts
       FinalFacts SortFacts.

Lemma fold_left_orders (l : list SalesStats) a :
  fold_left (fun sum stats => sum + stats.(numberOfOrders)) l a
  = a + fold_left (fun sum stats => sum + stats.(numberOfOrders)) l 0.
Proof.
  revert a. induction l as [|st l IH]; intros a; cbn [fold_left]; [lia|].
  rewrite (IH (a + _)), (IH (0 + _)). lia.
Qed.

Lemma orders_cons k st (m : monthlyStats_t) :
  orders ((k, st) :: m) = st.(numberOfOrders) + orders m.
Proof.
  unfold orders. cbn [JSMap.values map snd fold_left].
  now rewrite fold_left_orders.
Qed.

Lemma orders_set (m : monthlyStats_t) k st :
  orders (JSMap.set m k st)
  = orders m
    - match JSMap.get m k with Some old => old.(numberOfOrders) | None => 0 end
    + st.(numberOfOrders).
Proof.
  induction m as [|[k' st'] m IH]; cbn [JSMap.set JSMap.get].
  - rewrite orders_cons. unfold orders. cbn. lia.
  - destruct (String.eqb k' k); rewrite !orders_cons; [lia|]. rewrite IH. lia.
Qed.

Lemma fold_stats_orders LocalTZA o r :
  (fold_stats LocalTZA o r).(numberOfOrders)
  = match o with Some old => old.(numberOfOrders) | None => 0 end + 1.
Proof. destruct o; reflexivity. Qed.

Lemma orders_fold_records LocalTZA rs : forall m,
  retaining m ->
  orders (fold_records LocalTZA m rs) = orders m + Z.of_nat (List.length rs).
Proof.
  induction rs as [|r rs IH]; intros m Hm.
  - unfold fold_records. cbn [fold_left List.length]. lia.
  - rewrite fold_records_cons by assumption.
    rewrite IH by (apply retaining_set; [assumption | apply fold_stats_amounts]).
    rewrite orders_set, fold_stats_orders. cbn [List.length]. lia.
Qed.

Lemma orders_finalized (m : monthlyStats_t) :
  orders (map (fun e => (fst e, finalized (snd e))) m) = orders m.
Proof.
  induction m as [|[k st] m IH]; [reflexivity|].
  cbn [map fst snd]. rewrite !orders_cons, IH. reflexivity.
Qed.


(** [getStats] on the buckets a run ends with counts the records folded. *)
Lemma final_orders LocalTZA p rs :
  totalRecordsProcessed
    (getStats (with_stats p (map (fun e => (fst e, finalized (snd e)))
                               (fold_records LocalTZA [] rs))))
  = Z.of_nat (List.length rs).
Proof.
  set (m := map (fun e => (fst e, finalized (snd e)))
              (fold_records LocalTZA [] rs)).
  assert (orders m = Z.of_nat (List.length rs)) as Ho.
  { unfold m. now rewrite orders_finalized, orders_fold_records by constructor. }
  clearbody m. unfold getStats. cbn [monthlyStats with_stats].
  destruct (JSMap.size m =? 0) eqn:Hs; cbn [totalRecordsProcessed]; [|exact Ho].
  rewrite <- Ho. destruct m as [|e m]; [reflexivity|].
  unfold JSMap.size in Hs. apply Z.eqb_eq in Hs.
  change (List.length (e :: m)) with (S (List.length m)) in Hs. lia.
Qed.

End CountFacts.

Module SpentFacts.
Import JSNumber Processor ProcessorRuns ProcessorViews MapFacts BucketFacts
       FinalFacts.






End SpentFacts.
Module ExtremaFacts.
Import JSNumber FloatKey FloatOrder Processor ProcessorRuns.

Lemma lex_le_trans a b c :
  lex_ltb c b = false -> lex_ltb b a = false -> lex_ltb c a = false.
Proof.
  intros Hcb Hba. destruct (lex_ltb c a) eqn:Hca; [|reflexivity].
  destruct (lex_ltb a b) eqn:Hab.
  - now rewrite (lex_ltb_trans c a b Hca Hab) in Hcb.
  - rewrite (lex_ltb_total a b Hab Hba) in Hca. congruence.
Qed.

Lemma SFleb_refl x : x <> S754_nan -> SFleb x x = true.
Proof.
  intros Hx. unfold SFleb, SFcompare.
  destruct x as [[]|[]| |[] m e]; try reflexivity; try congruence;
    now rewrite Z.compare_refl, Pos.compare_cont_refl.
Qed.

(** The order of the keys is the order [<=] of the values. *)
Lemma leb_key a b :
  is_number a -> is_number b ->
  lex_ltb (fkey b) (fkey a) = false -> (a <=? b)%float = true.
Proof.
  intros Ha Hb Hba. rewrite leb_spec.
  destruct (lex_ltb (fkey a) (fkey b)) eqn:Hab.
  - unfold fkey in Hab.
    rewrite <- SFltb_key in Hab by now apply is_number_spec.
    apply orb_prop in Hab. destruct Hab as [Hz|Hlt].
    + apply andb_prop in Hz. destruct Hz as [Hp Hn].
      destruct (Prim2SF b) as [[]| | |]; try discriminate.
      destruct (Prim2SF a) as [[]| | |]; try discriminate. reflexivity.
    + unfold SFltb in Hlt. unfold SFleb.
      now destruct (SFcompare (Prim2SF a) (Prim2SF b)) as [[]|].
  - rewrite (fkey_inj a b Ha Hb (lex_ltb_total _ _ Hab Hba)).
    apply SFleb_refl. now apply is_number_spec.
Qed.

Lemma Math_max_upper a b :
  is_number a -> is_number b ->
  lex_ltb (fkey (Math_max a b)) (fkey a) = false
  /\ lex_ltb (fkey (Math_max a b)) (fkey b) = false.
Proof.
  intros Ha Hb. rewrite Math_max_key by assumption.
  destruct (lex_ltb (fkey a) (fkey b)) eqn:Hab.
  - split; [|apply lex_ltb_irrefl].
    destruct (lex_ltb (fkey b) (fkey a)) eqn:Hba; [|reflexivity].
    pose proof (lex_ltb_trans _ _ _ Hab Hba) as H.
    now rewrite lex_ltb_irrefl in H.
  - split; [apply lex_ltb_irrefl | exact Hab].
Qed.

Lemma Math_min_lower a b :
  is_number a -> is_number b ->
  lex_ltb (fkey a) (fkey (Math_min a b)) = false
  /\ lex_ltb (fkey b) (fkey (Math_min a b)) = false.
Proof.
  intros Ha Hb. rewrite Math_min_key by assumption.
  destruct (lex_ltb (fkey b) (fkey a)) eqn:Hba.
  - split; [|apply lex_ltb_irrefl].
    destruct (lex_ltb (fkey a) (fkey b)) eqn:Hab; [|reflexivity].
    pose proof (lex_ltb_trans _ _ _ Hab Hba) as H.
    now rewrite lex_ltb_irrefl in H.
  - split; [apply lex_ltb_irrefl | exact Hba].
Qed.

Lemma fold_max_upper ts : forall a,
  is_number a -> Forall is_number ts ->
  is_number (fold_left Math_max ts a)
  /\ lex_ltb (fkey (fold_left Math_max ts a)) (fkey a) = false
  /\ forall t, In t ts -> lex_ltb (fkey (fold_left Math_max ts a)) (fkey t) = false.
Proof.
  induction ts as [|t ts IH]; intros a Ha Hts.
  - cbn [fold_left]. split; [exact Ha|]. split; [apply lex_ltb_irrefl|].
    intros t [].
  - inversion Hts as [|? ? Ht Hts']; subst. cbn [fold_left].
    destruct (IH (Math_max a t) (Math_max_number a t Ha Ht) Hts')
      as (Hn & Hacc & Hall).
    destruct (Math_max_upper a t Ha Ht) as [Hua Hut].
    split; [exact Hn|]. split.
    + exact (lex_le_trans _ _ _ Hacc Hua).
    + intros t' [<-|Hin]; [exact (lex_le_trans _ _ _ Hacc Hut) | now apply Hall].
Qed.

Lemma fold_min_lower ts : forall a,
  is_number a -> Forall is_number ts ->
  is_number (fold_left Math_min ts a)
  /\ lex_ltb (fkey a) (fkey (fold_left Math_min ts a)) = false
  /\ forall t, In t ts -> lex_ltb (fkey t) (fkey (fold_left Math_min ts a)) = false.
Proof.
  induction ts as [|t ts IH]; intros a Ha Hts.
  - cbn [fold_left]. split; [exact Ha|]. split; [apply lex_ltb_irrefl|].
    intros t [].
  - inversion Hts as [|? ? Ht Hts']; subst. cbn [fold_left].
    destruct (IH (Math_min a t) (Math_min_number a t Ha Ht) Hts')
      as (Hn & Hacc & Hall).
    destruct (Math_min_lower a t Ha Ht) as [Hla Hlt].
    split; [exact Hn|]. split.
    + exact (lex_le_trans _ _ _ Hla Hacc).
    + intros t' [<-|Hin]; [exact (lex_le_trans _ _ _ Hlt Hacc) | now apply Hall].
Qed.

(** The extrema of a bucket of numbers bound each of them. *)
Lemma bucket_stats_bounds yr mon ts t :
  Forall is_number ts -> In t ts ->
  (minAmount (bucket_stats yr mon ts) <=? t)%float = true
  /\ (t <=? maxAmount (bucket_stats yr mon ts))%float = true.
Proof.
  intros Hts Hin. cbn [minAmount maxAmount bucket_stats].
  destruct ts as [|t0 ts]; [destruct Hin|].
  cbn [hd]. assert (is_number t0) as H0 by now inversion Hts.
  pose proof (proj1 (Forall_forall _ _) Hts t Hin) as Ht. cbv beta in Ht.
  destruct (fold_max_upper (t0 :: ts) t0 H0 Hts) as (Hn & _ & Hall).
  destruct (fold_min_lower (t0 :: ts) t0 H0 Hts) as (Hn' & _ & Hall').
  split; apply leb_key; auto.
Qed.

End ExtremaFacts.

Module KeyedFacts.
Import JSNumber Processor ProcessorRuns ProcessorViews MapFacts BucketFacts
       FinalFacts SortFacts KeyFacts StableFacts.


Lemma fold_records_keyed LocalTZA rs : keyed (fold_records LocalTZA [] rs).
Proof.
  apply Forall_forall. intros [k st] Hin. cbn [fst snd].
  destruct (keys_fold_records LocalTZA rs []) as [Hnd _];
    [constructor | constructor|].
  pose proof (In_get _ _ _ Hnd Hin) as Hget.
  rewrite get_fold_records_empty in Hget.
  destruct (bucket_records LocalTZA k rs) as [|r rest] eqn:Hb; [discriminate|].
  injection Hget as <-. cbn [year month bucket_stats].
  split.
  - symmetry. apply (bucket_records_key LocalTZA k rs r). rewrite Hb. now left.
  - exact (record_key_calendar LocalTZA r).
Qed.

Lemma keyed_finalized m :
  keyed m -> keyed (map (fun e => (fst e, finalized (snd e))) m).
Proof.
  unfold keyed. intros H. apply Forall_map.
  eapply Forall_impl; [|exact H]. intros [k st] Hk. exact Hk.
Qed.

Lemma keyed_sort_entries m : keyed m -> keyed (sort_entries m).
Proof.
  unfold keyed. intros H.
  exact (Permutation_Forall (sort_entries_Permutation m) H).
Qed.

Lemma report_months_keys m :
  keyed m ->
  map (fun ym => bucket_key (fst ym) (snd ym)) (report_months m)
  = sort_keys (JSMap.keys m).
Proof.
  intros H. unfold report_months, JSMap.keys.
  rewrite <- sort_entries_keys, map_map.
  apply map_ext_in. intros e He. cbn [fst snd].
  symmetry.
  exact (proj1 (proj1 (Forall_forall _ _) (keyed_sort_entries m H) e He)).
Qed.

Lemma sort_keys_Permutation_keys l : Permutation l (sort_keys l).
Proof.
  induction l as [|k l IH]; [constructor|].
  cbn [sort_keys fold_right]. fold (sort_keys l).
  transitivity (k :: sort_keys l); [now constructor|].
  clear IH. induction (sort_keys l) as [|k' r IH]; cbn [insert_key].
  - constructor. constructor.
  - destruct (localeCompare k k'); try reflexivity.
    + rewrite perm_swap. now constructor.
    + rewrite perm_swap. now constructor.
Qed.

Lemma final_keys_NoDup LocalTZA rs :
  NoDup (JSMap.keys (map (fun e => (fst e, finalized (snd e)))
                       (fold_records LocalTZA [] rs))).
Proof.
  unfold JSMap.keys. rewrite map_map. cbn [fst].
  destruct (keys_fold_records LocalTZA rs []) as [Hnd _];
    [constructor | constructor|].
  exact Hnd.
Qed.

(** The years and months of the buckets are those of the records. *)
Lemma fold_records_months LocalTZA rs ym :
  In ym (map (fun e => ((snd e).(year), (snd e).(month)))
           (fold_records LocalTZA [] rs))
  <-> exists r, In r rs /\ record_key LocalTZA r = ym.
Proof.
  pose proof (fold_records_keyed LocalTZA rs) as Hk.
  destruct (keys_fold_records LocalTZA rs []) as [_ Hkeys];
    [constructor | constructor|].
  rewrite in_map_iff. split.
  - intros ([k st] & <- & He). cbn [snd].
    destruct (proj1 (Forall_forall _ _) Hk _ He) as [Hkey Hcal].
    cbn [fst snd] in Hkey, Hcal.
    assert (In k (map (key_of LocalTZA) rs)) as Hin.
    { destruct (proj1 (Hkeys k)) as [[]|H]; [|exact H].
      unfold JSMap.keys. apply in_map_iff. now exists (k, st). }
    apply in_map_iff in Hin. destruct Hin as (r & Hr & Hin).
    exists r. split; [exact Hin|].
    apply bucket_key_inj; [apply record_key_calendar | exact Hcal|].
    cbn [fst snd]. rewrite <- Hkey. exact Hr.
  - intros (r & Hr & <-).
    assert (In (key_of LocalTZA r) (JSMap.keys (fold_records LocalTZA [] rs)))
      as Hin by (apply Hkeys; right; now apply in_map).
    unfold JSMap.keys in Hin. apply in_map_iff in Hin.
    destruct Hin as ([k st] & Hfst & He). cbn [fst] in Hfst. subst k.
    exists (key_of LocalTZA r, st). split; [|exact He].
    destruct (proj1 (Forall_forall _ _) Hk _ He) as [Hkey Hcal].
    cbn [fst snd] in Hkey, Hcal |- *.
    apply bucket_key_inj; [exact Hcal | apply record_key_calendar|].
    cbn [fst snd]. rewrite <- Hkey. reflexivity.
Qed.

Lemma months_finalized (m : monthlyStats_t) :
  map (fun e => ((snd e).(year), (snd e).(month)))
    (map (fun e => (fst e, finalized (snd e))) m)
  = map (fun e => ((snd e).(year), (snd e).(month))) m.
Proof. rewrite map_map. apply map_ext. now intros [k st]. Qed.

(** The years and months of the lines of the report are those of the
    records. *)
Lemma final_months LocalTZA rs ym :
  In ym (report_months (map (fun e => (fst e, finalized (snd e)))
                          (fold_records LocalTZA [] rs)))
  <-> exists r, In r rs /\ record_key LocalTZA r = ym.
Proof.
  rewrite <- fold_records_months, <- months_finalized.
  unfold report_months.
  set (m := map (fun e => (fst e, finalized (snd e)))
              (fold_records LocalTZA [] rs)).
  split; intros H; apply in_map_iff in H; destruct H as (e & He & Hin);
    apply in_map_iff; exists e; (split; [exact He|]).
  - exact (Permutation_in _ (Permutation_sym (sort_entries_Permutation m)) Hin).
  - exact (Permutation_in _ (sort_entries_Permutation m) Hin).
Qed.

Lemma final_months_NoDup LocalTZA rs :
  NoDup (report_months (map (fun e => (fst e, finalized (snd e)))
                          (fold_records LocalTZA [] rs))).
Proof.
  apply (NoDup_map_inv (fun ym => bucket_key (fst ym) (snd ym))).
  rewrite report_months_keys
    by (apply keyed_finalized, fold_records_keyed).
  exact (Permutation_NoDup (sort_keys_Permutation_keys _)
           (final_keys_NoDup LocalTZA rs)).
Qed.

End KeyedFacts.

Module YearFacts.
Import JSNumber Processor ProcessorRuns ProcessorViews.

Lemma fold_years_Some f ys : forall acc,
  fold_years f (map Some ys) acc = Some (fold_left f ys acc).
Proof.
  induction ys as [|y ys IH]; intros acc; [reflexivity|].
  cbn [map fold_years fold_left]. apply IH.
Qed.



Lemma fold_min_spec l : forall a,
  (fold_left Z.min l a = a \/ In (fold_left Z.min l a) l)
  /\ fold_left Z.min l a <= a
  /\ forall x, In x l -> fold_left Z.min l a <= x.
Proof.
  induction l as [|y l IH]; intros a; cbn [fold_left In].
  - split; [now left|]. split; [lia|]. intros x [].
  - destruct (IH (Z.min a y)) as (Hin & Hle & Hall).
    split; [|split].
    + destruct Hin as [H|H]; [|right; now right].
      rewrite H. destruct (Z.min_spec a y) as [[_ ->]|[_ ->]];
        [now left | right; now left].
    + lia.
    + intros x [<-|Hx]; [lia | now apply Hall].
Qed.

Lemma fold_max_spec l : forall a,
  (fold_left Z.max l a = a \/ In (fold_left Z.max l a) l)
  /\ a <= fold_left Z.max l a
  /\ forall x, In x l -> x <= fold_left Z.max l a.
Proof.
  induction l as [|y l IH]; intros a; cbn [fold_left In].
  - split; [now left|]. split; [lia|]. intros x [].
  - destruct (IH (Z.max a y)) as (Hin & Hle & Hall).
    split; [|split].
    + destruct Hin as [H|H]; [|right; now right].
      rewrite H. destruct (Z.max_spec a y) as [[_ ->]|[_ ->]];
        [right; now left | now left].
    + lia.
    + intros x [<-|Hx]; [lia | now apply Hall].
Qed.

(** The least and the greatest of a list of years that has no [NaN]. *)
Lemma spread_numbers zs :
  zs <> [] ->
  exists lo hi,
    spread Z.min (map Some zs) = Some lo /\ spread Z.max (map Some zs) = Some hi
    /\ In lo zs /\ In hi zs /\ forall z, In z zs -> lo <= z <= hi.
Proof.
  destruct zs as [|z zs]; [congruence|]. intros _.
  cbn [map spread]. rewrite !fold_years_Some.
  destruct (fold_min_spec zs z) as (Hmin & Hminle & Hminall).
  destruct (fold_max_spec zs z) as (Hmax & Hmaxle & Hmaxall).
  exists (fold_left Z.min zs z), (fold_left Z.max zs z).
  split; [reflexivity|]. split; [reflexivity|].
  split; [destruct Hmin as [->|H]; [now left | now right]|].
  split; [destruct Hmax as [->|H]; [now left | now right]|].
  intros x [<-|Hx]; [lia|]. split; [now apply Hminall | now apply Hmaxall].
Qed.

Lemma all_Some {A} (l : list (option A)) :
  ~ In None l -> exists zs, l = map Some zs.
Proof.
  induction l as [|[a|] l IH]; intros Hn.
  - now exists [].
  - destruct IH as (zs & ->); [intros H; apply Hn; now right|].
    now exists (a :: zs).
  - destruct Hn. now left.
Qed.

Lemma In_map_Some {A} (a : A) l : In (Some a) (map Some l) <-> In a l.
Proof.
  rewrite in_map_iff. split.
  - intros (x & Hx & Hin). now injection Hx as <-.
  - intros H. now exists a.
Qed.

End YearFacts.

Module RangeOfYears.
Import JSNumber Processor ProcessorRuns ProcessorViews KeyedFacts YearFacts.

(** The years of the buckets a run ends with are the years of its rows. *)
Lemma final_years LocalTZA rs o :
  In o (map (fun stats => stats.(year))
          (JSMap.values (map (fun e => (fst e, finalized (snd e)))
                           (fold_records LocalTZA [] rs))))
  <-> In o (map (fun r => fst (record_key LocalTZA r)) rs).
Proof.
  unfold JSMap.values. rewrite !map_map. cbn [snd].
  rewrite !in_map_iff. split.
  - intros ([k st] & <- & He). cbn [snd finalized finalize_deviation
                                     finalize_average year].
    destruct (proj1 (fold_records_months LocalTZA rs (year st, month st)))
      as (r & Hr & Hkey).
    { apply in_map_iff. now exists (k, st). }
    exists r. now rewrite Hkey.
  - intros (r & <- & Hr).
    assert (In (record_key LocalTZA r)
              (map (fun e => ((snd e).(year), (snd e).(month)))
                 (fold_records LocalTZA [] rs))) as Hin
        by (apply fold_records_months; now exists r).
    apply in_map_iff in Hin. destruct Hin as ([k st] & Hym & He).
    exists (k, st). split; [|exact He]. cbn [snd] in *. now rewrite <- Hym.
Qed.

End RangeOfYears.

Module InvalidDateFacts.
Import JSNumber Processor ProcessorRuns ProcessorViews MapFacts BucketFacts
       KeyFacts.




End InvalidDateFacts.

Module DeviationFacts.
Import JSNumber Processor.

Lemma SFsqrt_not_negative x : SFltb (SFsqrt prec emax x) (S754_zero false) = false.
Proof.
  destruct x as [[]|[]| |[] m e]; try reflexivity.
  unfold SFsqrt. destruct (SFsqrt_core_binary prec emax (Z.pos m) e) as [[mz ez] lz].
  unfold binary_round_aux.
  destruct (shr_fexp prec emax mz ez lz) as [mrs e1].
  destruct (shr_fexp prec emax _ e1 loc_Exact) as [mrs' e2].
  destruct (shr_m mrs'); try reflexivity.
  now destruct (e2 <=? emax - prec).
Qed.

End DeviationFacts.

Module OrderFacts.
Import Digits DigitsFacts JSNumber Processor ProcessorRuns ProcessorViews
       SortFacts KeyFacts.

Lemma insert_key_Permutation k l : Permutation (k :: l) (insert_key k l).
Proof.
  induction l as [|k' r IH]; cbn [insert_key]; [reflexivity|].
  destruct (localeCompare k k'); try reflexivity;
    (rewrite perm_swap; now constructor).
Qed.

Lemma localeCompare_le_trans a b c :
  localeCompare b a <> Lt -> localeCompare c b <> Lt -> localeCompare c a <> Lt.
Proof.
  intros Hab Hbc Hca.
  destruct (localeCompare b c) eqn:Hbc'.
  - apply localeCompare_eq in Hbc'. subst. contradiction.
  - apply Hab. exact (compare_lt_trans b c a Hbc' Hca).
  - rewrite localeCompare_antisym in Hbc'.
    destruct (localeCompare c b); try discriminate. contradiction.
Qed.

(** The keys come out of the sort in ascending order. *)
Lemma sort_keys_sorted l :
  StronglySorted (fun a b => localeCompare b a <> Lt) (sort_keys l).
Proof.
  induction l as [|k l IH]; [constructor|].
  cbn [sort_keys fold_right]. fold (sort_keys l).
  induction IH as [|k' r Hr IHr Hk']; cbn [insert_key].
  - repeat constructor.
  - destruct (localeCompare k k') eqn:Hkk'.
    + constructor; [exact IHr|].
      apply localeCompare_eq in Hkk'. subst k'.
      apply Forall_forall. intros x Hx.
      apply (Permutation_in _ (Permutation_sym (insert_key_Permutation k r))) in Hx.
      destruct Hx as [<-|Hx].
      * intros H. pose proof (localeCompare_antisym k k) as Ha.
        rewrite H in Ha. discriminate.
      * exact (proj1 (Forall_forall _ _) Hk' x Hx).
    + constructor; [now constructor|].
      constructor.
      * rewrite localeCompare_antisym, Hkk'. discriminate.
      * apply Forall_forall. intros x Hx.
        pose proof (proj1 (Forall_forall _ _) Hk' x Hx) as Hle.
        apply (localeCompare_le_trans k k' x); [|exact Hle].
        rewrite localeCompare_antisym, Hkk'. discriminate.
    + constructor; [exact IHr|].
      apply Forall_forall. intros x Hx.
      apply (Permutation_in _ (Permutation_sym (insert_key_Permutation k r))) in Hx.
      destruct Hx as [<-|Hx].
      * rewrite Hkk'. discriminate.
      * exact (proj1 (Forall_forall _ _) Hk' x Hx).
Qed.

Lemma StronglySorted_strict l :
  NoDup l -> StronglySorted (fun a b => localeCompare b a <> Lt) l ->
  StronglySorted (fun a b => localeCompare a b = Lt) l.
Proof.
  intros Hnd Hs. induction Hs as [|a l Hs IH Ha]; [constructor|].
  inversion Hnd as [|? ? Hnotin Hnd']; subst.
  constructor; [now apply IH|].
  apply Forall_forall. intros x Hx.
  pose proof (proj1 (Forall_forall _ _) Ha x Hx) as Hle. cbv beta in Hle.
  rewrite (localeCompare_antisym x a) in Hle.
  destruct (localeCompare a x) eqn:Hax; try reflexivity.
  - apply localeCompare_eq in Hax. subst. contradiction.
  - now destruct Hle.
Qed.

Lemma StronglySorted_map_inv {A B} (g : A -> B) (R : B -> B -> Prop) l :
  StronglySorted R (map g l) -> StronglySorted (fun a b => R (g a) (g b)) l.
Proof.
  induction l as [|a l IH]; intros H; [constructor|].
  cbn [map] in H. inversion H as [|? ? Hs Hall]; subst.
  constructor; [now apply IH|].
  apply Forall_forall. intros x Hx.
  apply (proj1 (Forall_forall _ _) Hall). now apply in_map.
Qed.

Lemma StronglySorted_impl {A} (P : A -> Prop) (R R' : A -> A -> Prop) l :
  (forall a b, P a -> P b -> R a b -> R' a b) ->
  Forall P l -> StronglySorted R l -> StronglySorted R' l.
Proof.
  intros Himp HP Hs. induction Hs as [|a l Hs IH Ha]; [constructor|].
  inversion HP as [|? ? Pa Pl]; subst.
  constructor; [now apply IH|].
  apply Forall_forall. intros x Hx.
  apply Himp; [exact Pa | exact (proj1 (Forall_forall _ _) Pl x Hx)|].
  exact (proj1 (Forall_forall _ _) Ha x Hx).
Qed.

Lemma digit_range_cases d :
  0 <= d <= 9 ->
  d = 0 \/ d = 1 \/ d = 2 \/ d = 3 \/ d = 4 \/ d = 5 \/ d = 6 \/ d = 7
  \/ d = 8 \/ d = 9.
Proof. lia. Qed.

Lemma compare_digit_char a b :
  0 <= a <= 9 -> 0 <= b <= 9 ->
  Ascii.compare (digit_char a) (digit_char b) = (a ?= b).
Proof.
  intros Ha Hb.
  apply digit_range_cases in Ha. apply digit_range_cases in Hb.
  repeat (destruct Ha as [-> | Ha]);
    repeat (destruct Hb as [-> | Hb]); subst; reflexivity.
Qed.

Lemma of_Z_four_digits y :
  1000 <= y <= 9999 ->
  Digits.of_Z y
  = String (digit_char (y / 1000))
      (String (digit_char (y / 100 mod 10))
         (String (digit_char (y / 10 mod 10))
            (String (digit_char (y mod 10)) ""))).
Proof.
  intros Hy. unfold Digits.of_Z. replace (y <? 0) with false by lia.
  rewrite (of_Z_nonneg_step y) by lia.
  rewrite (of_Z_nonneg_step (y / 10)) by (apply Z.div_le_lower_bound; lia).
  rewrite Z.div_div by lia.
  rewrite (of_Z_nonneg_step (y / (10 * 10)))
    by (apply Z.div_le_lower_bound; lia).
  rewrite Z.div_div by lia.
  rewrite of_Z_nonneg_small
    by (split; [apply Z.div_pos; lia | apply Z.div_lt_upper_bound; lia]).
  reflexivity.
Qed.

Lemma compare_month_text m m' :
  1 <= m <= 12 -> 1 <= m' <= 12 ->
  String.compare (month_text m) (month_text m') = (m ?= m').
Proof.
  intros Hm Hm'. apply month_cases in Hm. apply month_cases in Hm'.
  repeat (destruct Hm as [-> | Hm]);
    repeat (destruct Hm' as [-> | Hm']); subst; reflexivity.
Qed.

(** The keys of four-digit years compare as their years and months do. *)
Lemma compare_bucket_key y m y' m' :
  1000 <= y <= 9999 -> 1000 <= y' <= 9999 ->
  1 <= m <= 12 -> 1 <= m' <= 12 ->
  localeCompare (bucket_key (Some y) (Some m)) (bucket_key (Some y') (Some m'))
  = compare_months y m y' m'.
Proof.
  intros Hy Hy' Hm Hm'. unfold localeCompare, bucket_key, int_text.
  fold (month_text m). fold (month_text m').
  rewrite (of_Z_four_digits y Hy), (of_Z_four_digits y' Hy').
  cbn [String.append String.compare].
  assert (forall z, 1000 <= z <= 9999 ->
            0 <= z / 1000 <= 9 /\ 0 <= z / 100 mod 10 <= 9
            /\ 0 <= z / 10 mod 10 <= 9 /\ 0 <= z mod 10 <= 9
            /\ z = 1000 * (z / 1000) + 100 * (z / 100 mod 10)
                   + 10 * (z / 10 mod 10) + z mod 10) as Hdigits.
  { intros z Hz. repeat split; Z.to_euclidean_division_equations; lia. }
  destruct (Hdigits y Hy) as (H3 & H2 & H1 & H0 & Hsum).
  destruct (Hdigits y' Hy') as (H3' & H2' & H1' & H0' & Hsum').
  rewrite !compare_digit_char by assumption.
  change (Ascii.compare "-" "-") with Eq. cbv iota.
  rewrite compare_month_text by assumption.
  unfold compare_months.
  destruct (Z.compare_spec (y / 1000) (y' / 1000)) as [E3|L3|G3];
    [|symmetry in Hsum, Hsum';
      replace (y ?= y') with Lt
        by (symmetry; apply Z.compare_lt_iff; lia); reflexivity
     |replace (y ?= y') with Gt
        by (symmetry; apply Z.compare_gt_iff; lia); reflexivity].
  destruct (Z.compare_spec (y / 100 mod 10) (y' / 100 mod 10)) as [E2|L2|G2];
    [|replace (y ?= y') with Lt
        by (symmetry; apply Z.compare_lt_iff; lia); reflexivity
     |replace (y ?= y') with Gt
        by (symmetry; apply Z.compare_gt_iff; lia); reflexivity].
  destruct (Z.compare_spec (y / 10 mod 10) (y' / 10 mod 10)) as [E1|L1|G1];
    [|replace (y ?= y') with Lt
        by (symmetry; apply Z.compare_lt_iff; lia); reflexivity
     |replace (y ?= y') with Gt
        by (symmetry; apply Z.compare_gt_iff; lia); reflexivity].
  destruct (Z.compare_spec (y mod 10) (y' mod 10)) as [E0|L0|G0];
    [|replace (y ?= y') with Lt
        by (symmetry; apply Z.compare_lt_iff; lia); reflexivity
     |replace (y ?= y') with Gt
        by (symmetry; apply Z.compare_gt_iff; lia); reflexivity].
  replace (y ?= y') with Eq
    by (symmetry; apply Z.compare_eq_iff; lia).
  reflexivity.
Qed.

(** The lines of the report of records of four-digit years are in the
    order of their years and months. *)
Lemma final_months_sorted LocalTZA rs :
  Forall (fun r => exists y, fst (record_key LocalTZA r) = Some y
                             /\ 1000 <= y <= 9999) rs ->
  StronglySorted month_before
    (report_months (map (fun e => (fst e, finalized (snd e)))
                      (fold_records LocalTZA [] rs))).
Proof.
  intros Hrs.
  set (m := map (fun e => (fst e, finalized (snd e)))
              (fold_records LocalTZA [] rs)).
  pose (P := fun ym : option Z * option Z =>
               exists y mo, ym = (Some y, Some mo)
                            /\ 1000 <= y <= 9999 /\ 1 <= mo <= 12).
  assert (Forall P (report_months m)) as HP.
  { apply Forall_forall. intros ym Hym. apply KeyedFacts.final_months in Hym.
    destruct Hym as (r & Hr & Hkey).
    destruct (proj1 (Forall_forall _ _) Hrs r Hr) as (y & Hy & Hrange).
    pose proof (record_key_calendar LocalTZA r) as Hcal.
    rewrite Hkey in Hy, Hcal. cbn [fst] in Hy.
    destruct Hcal as [Hnan|(y' & mo & Heq & Hmo)].
    - rewrite Hnan in Hy. discriminate.
    - exists y', mo. split; [exact Heq|]. split; [|exact Hmo].
      rewrite Heq in Hy. cbn [fst] in Hy. now injection Hy as ->. }
  apply (StronglySorted_impl P
           (fun a b => localeCompare (bucket_key (fst a) (snd a))
                         (bucket_key (fst b) (snd b)) = Lt));
    [|exact HP|].
  - intros a b (y & mo & -> & Hy & Hmo) (y' & mo' & -> & Hy' & Hmo').
    cbn [fst snd]. rewrite compare_bucket_key by assumption.
    unfold compare_months, month_before.
    destruct (Z.compare_spec y y') as [->|Hlt|Hgt]; try discriminate.
    + intros Hc. right. split; [reflexivity|]. now apply Z.compare_lt_iff.
    + intros _. now left.
  - apply (StronglySorted_map_inv
             (fun ym => bucket_key (fst ym) (snd ym))
             (fun a b => localeCompare a b = Lt)).
    rewrite KeyedFacts.report_months_keys
      by (apply KeyedFacts.keyed_finalized, KeyedFacts.fold_records_keyed).
    apply StronglySorted_strict; [|apply sort_keys_sorted].
    exact (Permutation_NoDup (KeyedFacts.sort_keys_Permutation_keys _)
             (KeyedFacts.final_keys_NoDup LocalTZA rs)).
Qed.

End OrderFacts.

Module ColumnFacts.
Import JSNumber Processor ProcessorRuns ProcessorViews MapFacts BucketFacts
       KeyFacts KeyedFacts.

Lemma processSalesRecord_ext LocalTZA m r r' :
  total r = total r' -> date r = date r' ->
  processSalesRecord LocalTZA m r = processSalesRecord LocalTZA m r'.
Proof.
  intros Ht Hd. unfold processSalesRecord, record_key, new_stats, update_stats.
  now rewrite Ht, Hd.
Qed.

Lemma on_data_ext LocalTZA st a b :
  same_sale a b -> on_data LocalTZA st a = on_data LocalTZA st b.
Proof.
  intros [Ht Hd]. destruct st as [[m n] log]. unfold on_data.
  rewrite (processSalesRecord_ext LocalTZA m (parse_record a) (parse_record b));
    [reflexivity| |]; unfold parse_record; cbn [total date]; congruence.
Qed.

Lemma read_rows_ext LocalTZA rows rows' :
  Forall2 same_sale rows rows' ->
  forall st, fold_left (on_data LocalTZA) rows st
             = fold_left (on_data LocalTZA) rows' st.
Proof.
  induction 1 as [|a b rows rows' Hab _ IH]; intros st; [reflexivity|].
  cbn [fold_left]. now rewrite (on_data_ext LocalTZA st a b Hab), IH.
Qed.




End ColumnFacts.

Module NaNFacts.
Import JSNumber FloatKey FloatOrder Processor ProcessorRuns ProcessorViews.

Lemma Math_max_nan a b :
  is_nan a = true \/ is_nan b = true -> is_nan (Math_max a b) = true.
Proof.
  intros H. unfold Math_max.
  replace (is_nan a || is_nan b) with true; [reflexivity|].
  symmetry. apply orb_true_iff. exact H.
Qed.

Lemma Math_min_nan a b :
  is_nan a = true \/ is_nan b = true -> is_nan (Math_min a b) = true.
Proof.
  intros H. unfold Math_min.
  replace (is_nan a || is_nan b) with true; [reflexivity|].
  symmetry. apply orb_true_iff. exact H.
Qed.

Lemma add_nan a b :
  is_nan a = true \/ is_nan b = true -> is_nan (a + b)%float = true.
Proof.
  rewrite !is_nan_spec, add_spec. intros [H|H]; rewrite H.
  - reflexivity.
  - now destruct (Prim2SF a) as [[]|[]| |[] m e].
Qed.

Lemma div_nan a b : is_nan a = true -> is_nan (a / b)%float = true.
Proof.
  rewrite !is_nan_spec, div_spec. intros H. now rewrite H.
Qed.

(** An operation that keeps [NaN] keeps it through a fold. *)
Lemma fold_left_nan (op : number -> number -> number) :
  (forall a b, is_nan a = true \/ is_nan b = true -> is_nan (op a b) = true) ->
  forall ts a,
    is_nan a = true \/ existsb is_nan ts = true ->
    is_nan (fold_left op ts a) = true.
Proof.
  intros Hop. induction ts as [|t ts IH]; intros a H; cbn [fold_left].
  - destruct H as [H|H]; [exact H | discriminate].
  - apply IH. cbn [existsb] in H.
    destruct H as [H|H]; [left; apply Hop; now left|].
    apply orb_prop in H. destruct H as [H|H]; [left; apply Hop; now right|].
    now right.
Qed.

Lemma toFixed_nan x f : is_nan x = true -> toFixed x f = "NaN".
Proof. rewrite is_nan_spec. intros H. unfold toFixed. now rewrite H. Qed.

End NaNFacts.

(** * Facts about reading numbers, dates and lines back *)

Module ReadBackFacts.
Import Digits DigitsFacts JSNumber JSParse TextDefs GeneratorDefs TotalDefs
       RandomFacts TextFacts TotalTextFacts RangeDefs RangeFacts ReadBackDefs.

Lemma candidates_reads x num den n0 k n' s' :
  In (n', s') (candidates x num den n0 k) ->
  s' < 10 ^ k /\ (of_decimal false s' (n' - k) =? x)%float = true.
Proof.
  unfold candidates. rewrite filter_In. intros [_ Hf].
  apply andb_prop in Hf. destruct Hf as [Hf Heq].
  apply andb_prop in Hf. destruct Hf as [_ Hhi].
  split; [lia | exact Heq].
Qed.

Lemma eqb_finite_eq a b m e :
  Prim2SF b = S754_finite false m e -> (a =? b)%float = true -> a = b.
Proof.
  intros Hb Heq. rewrite eqb_spec, Hb in Heq. apply Prim2SF_inj. rewrite Hb.
  unfold SFeqb, SFcompare in Heq.
  destruct (Prim2SF a) as [[]|[]| |[] m' e']; try discriminate.
  destruct (e' ?= e) eqn:He; try discriminate.
  change (Pos.compare_cont Eq m' m) with (Pos.compare m' m) in Heq.
  destruct (Pos.compare m' m) eqn:Hm; try discriminate.
  apply Z.compare_eq in He. apply Pos.compare_eq in Hm. now subst.
Qed.

(** The text of a total of [n] hundredths: digits [s'], [k'] of them, laid
    out with the point after the first [n'], which read back as the total. *)
Lemma total_text_shape n :
  50000 <= n <= 180000 ->
  exists n' k' s',
    toString (of_decimal false n (-2)) = layout n' k' (of_Z_nonneg s')
    /\ 3 <= n' <= 5 /\ 1 <= k' <= 6
    /\ 10 ^ (k' - 1) <= s' < 10 ^ k'
    /\ of_decimal false s' (n' - k') = of_decimal false n (-2).
Proof.
  intros Hn. pose proof (total_ok_spec n Hn) as Hok.
  rewrite !of_decimal_hundredths_eq by assumption.
  unfold total_ok in Hok. cbv zeta in Hok.
  set (x := (of_uint63 (Uint63.of_Z n) / 100)%float) in *.
  apply andb_prop in Hok. destruct Hok as [_ Hok].
  destruct (Prim2SF x) as [| | |[] m e] eqn:E; try discriminate.
  repeat (apply andb_prop in Hok; destruct Hok as [Hok ?]).
  assert (e < 0) as He by lia.
  set (den := 2 ^ (- e)).
  assert (0 < den) as Hden by (apply Z.pow_pos_nonneg; lia).
  assert (Z.pos m / den = n / 100) as Hq
      by (unfold den; rewrite <- Z.shiftr_div_pow2 by lia; lia).
  assert ((n - 1) * den < 100 * Z.pos m) as Hlo
      by (unfold den; rewrite <- Z.shiftl_mul_pow2 by lia; lia).
  assert (100 * Z.pos m < (n + 1) * den) as Hhi
      by (unfold den; rewrite <- Z.shiftl_mul_pow2 by lia; lia).
  assert (500 <= n / 100 <= 1800) as Hq500.
  { split; [apply Z.div_le_lower_bound; lia | apply Z.div_le_upper_bound; lia]. }
  unfold toString. rewrite E. unfold fraction.
  replace (0 <=? e) with false by lia.
  rewrite Z.shiftl_mul_pow2, Z.mul_1_l by lia. fold den.
  rewrite (abs_finite x m e E).
  unfold decimal_exponent.
  replace (den <=? Z.pos m) with true.
  2:{ symmetry. apply Z.leb_le.
      destruct (Z_lt_le_dec (Z.pos m) den) as [Hlt|]; [|assumption].
      rewrite Z.div_small in Hq by lia. lia. }
  rewrite Hq.
  destruct (take_digits_of_Z_nonneg (Z.to_nat (n / 100)) (n / 100) "" 0 0)
    as (k0 & Hk0 & Hk0lo & Hk0hi & Hlen & _);
    [split; [lia | apply KeyFacts.pow10_gt; lia]|].
  rewrite Hlen, Z2Nat.id by lia.
  rewrite Z.max_l in Hk0lo by lia.
  pose proof (pow10_digits _ _ Hk0 Hk0lo Hk0hi Hq500) as Hk034.
  assert (10 ^ (k0 + 1) <= n < 10 ^ (k0 + 2)) as Hdig.
  { replace (k0 + 1) with (k0 - 1 + 2) by lia.
    rewrite !Z.pow_add_r by lia. change (10 ^ 2) with 100.
    pose proof (Z.div_mod n 100 ltac:(lia)).
    pose proof (Z.mod_pos_bound n 100 ltac:(lia)). lia. }
  assert (In (k0, n) (candidates x (Z.pos m) den k0 (k0 + 2))) as Hcand.
  { unfold candidates. apply filter_In. split.
    - replace (k0 - (k0 + 2)) with (-2) by lia. unfold scaled_floor.
      cbn [Z.leb Z.compare Z.opp]. change (10 ^ 2) with 100.
      assert (n - 1 <= Z.pos m * 100 / den) by (apply Z.div_le_lower_bound; lia).
      assert (Z.pos m * 100 / den < n + 1) by (apply Z.div_lt_upper_bound; lia).
      destruct (Z.eq_dec (Z.pos m * 100 / den) n) as [->|Hne]; [now left|].
      right. replace (Z.pos m * 100 / den) with (n - 1) by lia.
      replace (n - 1 + 1) with n by lia.
      replace (n <? 10 ^ (k0 + 2)) with true by lia. now left.
    - replace (k0 + 2 - 1) with (k0 + 1) by lia.
      replace (k0 - (k0 + 2)) with (-2) by lia.
      replace (10 ^ (k0 + 1) <=? n) with true by lia.
      replace (n <? 10 ^ (k0 + 2)) with true by lia.
      rewrite of_decimal_hundredths_eq by assumption. fold x.
      now rewrite (eqb_refl_finite x m e E). }
  destruct (shortest_found x (Z.pos m) den k0 (k0 + 2) 17 1)
    as (n' & k' & s' & Hs & Hk' & Hin);
    [lia | lia | intros Hnil; rewrite Hnil in Hcand; exact Hcand|].
  rewrite Hs. cbn [String.append].
  destruct (candidates_In _ _ _ _ _ _ _ Hin) as [Hn' Hs'].
  destruct (candidates_reads _ _ _ _ _ _ _ Hin) as [Hs'' Hread].
  exists n', k', s'. split; [reflexivity|].
  split; [lia|]. split; [lia|]. split; [lia|].
  exact (eqb_finite_eq _ x m e E Hread).
Qed.

Lemma scale1_ok : forall_range (scale_ok 1) 1 9999 = true.
Proof. vm_cast_no_check (eq_refl true). Qed.

Lemma scale2_ok : forall_range (scale_ok 2) 1 999 = true.
Proof. vm_cast_no_check (eq_refl true). Qed.

Lemma scale3_ok : forall_range (scale_ok 3) 1 99 = true.
Proof. vm_cast_no_check (eq_refl true). Qed.

Lemma scale4_ok : forall_range (scale_ok 4) 1 9 = true.
Proof. vm_cast_no_check (eq_refl true). Qed.

Lemma of_decimal_scale j s :
  0 <= j <= 4 -> 1 <= s < 10 ^ (5 - j) ->
  of_decimal false (s * 10 ^ j) 0 = of_decimal false s j.
Proof.
  intros Hj Hs.
  assert (j = 0 \/ j = 1 \/ j = 2 \/ j = 3 \/ j = 4) as Hc by lia.
  destruct Hc as [->|[->|[->|[->| ->]]]].
  - now rewrite Z.mul_1_r.
  - apply FloatAxioms.Leibniz.eqb_spec.
    apply (forall_range_spec (scale_ok 1) 9999 1 scale1_ok).
    change (10 ^ (5 - 1)) with 10000 in Hs. lia.
  - apply FloatAxioms.Leibniz.eqb_spec.
    apply (forall_range_spec (scale_ok 2) 999 1 scale2_ok).
    change (10 ^ (5 - 2)) with 1000 in Hs. lia.
  - apply FloatAxioms.Leibniz.eqb_spec.
    apply (forall_range_spec (scale_ok 3) 99 1 scale3_ok).
    change (10 ^ (5 - 3)) with 100 in Hs. lia.
  - apply FloatAxioms.Leibniz.eqb_spec.
    apply (forall_range_spec (scale_ok 4) 9 1 scale4_ok).
    change (10 ^ (5 - 4)) with 10 in Hs. lia.
Qed.

Lemma take_digits_all a :
  all_digits a = true ->
  forall rest acc cnt,
    take_digits (a ++ rest) acc cnt
    = take_digits rest
        (acc * 10 ^ Z.of_nat (String.length a) + digits_value a)
        (cnt + Z.of_nat (String.length a)).
Proof.
  unfold digits_value.
  induction a as [|c a IH]; intros Ha rest acc cnt.
  - cbn [String.append String.length take_digits fst].
    change (Z.of_nat 0) with 0. rewrite Z.pow_0_r. f_equal; lia.
  - cbn [all_digits] in Ha. apply andb_prop in Ha. destruct Ha as [Hc Ha].
    change (String c a ++ rest)%string with (String c (a ++ rest)).
    rewrite !take_digits_digit by assumption.
    rewrite (IH Ha).
    pose proof (IH Ha "" (0 * 10 + digit_val c) (0 + 1)) as Hv.
    rewrite StringFacts.append_nil_r in Hv. rewrite Hv.
    cbn [take_digits fst String.length].
    rewrite Nat2Z.inj_succ, Z.pow_succ_r by lia.
    f_equal; lia.
Qed.

Lemma take_digits_zeros j : forall acc cnt,
  take_digits (zeros (Z.of_nat j)) acc cnt
  = (acc * 10 ^ Z.of_nat j, cnt + Z.of_nat j, "").
Proof.
  unfold zeros. rewrite Nat2Z.id.
  induction j as [|j IH]; intros acc cnt.
  - cbn [repeat_char take_digits]. change (Z.of_nat 0) with 0.
    rewrite Z.pow_0_r.
    apply (f_equal2 pair); [apply (f_equal2 pair); lia | reflexivity].
  - cbn [repeat_char]. rewrite take_digits_digit by reflexivity.
    rewrite IH. change (digit_val "0") with 0.
    rewrite Nat2Z.inj_succ, Z.pow_succ_r by lia.
    apply (f_equal2 pair); [apply (f_equal2 pair); lia | reflexivity].
Qed.

(** The digits of [s] read as [s]. *)
Lemma digits_of_Z_nonneg s :
  0 <= s ->
  all_digits (of_Z_nonneg s) = true
  /\ digits_value (of_Z_nonneg s) = s
  /\ exists k, 1 <= k /\ String.length (of_Z_nonneg s) = Z.to_nat k
               /\ 10 ^ (k - 1) <= Z.max s 1 /\ s < 10 ^ k.
Proof.
  intros Hs.
  assert (0 <= s < 10 ^ Z.of_nat (Z.to_nat s)) as Hb
      by (split; [assumption | now apply KeyFacts.pow10_gt]).
  split; [exact (all_digits_of_Z_nonneg _ s Hb)|].
  destruct (take_digits_of_Z_nonneg (Z.to_nat s) s "" 0 0 Hb)
    as (k & Hk & Hlo & Hhi & Hlen & Htake).
  split.
  - unfold digits_value. rewrite <- (StringFacts.append_nil_r (of_Z_nonneg s)).
    rewrite Htake. cbn [take_digits fst]. lia.
  - exists k. repeat split; assumption.
Qed.

Lemma substring_split s : forall n,
  (n <= String.length s)%nat ->
  (substring 0 n s ++ substring n (String.length s - n) s)%string = s
  /\ String.length (substring 0 n s) = n
  /\ String.length (substring n (String.length s - n) s)
     = (String.length s - n)%nat.
Proof.
  induction s as [|c s IH]; intros n Hn.
  - cbn [String.length] in Hn. assert (n = 0)%nat as -> by lia.
    repeat split.
  - destruct n as [|n].
    + cbn [substring String.length Nat.sub String.append].
      destruct (IH 0%nat ltac:(lia)) as (H1 & H2 & H3).
      rewrite Nat.sub_0_r in *.
      assert (substring 0 0 s = "") as H0 by (destruct s; reflexivity).
      rewrite H0 in H1. cbn [String.append] in H1. rewrite H1.
      repeat split.
    + cbn [String.length] in Hn.
      destruct (IH n ltac:(lia)) as (H1 & H2 & H3).
      cbn [substring String.length Nat.sub String.append].
      rewrite H1, H2, H3. repeat split.
Qed.

Lemma parseFloat_digits c s :
  is_digit c = true ->
  parseFloat (Some (String c s))
  = let '(i, ni, r1) := take_digits (String c s) 0 0 in
    let '(f, nf, r2) :=
      match r1 with
      | String "."%char r' => take_digits r' 0 0
      | _ => (0, 0, r1)
      end in
    if ni + nf =? 0 then nan
    else of_decimal false (i * 10 ^ nf + f) (parse_exponent r2 - nf).
Proof.
  intros Hc. unfold parseFloat.
  now rewrite trim_start_digit, parse_sign_digit, prefix_Infinity_digit.
Qed.

Lemma digits_value_append a b :
  all_digits a = true -> all_digits b = true ->
  digits_value (a ++ b)
  = digits_value a * 10 ^ Z.of_nat (String.length b) + digits_value b.
Proof.
  intros Ha Hb. unfold digits_value at 1.
  rewrite (take_digits_all a Ha b 0 0).
  rewrite <- (StringFacts.append_nil_r b) at 1.
  rewrite (take_digits_all b Hb "" _ _). cbn [take_digits fst]. lia.
Qed.

Lemma pow10_digits_unique s k k' :
  1 <= k -> 1 <= k' ->
  10 ^ (k - 1) <= s < 10 ^ k -> 10 ^ (k' - 1) <= s < 10 ^ k' -> k = k'.
Proof.
  intros Hk Hk' Hs Hs'.
  destruct (Z.lt_trichotomy k k') as [H|[H|H]]; [|exact H|].
  - assert (10 ^ k <= 10 ^ (k' - 1)) by (apply Z.pow_le_mono_r; lia). lia.
  - assert (10 ^ k' <= 10 ^ (k - 1)) by (apply Z.pow_le_mono_r; lia). lia.
Qed.

(** [parseFloat] reads the text of a total of [generate] back as the
    total. *)
Lemma parseFloat_total_text n :
  50000 <= n <= 180000 ->
  parseFloat (Some (toString (of_decimal false n (-2))))
  = of_decimal false n (-2).
Proof.
  intros Hn.
  destruct (total_text_shape n Hn) as (n' & k' & s' & -> & Hn' & Hk' & Hs' & <-).
  assert (0 < 10 ^ (k' - 1)) as Hpos by (apply Z.pow_pos_nonneg; lia).
  destruct (digits_of_Z_nonneg s' ltac:(lia))
    as (Hall & Hval & k & Hk & Hlen & Hlo & Hhi).
  rewrite Z.max_l in Hlo by lia.
  assert (k = k') as -> by (apply (pow10_digits_unique s'); lia).
  destruct (KeyFacts.of_Z_nonneg_head (Z.to_nat s') s') as (c & s0 & Hhead & Hc);
    [split; [lia | apply KeyFacts.pow10_gt; lia]|].
  set (ds := of_Z_nonneg s') in *.
  unfold layout. destruct (Z.leb_spec k' n') as [Hkn|Hkn].
  - replace (n' <=? 21) with true by lia. cbn [andb].
    rewrite Hhead.
    change (String c s0 ++ ?z)%string with (String c (s0 ++ z)).
    rewrite (parseFloat_digits c _ Hc).
    change (String c (s0 ++ ?z)) with (String c s0 ++ z)%string.
    rewrite <- Hhead.
    rewrite (take_digits_all ds Hall), Hval, Hlen.
    replace (n' - k') with (Z.of_nat (Z.to_nat (n' - k'))) at 1 by lia.
    rewrite take_digits_zeros. cbv iota beta.
    rewrite !Z2Nat.id by lia.
    replace (0 + k' + (n' - k') + 0 =? 0) with false by lia.
    cbn [parse_exponent]. rewrite Z.pow_0_r.
    replace ((0 * 10 ^ k' + s') * 10 ^ (n' - k') * 1 + 0)
      with (s' * 10 ^ (n' - k')) by lia.
    change (0 - 0) with 0.
    apply of_decimal_scale; [lia|]. split; [lia|].
    assert (10 ^ k' <= 10 ^ (5 - (n' - k')))
      by (apply Z.pow_le_mono_r; lia).
    lia.
  - cbn [andb]. replace ((0 <? n') && (n' <=? 21)) with true by lia.
    destruct (substring_split ds (Z.to_nat n') ltac:(lia))
      as (Hsplit & HlenA & HlenB).
    replace (String.length ds - Z.to_nat n')%nat with (Z.to_nat (k' - n'))
      in * by lia.
    set (A := substring 0 (Z.to_nat n') ds) in *.
    set (B := substring (Z.to_nat n') (Z.to_nat (k' - n')) ds) in *.
    assert (all_digits A = true) as HA by now apply all_digits_substring.
    assert (all_digits B = true) as HB by now apply all_digits_substring.
    assert (exists sA, A = String c sA) as (sA & HheadA).
    { unfold A. rewrite Hhead.
      destruct (Z.to_nat n') as [|m] eqn:Hm; [lia|].
      cbn [substring]. now eexists. }
    rewrite HheadA.
    change (String c sA ++ ?z)%string with (String c (sA ++ z)).
    rewrite (parseFloat_digits c _ Hc).
    change (String c (sA ++ ?z)) with (String c sA ++ z)%string.
    rewrite <- HheadA.
    rewrite (take_digits_all A HA).
    change ("." ++ B)%string with (String "." B).
    rewrite take_digits_stop by reflexivity. cbv iota beta.
    rewrite <- (StringFacts.append_nil_r B) at 1.
    rewrite (take_digits_all B HB). cbn [take_digits parse_exponent].
    cbv iota beta.
    rewrite HlenA, HlenB, !Z2Nat.id by lia.
    replace (0 + n' + (0 + (k' - n')) =? 0) with false by lia.
    f_equal; [|lia].
    rewrite <- Hval, <- Hsplit.
    rewrite (digits_value_append A B HA HB), HlenB, Z2Nat.id by lia.
    rewrite (Z.add_0_l (k' - n')). lia.
Qed.

Lemma parseInt_digits z :
  0 <= z -> parseInt (Some (Digits.of_Z z)) = JSNumber.of_Z z.
Proof.
  intros Hz. unfold Digits.of_Z. replace (z <? 0) with false by lia.
  destruct (digits_of_Z_nonneg z Hz) as (Hall & Hval & k & Hk & Hlen & _).
  destruct (KeyFacts.of_Z_nonneg_head (Z.to_nat z) z) as (c & s0 & Hhead & Hc);
    [split; [lia | apply KeyFacts.pow10_gt; lia]|].
  assert (take_digits (of_Z_nonneg z) 0 0 = (z, k, "")) as Htake.
  { rewrite <- (StringFacts.append_nil_r (of_Z_nonneg z)).
    rewrite (take_digits_all _ Hall), Hval, Hlen. cbn [take_digits].
    apply (f_equal2 pair); [apply (f_equal2 pair); lia | reflexivity]. }
  unfold parseInt. rewrite Hhead in *.
  rewrite trim_start_digit, parse_sign_digit by assumption.
  assert (match String c s0 with
          | String "0"%char (String c' r') =>
              if (c' =? "x")%char || (c' =? "X")%char then take_hex r' 0 0
              else let '(a, n, _) := take_digits (String c s0) 0 0 in (a, n)
          | _ => let '(a, n, _) := take_digits (String c s0) 0 0 in (a, n)
          end = (z, k)) as ->.
  { rewrite Htake.
    destruct s0 as [|c' r'].
    - apply is_digit_cases in Hc.
      repeat (destruct Hc as [-> | Hc]; [reflexivity|]). subst. reflexivity.
    - cbn [all_digits] in Hall. apply andb_prop in Hall. destruct Hall as [_ Hall].
      apply andb_prop in Hall. destruct Hall as [Hc' _].
      assert ((c' =? "x")%char || (c' =? "X")%char = false) as Hx.
      { apply is_digit_cases in Hc'.
        repeat (destruct Hc' as [-> | Hc']; [reflexivity|]). subst. reflexivity. }
      apply is_digit_cases in Hc.
      repeat (destruct Hc as [-> | Hc]; [try reflexivity; now rewrite Hx|]).
      subst. reflexivity. }
  replace (k =? 0) with false by lia.
  destruct (Z.eqb_spec z 0) as [->|Hne]; reflexivity.
Qed.

End ReadBackFacts.

Module FixedFacts.
Import Digits DigitsFacts JSNumber TextDefs GeneratorDefs TextFacts
       ReadBackFacts Processor ProcessorViews.

Lemma length_repeat_char c n : String.length (repeat_char c n) = n.
Proof. induction n as [|n IH]; cbn [repeat_char String.length]; congruence. Qed.

(** The digits of [n] with two of them after the point. *)
Lemma fixed_digits_fraction n :
  0 <= n -> fraction_digits (fixed_digits n 2) = 2%nat.
Proof.
  intros Hn. unfold fixed_digits.
  destruct (digits_of_Z_nonneg n Hn) as (Hall & _ & k & Hk & Hlen & _).
  set (m := if (String.length (of_Z_nonneg n) <=? 2)%nat
            then padStart0 3 (of_Z_nonneg n) else of_Z_nonneg n).
  assert (all_digits m = true /\ (3 <= String.length m)%nat) as [Hm Hlm].
  { unfold m. destruct (Nat.leb_spec (String.length (of_Z_nonneg n)) 2) as [H|H].
    - unfold padStart0. split.
      + rewrite all_digits_append, Hall. now rewrite all_digits_zeros.
      + rewrite StringFacts.length_append, length_repeat_char. lia.
    - split; [exact Hall | lia]. }
  clearbody m.
  destruct (substring_split m (String.length m - 2) ltac:(lia))
    as (_ & _ & HlenB).
  replace (String.length m - (String.length m - 2))%nat with 2%nat in HlenB by lia.
  unfold fraction_digits.
  rewrite after_point_digits by now apply all_digits_substring.
  change ("." ++ ?x)%string with (String "." x).
  cbn [after_point Ascii.eqb Bool.eqb]. exact HlenB.
Qed.

Lemma toFixed_int_nonneg f m e : 0 <= f -> 0 <= toFixed_int f m e.
Proof.
  intros Hf. unfold toFixed_int.
  assert (0 < 10 ^ f) by (apply Z.pow_pos_nonneg; lia).
  destruct (Z.leb_spec 0 e).
  - assert (0 < 2 ^ e) by (apply Z.pow_pos_nonneg; lia). nia.
  - assert (0 < 2 ^ (- e)) by (apply Z.pow_pos_nonneg; lia).
    assert (0 < 2 ^ (1 - e)) by (apply Z.pow_pos_nonneg; lia).
    apply Z.div_pos; nia.
Qed.

Lemma toFixed_fraction x :
  fixed_range x -> fraction_digits (toFixed x 2) = 2%nat.
Proof.
  unfold fixed_range, toFixed.
  destruct (Prim2SF x) as [s|s| |sg m e]; try contradiction.
  - intros _. now apply fixed_digits_fraction.
  - intros Hr.
    replace ((0 <=? e) && (10 ^ 21 <=? Z.pos m * 2 ^ e)) with false
      by (destruct Hr; lia).
    pose proof (fixed_digits_fraction (toFixed_int (Z.of_nat 2) m e)
                  (toFixed_int_nonneg (Z.of_nat 2) m e ltac:(lia))) as H.
    destruct sg; [|exact H].
    unfold fraction_digits in *.
    change ("-" ++ ?t)%string with (String "-" t).
    cbn [after_point Ascii.eqb Bool.eqb]. exact H.
Qed.

End FixedFacts.

Module PipelineFacts.
Import JSNumber FloatKey FloatOrder Generator RangeDefs GeneratorDefs
       GeneratorFacts ReadBackDefs ReadBackFacts PipelineDefs ExtremaFacts.







End PipelineFacts.

Module DrawnFacts.
Import JSNumber JSDate Generator RangeDefs RangeFacts CalendarDefs
       CalendarFacts IsoFacts GeneratorDefs GeneratorFacts DrawnDefs
       ProcessorRuns.

Lemma months_days_ok :
  forall_range (fun y => forall_range (month_days_ok y) 1 12) 2020 6 = true.
Proof. vm_cast_no_check (eq_refl true). Qed.

Lemma month_of_day year month date :
  2020 <= year <= 2025 -> 1 <= month <= 12 ->
  1 <= date <= days_in_month year month ->
  MonthFromDay (MakeDay year (month - 1) date) = month - 1
  /\ DateFromDay (MakeDay year (month - 1) date) = date.
Proof.
  intros Hy Hm Hd.
  assert (2020 <= year < 2020 + 6) as Hy' by lia.
  assert (1 <= month < 1 + 12) as Hm' by lia.
  pose proof (forall_range_spec
                (fun y => forall_range (month_days_ok y) 1 12) 6 2020
                months_days_ok year Hy') as H1.
  pose proof (forall_range_spec (month_days_ok year) 12 1 H1 month Hm') as H.
  pose proof (proj1 (days_in_month_range year month Hy Hm)) as Hn.
  assert (1 <= date < 1 + 31) as Hd' by lia.
  pose proof (forall_range_spec _ 31 1 H date Hd') as Hc.
  cbv beta in Hc. apply orb_prop in Hc. destruct Hc as [Hc|Hc].
  - apply Z.ltb_lt in Hc. lia.
  - apply andb_prop in Hc. destruct Hc as [H2 H3].
    apply Z.eqb_eq in H2, H3. now split.
Qed.

Section Drawn.

Variable LocalTZA : Z.
Variable random : nat -> Q.

Hypothesis zone : valid_zone LocalTZA.
Hypothesis draws : valid_draws random.

(** The date [randomDate] writes for a day of a month of 2020 to 2025 is a
    date, and in local time it is of the year and the month drawn. *)
Lemma date_text_month year month date hours minutes seconds :
  2020 <= year <= 2025 -> 1 <= month <= 12 ->
  1 <= date <= days_in_month year month ->
  0 <= hours <= 23 -> 0 <= minutes <= 59 -> 0 <= seconds <= 59 ->
  exists t,
    new_Date_local LocalTZA year (month - 1) date hours minutes seconds = Some t
    /\ new_Date LocalTZA (Some (toISOString t)) = Some t
    /\ local_month LocalTZA (toISOString t) = (Some year, Some month)
    /\ day_ok (Day t) = true.
Proof.
  intros Hy Hm Hd Hh Hmi Hs.
  destruct (day_of_month year month date Hy Hm Hd) as [Hyear Hdn].
  destruct (month_of_day year month date Hy Hm Hd) as [Hmonth _].
  unfold first_day, last_day in Hdn. unfold valid_zone, msPerDay in zone.
  set (dn := MakeDay year (month - 1) date) in *.
  set (time := MakeTime hours minutes seconds 0).
  assert (0 <= time < msPerDay) as Htime
      by (unfold time, MakeTime, msPerHour, msPerMinute, msPerSecond, msPerDay; lia).
  exists (MakeDate dn time - LocalTZA).
  assert (Z.abs (MakeDate dn time - LocalTZA) <= 8640000000000000) as Hclip
      by (unfold MakeDate, msPerDay in *; lia).
  split; [apply (new_Date_local_some LocalTZA); [lia | exact Hclip]|].
  assert (day_ok (Day (MakeDate dn time - LocalTZA)) = true) as Hday.
  { apply day_ok_spec. unfold first_day, last_day, Day, MakeDate, msPerDay in *.
    Z.to_euclidean_division_equations. lia. }
  assert (parse LocalTZA (toISOString (MakeDate dn time - LocalTZA))
          = Some (MakeDate dn time - LocalTZA)) as Hparse
      by (apply parse_toISOString; [exact Hday | exact Hclip]).
  split; [exact Hparse|]. split; [|exact Hday].
  unfold local_month, new_Date, getFullYear, getMonth, LocalTime.
  rewrite Hparse. cbn [option_map].
  rewrite Z.sub_add, YearFromTime_Day, MonthFromTime_Day, Day_MakeDate
    by assumption.
  rewrite Hyear. fold (MonthFromDay dn). rewrite Hmonth.
  do 2 f_equal. lia.
Qed.

Lemma randomInt_fst min max i :
  randomInt random min max i = (fst (randomInt random min max i), S i).
Proof. reflexivity. Qed.

Lemma randomDate_drawn i :
  let year := fst (randomInt random 2020 2025 i) in
  let month := fst (randomInt random 1 12 (S i)) in
  exists t,
    randomDate LocalTZA random i = (Some (toISOString t), (i + 6)%nat)
    /\ new_Date LocalTZA (Some (toISOString t)) = Some t
    /\ local_month LocalTZA (toISOString t) = (Some year, Some month)
    /\ 2020 <= year <= 2025 /\ 1 <= month <= 12
    /\ day_ok (Day t) = true.
Proof.
  intros year month.
  destruct (randomInt_spec random draws 2020 2025 i ltac:(lia)) as (y & Hy & Hyr).
  destruct (randomInt_spec random draws 1 12 (S i) ltac:(lia)) as (m & Hm & Hmr).
  assert (year = y) as -> by (unfold year; now rewrite Hy).
  assert (month = m) as -> by (unfold month; now rewrite Hm).
  pose proof (proj1 (days_in_month_range y m Hyr Hmr)) as Hdim.
  destruct (randomInt_spec random draws 1 (days_in_month y m) (S (S i)) ltac:(lia))
    as (day & Hd & Hdr).
  destruct (randomInt_spec random draws 0 23 (S (S (S i))) ltac:(lia))
    as (hour & Hh & Hhr).
  destruct (randomInt_spec random draws 0 59 (S (S (S (S i)))) ltac:(lia))
    as (minute & Hmi & Hmir).
  destruct (randomInt_spec random draws 0 59 (S (S (S (S (S i))))) ltac:(lia))
    as (second & Hs & Hsr).
  destruct (date_text_month y m day hour minute second)
    as (t & Ht & Hnew & Hlocal & Hday); try assumption.
  exists t. split; [|repeat split; try assumption; lia].
  unfold randomDate.
  rewrite (bind_eq _ _ _ _ _ Hy), (bind_eq _ _ _ _ _ Hm).
  rewrite (daysInMonth_spec LocalTZA zone) by assumption.
  rewrite (bind_eq (bind (randomInt random 1 (days_in_month y m))
                      (fun d => ret (Some d)))
             _ (S (S i)) (Some day) (S (S (S i))))
    by (now rewrite (bind_eq _ _ _ _ _ Hd)).
  rewrite (bind_eq _ _ _ _ _ Hh), (bind_eq _ _ _ _ _ Hmi), (bind_eq _ _ _ _ _ Hs).
  unfold ret. rewrite Ht. cbn [option_map]. f_equal. lia.
Qed.

(** What holds of every record made from a positive id, a count of
    hundredths and an instant of a day of a four-digit year that is, in
    local time, of a month of 2020 to 2025, holds of the records of
    [generateBatch] and [generate]. *)
Section Made.

Variable P : SalesRecord -> Prop.

Hypothesis made : forall i o c n t y m,
  1 <= i -> 100000 <= o <= 999999 -> 1 <= c <= 50000 ->
  50000 <= n <= 180000 ->
  day_ok (Day t) = true ->
  local_month LocalTZA (toISOString t) = (Some y, Some m) ->
  2020 <= y <= 2025 -> 1 <= m <= 12 ->
  P {| id := i; order_id := o; customer_id := c;
       total := of_decimal false n (-2); date := toISOString t |}.

Lemma generateBatch_loop_made n : forall startId i0 records j,
  1 <= startId -> 0 <= i0 ->
  exists rs,
    generateBatch_loop LocalTZA random n startId i0 records j
    = (Some (records ++ rs), (j + 9 * n)%nat)
    /\ List.length rs = n /\ Forall P rs.
Proof.
  induction n as [|n IH]; intros startId i0 records j Hs Hi.
  - exists []. cbn [generateBatch_loop ret].
    rewrite app_nil_r, Nat.mul_0_r, Nat.add_0_r. repeat split. constructor.
  - cbn [generateBatch_loop].
    destruct (randomInt_spec random draws 100000 999999 j ltac:(lia))
      as (o & Ho & Hor).
    destruct (randomInt_spec random draws 1 50000 (S j) ltac:(lia))
      as (c & Hc & Hcr).
    destruct (randomFloat_spec random draws (S (S j))) as (t & Ht & Htr).
    destruct (randomDate_drawn (S (S (S j))))
      as (tv & Hd & _ & Hlocal & Hy & Hm & Hday).
    rewrite (bind_eq _ _ _ _ _ Ho). cbv beta.
    rewrite (bind_eq _ _ _ _ _ Hc). cbv beta.
    rewrite (bind_eq _ _ _ _ _ Ht). cbv beta.
    rewrite (bind_eq _ _ _ _ _ Hd). cbv beta iota.
    set (r := {| id := startId + i0; order_id := o; customer_id := c;
                 total := of_decimal false t (-2); date := toISOString tv |}).
    destruct (IH startId (i0 + 1) (records ++ [r]) (S (S (S j)) + 6)%nat
                Hs ltac:(lia))
      as (rs & Hrs & Hlen & Hok).
    exists (r :: rs). rewrite Hrs, <- app_assoc. split; [|split].
    + cbn [app]. f_equal. lia.
    + cbn [List.length]. now rewrite Hlen.
    + constructor; [|exact Hok].
      assert (1 <= startId + i0) as Hid by lia.
      exact (made _ _ _ _ _ _ _ Hid Hor Hcr Htr Hday Hlocal Hy Hm).
Qed.

Lemma generate_loop_made g fuel :
  0 < batchSize g -> forall processed written j,
  0 <= processed <= totalRecords g ->
  (Z.to_nat (totalRecords g - processed) <= fuel)%nat ->
  exists rs j',
    generate_loop LocalTZA random fuel g processed written j
    = (Some (Resolved, written ++ map record_line rs), j')
    /\ List.length rs = Z.to_nat (totalRecords g - processed)
    /\ Forall P rs.
Proof.
  intros Hb. induction fuel as [|fuel IH]; intros processed written j Hp Hfuel.
  - cbn [generate_loop].
    replace (processed <? totalRecords g) with false by lia.
    exists [], j. cbn [map ret List.length]. rewrite app_nil_r.
    split; [reflexivity|]. split; [lia | constructor].
  - cbn [generate_loop].
    destruct (processed <? totalRecords g) eqn:Hlt.
    + apply Z.ltb_lt in Hlt.
      set (c := Z.min (batchSize g) (totalRecords g - processed)).
      assert (1 <= c <= totalRecords g - processed) as Hc by (unfold c; lia).
      unfold generateBatch.
      destruct (generateBatch_loop_made (Z.to_nat c) (processed + 1) 0 [] j
                  ltac:(lia) ltac:(lia))
        as (rs1 & Hrs1 & Hlen1 & Hok1).
      rewrite (bind_eq _ _ _ _ _ Hrs1). cbv beta iota.
      destruct (IH (processed + c)
                  (written ++ recordsToCSV ([] ++ rs1) false)
                  (j + 9 * Z.to_nat c)%nat ltac:(lia) ltac:(lia))
        as (rs2 & j' & Hrs2 & Hlen2 & Hok2).
      exists (rs1 ++ rs2), j'. rewrite Hrs2. split; [|split].
      * unfold recordsToCSV. cbn [app]. now rewrite map_app, app_assoc.
      * rewrite length_app, Hlen1, Hlen2. lia.
      * apply Forall_app. now split.
    + apply Z.ltb_ge in Hlt. exists [], j. cbn [map ret List.length].
      rewrite app_nil_r. split; [reflexivity|]. split; [lia | constructor].
Qed.

Lemma generate_made g fs fuel :
  0 < totalRecords g -> 0 < batchSize g ->
  (Z.to_nat (totalRecords g) <= fuel)%nat ->
  exists records,
    generate LocalTZA random fuel g fs
    = Some (Resolved,
            FS.writeFileSync fs (outputPath g)
              (header :: map record_line records))
    /\ List.length records = Z.to_nat (totalRecords g)
    /\ Forall P records.
Proof.
  intros HT Hb Hfuel.
  destruct (generate_loop_made g fuel Hb 0 [header] O ltac:(lia))
    as (rs & j' & Hrs & Hlen & Hok).
  { now rewrite Z.sub_0_r. }
  exists rs. unfold generate. rewrite Hrs. cbn [fst app].
  rewrite Z.sub_0_r in Hlen. now repeat split.
Qed.

End Made.

End Drawn.

End DrawnFacts.

Module LineFacts.
Import Digits DigitsFacts JSNumber JSDate Generator RangeDefs CalendarDefs
       CalendarFacts IsoFacts TextDefs GeneratorDefs GeneratorFacts TextFacts
       RandomFacts ReadBackDefs ReadBackFacts LineDefs.

Lemma no_comma_append a b : no_comma (a ++ b) = no_comma a && no_comma b.
Proof.
  induction a as [|c a IH]; cbn [no_comma String.append]; [reflexivity|].
  now rewrite IH, andb_assoc.
Qed.

Lemma digit_not_comma c : is_digit c = true -> (c =? ",")%char = false.
Proof.
  intros H. apply is_digit_cases in H.
  repeat (destruct H as [-> | H]; [reflexivity|]). subst. reflexivity.
Qed.

Lemma all_digits_no_comma s : all_digits s = true -> no_comma s = true.
Proof.
  induction s as [|c s IH]; intros H; [reflexivity|].
  cbn [all_digits] in H. apply andb_prop in H. destruct H as [Hc Hs].
  cbn [no_comma]. now rewrite (digit_not_comma c Hc), IH.
Qed.

Lemma split_commas_last a : no_comma a = true -> split_commas a = [a].
Proof.
  induction a as [|c a IH]; intros H; [reflexivity|].
  cbn [no_comma] in H. apply andb_prop in H. destruct H as [Hc Ha].
  cbn [split_commas]. apply negb_true_iff in Hc. now rewrite Hc, IH.
Qed.

Lemma split_commas_field a rest :
  no_comma a = true ->
  split_commas (a ++ String "," rest) = a :: split_commas rest.
Proof.
  induction a as [|c a IH]; intros H; [reflexivity|].
  cbn [no_comma] in H. apply andb_prop in H. destruct H as [Hc Ha].
  cbn [String.append split_commas]. apply negb_true_iff in Hc.
  now rewrite Hc, IH.
Qed.

Lemma no_comma_of_Z z : no_comma (Digits.of_Z z) = true.
Proof.
  unfold Digits.of_Z. destruct (Z.ltb_spec z 0).
  - change ("-" ++ ?x)%string with (String "-" x). cbn [no_comma].
    change (negb ("-" =? ",")%char) with true. cbn [andb].
    apply all_digits_no_comma.
    apply (all_digits_of_Z_nonneg (Z.to_nat (- z))).
    split; [lia | apply KeyFacts.pow10_gt; lia].
  - apply all_digits_no_comma.
    apply (all_digits_of_Z_nonneg (Z.to_nat z)).
    split; [lia | apply KeyFacts.pow10_gt; lia].
Qed.

Lemma no_comma_total n :
  50000 <= n <= 180000 -> no_comma (toString (of_decimal false n (-2))) = true.
Proof.
  intros Hn.
  destruct (total_text_shape n Hn) as (n' & k' & s' & -> & Hn' & Hk' & Hs' & _).
  assert (0 < 10 ^ (k' - 1)) as Hpos by (apply Z.pow_pos_nonneg; lia).
  destruct (digits_of_Z_nonneg s' ltac:(lia)) as (Hall & _).
  unfold layout. destruct (Z.leb_spec k' n').
  - replace (n' <=? 21) with true by lia. cbn [andb].
    apply all_digits_no_comma. rewrite all_digits_append, Hall.
    apply all_digits_zeros.
  - cbn [andb]. replace ((0 <? n') && (n' <=? 21)) with true by lia.
    rewrite !no_comma_append.
    rewrite (all_digits_no_comma (substring 0 _ _))
      by now apply all_digits_substring.
    rewrite (all_digits_no_comma (substring (Z.to_nat n') _ _))
      by now apply all_digits_substring.
    reflexivity.
Qed.

Lemma no_comma_pad2 n : 0 <= n <= 99 -> no_comma (pad2 n) = true.
Proof.
  intros Hn. apply all_digits_no_comma. unfold pad2. cbn [all_digits].
  rewrite !is_digit_digit_char; [reflexivity| |].
  - pose proof (Z.mod_pos_bound n 10 ltac:(lia)). lia.
  - Z.to_euclidean_division_equations. lia.
Qed.

Lemma no_comma_pad3 n : 0 <= n <= 999 -> no_comma (pad3 n) = true.
Proof.
  intros Hn. unfold pad3. cbn [no_comma].
  rewrite digit_not_comma
    by (apply is_digit_digit_char; Z.to_euclidean_division_equations; lia).
  cbn [negb andb]. apply no_comma_pad2.
  Z.to_euclidean_division_equations. lia.
Qed.

Lemma no_comma_pad4 n : 0 <= n <= 9999 -> no_comma (pad4 n) = true.
Proof.
  intros Hn. unfold pad4. cbn [no_comma].
  rewrite digit_not_comma
    by (apply is_digit_digit_char; Z.to_euclidean_division_equations; lia).
  cbn [negb andb]. apply no_comma_pad3.
  Z.to_euclidean_division_equations. lia.
Qed.

(** The ISO text of a day of a four-digit year has no comma. *)
Lemma no_comma_toISOString t :
  day_ok (Day t) = true -> no_comma (toISOString t) = true.
Proof.
  intros Hok. unfold day_ok in Hok. cbv zeta in Hok.
  rewrite <- YearFromTime_Day, <- MonthFromTime_Day, <- DateFromTime_Day in Hok.
  repeat (apply andb_prop in Hok; destruct Hok as [Hok ?]).
  pose proof (KeyFacts.MonthFromTime_range t) as Hmo.
  pose proof (time_fields_range t) as (Hh & Hmi & Hs & Hms).
  unfold toISOString, iso_year.
  replace ((0 <=? YearFromTime t) && (YearFromTime t <=? 9999)) with true by lia.
  rewrite !no_comma_append.
  rewrite no_comma_pad4, !no_comma_pad2, no_comma_pad3 by lia.
  reflexivity.
Qed.

Lemma columns_record_line r :
  no_comma (toString (total r)) = true -> no_comma (date r) = true ->
  columns (record_line r) = Some (fields r).
Proof.
  intros Ht Hd. unfold columns, record_line.
  repeat match goal with
         | |- context [("," ++ ?x)%string] =>
             change ("," ++ x)%string with (String "," x)
         end.
  do 3 rewrite split_commas_field by apply no_comma_of_Z.
  rewrite split_commas_field by assumption.
  now rewrite split_commas_last by assumption.
Qed.


Lemma made_reads_well LocalTZA i o c n t y m :
  1 <= i -> 100000 <= o <= 999999 -> 1 <= c <= 50000 ->
  50000 <= n <= 180000 ->
  day_ok (Day t) = true ->
  ProcessorRuns.local_month LocalTZA (toISOString t) = (Some y, Some m) ->
  2020 <= y <= 2025 -> 1 <= m <= 12 ->
  reads_well LocalTZA
    {| id := i; order_id := o; customer_id := c;
       total := of_decimal false n (-2); date := toISOString t |}.
Proof.
  intros Hi Ho Hc Hn Hday Hlocal Hy Hm. unfold reads_well.
  split; [|split; [|split]].
  - apply columns_record_line; cbn [total date];
      [now apply no_comma_total | now apply no_comma_toISOString].
  - unfold Processor.parse_record, fields, PipelineDefs.read_back.
    cbn [Processor.raw_id Processor.raw_order_id Processor.raw_customer_id
         Processor.raw_total Processor.raw_date id order_id customer_id
         total date].
    rewrite !parseInt_digits by lia.
    now rewrite parseFloat_total_text by assumption.
  - exists y, m. split; [exact Hlocal|]. now split.
  - cbn [total]. now apply total_bounds.
Qed.

End LineFacts.

(** * Properties of the sales processor *)

Module ProcessorSpec.

Import JSNumber FloatKey Processor ProcessorRuns MapFacts BucketFacts FinalFacts
       SortFacts StableFacts.

(** C7. When the input file does not exist, [process] rejects with the
    not-found error at once: the files are what they were (no report is
    written, not even an empty one) and no bucket is touched. *)
Theorem process_missing_input (LocalTZA : Z)
    (csv : list string -> list RawRecord) (p : SalesProcessor) (fs : FS.t) :
  fs p.(inputPath) = None ->
  let r := process LocalTZA csv p fs in
  r.(result) = Rejected ("Input file not found: " ++ p.(inputPath))%string
  /\ r.(files) = fs
  /\ r.(files) p.(outputPath) = fs p.(outputPath)
  /\ r.(processor) = p.
Proof.
  intros Hmissing r. subst r. unfold process, FS.existsSync.
  rewrite Hmissing. simpl. repeat split.
Qed.

Lemma process_missing_input_witness :
  let r := process 0 (fun _ => []) sales FS.empty in
  r.(result) = Rejected "Input file not found: sales.csv"
  /\ r.(files) = FS.empty
  /\ r.(files) "sales_report.csv" = None
  /\ r.(processor) = sales.
Proof.
  exact (process_missing_input 0 (fun _ => []) sales FS.empty eq_refl).
Defined.

(** C10. With an empty bucket map [getStats] returns zero months, the empty
    year range and zero records: on a new processor, on any processor whose
    map is empty, and after [process] has read an input without data rows. *)
Theorem getStats_empty :
  (forall i o : string,
      getStats (new_SalesProcessor i o)
      = {| totalMonths := 0; yearRange := ""; totalRecordsProcessed := 0 |})
  /\ (forall p : SalesProcessor,
         p.(monthlyStats) = [] ->
         getStats p
         = {| totalMonths := 0; yearRange := ""; totalRecordsProcessed := 0 |})
  /\ (forall (LocalTZA : Z) (csv : list string -> list RawRecord)
             (p : SalesProcessor) (fs : FS.t) (lines : list string),
         p.(monthlyStats) = [] ->
         fs p.(inputPath) = Some lines ->
         csv lines = [] ->
         let r := process LocalTZA csv p fs in
         r.(result) = Resolved
         /\ getStats r.(processor)
            = {| totalMonths := 0; yearRange := "";
                 totalRecordsProcessed := 0 |}).
Proof.
  split; [reflexivity | split].
  - intros p Hp. unfold getStats. rewrite Hp. reflexivity.
  - intros LocalTZA csv p fs lines Hp Hin Hcsv r. subst r.
    unfold process, FS.existsSync. rewrite Hin. simpl. rewrite Hcsv, Hp.
    simpl. split; reflexivity.
Qed.

Lemma getStats_empty_witness :
  getStats sales
  = {| totalMonths := 0; yearRange := ""; totalRecordsProcessed := 0 |}
  /\ getStats (run_on 0 []).(processor)
     = {| totalMonths := 0; yearRange := ""; totalRecordsProcessed := 0 |}.
Proof.
  destruct getStats_empty as (_ & Hmap & Hrun). split.
  - apply Hmap. reflexivity.
  - apply (Hrun 0 (fun _ => []) sales store []); reflexivity.
Defined.

(** C1. A row whose total does not parse is not skipped and nothing is
    reported: [parseFloat] gives [NaN] without throwing, the row is counted
    in its bucket and turns the bucket's sum and extrema into [NaN]; a row
    whose date does not parse opens a bucket of its own. *)
Theorem process_folds_malformed_rows :
  (run_on 0 malformed_total_rows).(result) = Resolved
  /\ (run_on 0 malformed_total_rows).(reported) = []
  /\ report_of 0 malformed_total_rows
     = Some [report_header; "2021,3,March,2,NaN,NaN,NaN,NaN"]
  /\ (run_on 0 malformed_date_rows).(reported) = []
  /\ report_of 0 malformed_date_rows
     = Some [report_header; "NaN,NaN,undefined,1,700.00,700.00,700.00,0.00"].
Proof.
  repeat split; vm_compute; reflexivity.
Qed.

(** C8. The rows are sorted by the text of the key, which pads the month
    but not the year: the bucket of the year 1000 is written before the
    bucket of the year 999. *)
Theorem report_order_short_years :
  report_of 0 short_year_rows
  = Some [report_header;
          "1000,6,June,1,5.00,5.00,5.00,0.00";
          "999,6,June,1,5.00,5.00,5.00,0.00"].
Proof.
  vm_compute. reflexivity.
Qed.

(** C9. Once a total that is [NaN] is folded into a bucket, both extrema
    are [NaN] and no longer bound the totals folded before it; the count
    still equals the number of retained amounts. *)
Theorem fold_nan_breaks_extrema :
  let m := fold_records 0 []
             [sale (of_Z 600) "2021-03-10T12:00:00.000Z";
              sale nan "2021-03-15T12:00:00.000Z"] in
  option_map
    (fun stats =>
       (stats.(amounts), stats.(numberOfOrders),
        (stats.(minAmount) <=? of_Z 600)%float,
        (of_Z 600 <=? stats.(maxAmount))%float))
    (JSMap.get m "2021-03")
  = Some (Some [of_Z 600; nan], 2, false, false).
Proof.
  vm_compute. reflexivity.
Qed.

Lemma record_key_row LocalTZA i o c t d :
  record_key LocalTZA (parse_record (row i o c t d)) = local_month LocalTZA d.
Proof. reflexivity. Qed.

(** C5. At finalization every bucket of a run has [salesAverage] equal to
    [totalAmount / numberOfOrders] and [standardDeviation] equal to the
    sample standard deviation of its amounts: zero for at most one order,
    else the root of the sum of the squared deviations from the average over
    [numberOfOrders - 1].  Three rows of March 2021 with the totals 600.00,
    900.00 and 1200.00 give the report row
    [2021,3,March,3,1200.00,600.00,900.00,300.00]. *)
Theorem finalized_statistics :
  (forall (LocalTZA : Z) (csv : list string -> list RawRecord)
          (i o : string) (fs : FS.t) (lines : list string),
      fs i = Some lines ->
      let r := process LocalTZA csv (new_SalesProcessor i o) fs in
      r.(result) = Resolved
      /\ forall k st,
          JSMap.get r.(processor).(monthlyStats) k = Some st ->
          let ts := map total
                      (bucket_records LocalTZA k (map parse_record (csv lines))) in
          st.(numberOfOrders) = Z.of_nat (List.length ts)
          /\ st.(totalAmount) = fold_left PrimFloat.add ts zero
          /\ st.(salesAverage)
             = (st.(totalAmount) / of_Z st.(numberOfOrders))%float
          /\ st.(standardDeviation)
             = sample_standard_deviation st.(numberOfOrders) ts
                 st.(salesAverage))
  /\ (forall (LocalTZA : Z) (i1 o1 c1 d1 i2 o2 c2 d2 i3 o3 c3 d3 : string),
         local_month LocalTZA d1 = (Some 2021, Some 3) ->
         local_month LocalTZA d2 = (Some 2021, Some 3) ->
         local_month LocalTZA d3 = (Some 2021, Some 3) ->
         report_of LocalTZA
           [row i1 o1 c1 "600.00" d1; row i2 o2 c2 "900.00" d2;
            row i3 o3 c3 "1200.00" d3]
         = Some [report_header;
                 "2021,3,March,3,1200.00,600.00,900.00,300.00"]).
Proof.
  split.
  - intros LocalTZA csv i o fs lines Hin r. subst r.
    rewrite (process_new LocalTZA csv i o fs lines Hin).
    cbn [result processor monthlyStats with_stats].
    split; [reflexivity|]. intros k st Hget.
    rewrite get_map_finalized, get_fold_records_empty in Hget.
    destruct (bucket_records LocalTZA k (map parse_record (csv lines)))
      as [|r0 rest]; [discriminate|].
    injection Hget as <-.
    unfold finalized, bucket_stats, finalize_deviation, finalize_average.
    cbn [year month numberOfOrders maxAmount minAmount totalAmount
         salesAverage standardDeviation amounts].
    repeat split.
  - intros LocalTZA i1 o1 c1 d1 i2 o2 c2 d2 i3 o3 c3 d3 H1 H2 H3.
    unfold report_of, run_on.
    rewrite (process_new LocalTZA _ "sales.csv" "sales_report.csv" store []
               eq_refl).
    cbn [files]. unfold FS.writeFileSync. rewrite String.eqb_refl. f_equal.
    cbn [map].
    rewrite fold_records_cons by constructor.
    unfold key_of, fold_stats. rewrite !record_key_row, H1. cbn [fst snd JSMap.get].
    rewrite fold_records_cons
      by (apply retaining_set; [constructor | discriminate]).
    unfold key_of, fold_stats. rewrite !record_key_row, H2. cbn [fst snd].
    rewrite fold_records_cons
      by (repeat apply retaining_set; try constructor; discriminate).
    unfold key_of, fold_stats. rewrite !record_key_row, H3. cbn [fst snd].
    vm_compute. reflexivity.
Qed.

Lemma finalized_statistics_witness :
  (let r := process 0 (fun _ => malformed_total_rows)
              (new_SalesProcessor "sales.csv" "sales_report.csv") store in
   r.(result) = Resolved)
  /\ report_of 0
       [row "1" "100000" "7" "600.00" "2021-03-10T12:00:00.000Z";
        row "2" "100001" "8" "900.00" "2021-03-15T12:00:00.000Z";
        row "3" "100002" "9" "1200.00" "2021-03-20T12:00:00.000Z"]
     = Some [report_header; "2021,3,March,3,1200.00,600.00,900.00,300.00"].
Proof.
  destruct finalized_statistics as [Hgen Hscen]. split.
  - exact (proj1 (Hgen 0 (fun _ => malformed_total_rows) "sales.csv"
                    "sales_report.csv" store [] eq_refl)).
  - apply Hscen; reflexivity.
Defined.

(** C6. Running [process] on a permutation of rows whose totals all parse
    gives a report with the same buckets in the same order and, row by row,
    the same year, month, month name, number of orders, maximum and minimum.
    The average and the standard deviation are left out: they come from
    binary64 sums taken in reading order. *)
Theorem report_stable_under_permutation
    (LocalTZA : Z) (rows rows' : list RawRecord) :
  Permutation rows rows' ->
  Forall total_parses rows ->
  report_of LocalTZA rows
  = Some (report_header
          :: map render_row (report_rows (final_stats LocalTZA rows)))
  /\ report_of LocalTZA rows'
     = Some (report_header
             :: map render_row (report_rows (final_stats LocalTZA rows')))
  /\ map stable_of (report_rows (final_stats LocalTZA rows))
     = map stable_of (report_rows (final_stats LocalTZA rows')).
Proof.
  intros Hp Hnum. split; [apply report_of_render|].
  split; [apply report_of_render|].
  rewrite !stable_final_stats.
  apply stable_report_Permutation.
  - now apply Permutation_map.
  - rewrite Forall_map. exact Hnum.
Qed.

Lemma order_rows_parse : Forall total_parses order_rows.
Proof. repeat constructor. Qed.

Lemma order_rows_shuffled : Permutation order_rows shuffled_rows.
Proof. unfold order_rows, shuffled_rows. do 2 apply perm_skip. apply perm_swap. Qed.

Lemma report_stable_under_permutation_witness :
  map stable_of (report_rows (final_stats 0 order_rows))
  = map stable_of (report_rows (final_stats 0 shuffled_rows)).
Proof.
  exact (proj2 (proj2 (report_stable_under_permutation 0 order_rows
                         shuffled_rows order_rows_shuffled order_rows_parse))).
Defined.

(** Two orders of four valid rows of one month whose reports differ in the
    average. *)
Lemma report_depends_on_order :
  Permutation order_rows shuffled_rows
  /\ Forall total_parses order_rows
  /\ report_of 0 order_rows
     = Some [report_header; "2021,3,March,4,1210.40,561.40,816.07,290.02"]
  /\ report_of 0 shuffled_rows
     = Some [report_header; "2021,3,March,4,1210.40,561.40,816.08,290.02"]
  /\ report_of 0 order_rows <> report_of 0 shuffled_rows.
Proof.
  split; [exact order_rows_shuffled|]. split; [exact order_rows_parse|].
  assert (report_of 0 order_rows
          = Some [report_header; "2021,3,March,4,1210.40,561.40,816.07,290.02"])
    as Ha by (vm_compute; reflexivity).
  assert (report_of 0 shuffled_rows
          = Some [report_header; "2021,3,March,4,1210.40,561.40,816.08,290.02"])
    as Hb by (vm_compute; reflexivity).
  repeat split; try assumption.
  rewrite Ha, Hb. intros H. discriminate H.
Qed.

End ProcessorSpec.

(** * Properties of the sales data generator *)

Module GeneratorSpec.
Import JSNumber JSDate Generator RangeDefs GeneratorDefs GeneratorRuns
       GeneratorFacts.











End GeneratorSpec.

(** * Further properties of the sales processor *)

Module ProcessorProperties.
Import JSNumber Processor ProcessorRuns ProcessorViews MapFacts BucketFacts
       FinalFacts SortFacts CountFacts SpentFacts FloatKey ExtremaFacts
       KeyFacts KeyedFacts InvalidDateFacts DeviationFacts YearFacts
       RangeOfYears OrderFacts ColumnFacts.



(** X6. After [process] on a new processor, [getStats] gives as
    [totalRecordsProcessed] the number of rows the parser handed over,
    malformed ones included, and as [totalMonths] the number of data lines
    of the report. *)
Theorem getStats_counts_rows LocalTZA csv i o fs lines :
  fs i = Some lines ->
  let r := process LocalTZA csv (new_SalesProcessor i o) fs in
  totalRecordsProcessed (getStats (processor r))
  = Z.of_nat (List.length (csv lines))
  /\ exists report,
       files r o = Some (report_header :: report)
       /\ totalMonths (getStats (processor r)) = Z.of_nat (List.length report).
Proof.
  intros Hi. cbv zeta. rewrite (process_new LocalTZA csv i o fs lines Hi).
  cbv zeta. cbn [files processor]. split.
  - now rewrite final_orders, length_map.
  - set (m := map (fun e => (fst e, finalized (snd e)))
                (fold_records LocalTZA [] (map parse_record (csv lines)))).
    exists (map (fun e => report_line (snd e)) (sort_entries m)). split.
    + unfold FS.writeFileSync. now rewrite String.eqb_refl.
    + rewrite length_map, <- (Permutation_length (sort_entries_Permutation m)).
      unfold getStats. cbn [monthlyStats with_stats].
      destruct (JSMap.size m =? 0) eqn:Hs; cbn [totalMonths].
      * apply Z.eqb_eq in Hs. symmetry. exact Hs.
      * reflexivity.
Qed.

Lemma getStats_counts_rows_witness :
  let r := process 0 (fun _ => malformed_total_rows)
             (new_SalesProcessor "sales.csv" "sales_report.csv") store in
  totalRecordsProcessed (getStats (processor r))
  = Z.of_nat (List.length malformed_total_rows)
  /\ exists report,
       files r "sales_report.csv" = Some (report_header :: report)
       /\ totalMonths (getStats (processor r)) = Z.of_nat (List.length report).
Proof.
  apply (getStats_counts_rows 0 (fun _ => malformed_total_rows)
           "sales.csv" "sales_report.csv" store []).
  reflexivity.
Defined.

(** X7. When the input file exists and holds no data row, [process] on a
    new processor resolves, the report is the header line alone, and
    [getStats] gives no month, an empty year range and no record. *)
Theorem process_no_rows LocalTZA csv i o fs lines :
  fs i = Some lines -> csv lines = [] ->
  let r := process LocalTZA csv (new_SalesProcessor i o) fs in
  result r = Resolved
  /\ files r o = Some [report_header]
  /\ getStats (processor r)
     = {| totalMonths := 0; yearRange := ""; totalRecordsProcessed := 0 |}.
Proof.
  intros Hi Hrows. cbv zeta.
  rewrite (process_new LocalTZA csv i o fs lines Hi), Hrows.
  cbv zeta. cbn [result files processor map fold_records fold_left].
  repeat split.
  unfold FS.writeFileSync. now rewrite String.eqb_refl.
Qed.

Lemma process_no_rows_witness :
  let r := process 0 (fun _ => [])
             (new_SalesProcessor "sales.csv" "sales_report.csv") store in
  result r = Resolved
  /\ files r "sales_report.csv" = Some [report_header]
  /\ getStats (processor r)
     = {| totalMonths := 0; yearRange := ""; totalRecordsProcessed := 0 |}.
Proof.
  apply (process_no_rows 0 (fun _ => []) "sales.csv" "sales_report.csv" store []);
    reflexivity.
Defined.



(** X9. When the totals folded are numbers (none is [NaN]), each bucket of
    the map retains, in reading order, the totals of the records of its key,
    counts them, sums them from zero in that order, and its [minAmount] and
    [maxAmount] bound every one of them. *)
Theorem fold_bounds_totals LocalTZA rs k st :
  Forall (fun r => is_number r.(total)) rs ->
  JSMap.get (fold_records LocalTZA [] rs) k = Some st ->
  let ts := map total (bucket_records LocalTZA k rs) in
  ts <> []
  /\ amounts st = Some ts
  /\ numberOfOrders st = Z.of_nat (List.length ts)
  /\ totalAmount st = fold_left PrimFloat.add ts zero
  /\ forall t, In t ts ->
       (minAmount st <=? t)%float = true /\ (t <=? maxAmount st)%float = true.
Proof.
  intros Hrs Hget ts. rewrite get_fold_records_empty in Hget.
  assert (Forall is_number ts) as Hts.
  { apply Forall_forall. intros t Hin. unfold ts in Hin.
    apply in_map_iff in Hin. destruct Hin as (r & <- & Hr).
    unfold bucket_records in Hr. apply filter_In in Hr.
    exact (proj1 (Forall_forall _ _) Hrs r (proj1 Hr)). }
  unfold ts in *. clear ts.
  destruct (bucket_records LocalTZA k rs) as [|r rest]; [discriminate|].
  injection Hget as <-. split; [discriminate|].
  split; [reflexivity|]. split; [reflexivity|]. split; [reflexivity|].
  intros t Hin. now apply bucket_stats_bounds.
Qed.

Lemma fold_bounds_totals_witness :
  let ts := map total (bucket_records 0 "2021-03" march_sales) in
  ts <> []
  /\ amounts march_stats = Some ts
  /\ numberOfOrders march_stats = Z.of_nat (List.length ts)
  /\ totalAmount march_stats = fold_left PrimFloat.add ts zero
  /\ forall t, In t ts ->
       (minAmount march_stats <=? t)%float = true
       /\ (t <=? maxAmount march_stats)%float = true.
Proof.
  apply (fold_bounds_totals 0 march_sales "2021-03" march_stats).
  - repeat constructor.
  - vm_compute. reflexivity.
Defined.

(** X10. The report of a new processor has one line for each year and
    month that a row falls in, and no more: the years and months of its
    lines are those of the rows, each met once. *)
Theorem report_one_line_per_month LocalTZA csv i o fs lines :
  fs i = Some lines ->
  let r := process LocalTZA csv (new_SalesProcessor i o) fs in
  let m := monthlyStats (processor r) in
  files r o
  = Some (report_header :: map (fun e => report_line (snd e)) (sort_entries m))
  /\ NoDup (report_months m)
  /\ (forall ym, In ym (report_months m)
                 <-> exists rawRecord,
                       In rawRecord (csv lines)
                       /\ record_key LocalTZA (parse_record rawRecord) = ym).
Proof.
  intros Hi. cbv zeta. rewrite (process_new LocalTZA csv i o fs lines Hi).
  cbv zeta. cbn [files processor monthlyStats with_stats].
  split; [|split].
  - unfold FS.writeFileSync, statsToCSV. now rewrite String.eqb_refl.
  - apply final_months_NoDup.
  - intros ym. rewrite final_months. split.
    + intros (rec & Hrec & Hkey). apply in_map_iff in Hrec.
      destruct Hrec as (raw & <- & Hraw). now exists raw.
    + intros (raw & Hraw & Hkey). exists (parse_record raw).
      split; [now apply in_map | exact Hkey].
Qed.

Lemma report_one_line_per_month_witness :
  let r := process 0 (fun _ => short_year_rows)
             (new_SalesProcessor "sales.csv" "sales_report.csv") store in
  let m := monthlyStats (processor r) in
  files r "sales_report.csv"
  = Some (report_header :: map (fun e => report_line (snd e)) (sort_entries m))
  /\ NoDup (report_months m)
  /\ (forall ym, In ym (report_months m)
                 <-> exists rawRecord,
                       In rawRecord short_year_rows
                       /\ record_key 0 (parse_record rawRecord) = ym).
Proof.
  apply (report_one_line_per_month 0 (fun _ => short_year_rows)
           "sales.csv" "sales_report.csv" store []).
  reflexivity.
Defined.



(** X12. [calculateStandardDeviation] on a list of values returns a
    number that is never below zero, whatever the values and the mean. *)
Theorem calculateStandardDeviation_not_negative values mean :
  exists sd,
    calculateStandardDeviation (Some values) mean = Some sd
    /\ (sd <? 0)%float = false.
Proof.
  unfold calculateStandardDeviation.
  destruct (List.length values <=? 1)%nat.
  - exists zero. split; reflexivity.
  - eexists. split; [reflexivity|].
    unfold Math_sqrt. rewrite ltb_spec, sqrt_spec.
    apply SFsqrt_not_negative.
Qed.

(** X13. After [process] on a new processor, when every row has a date,
    the [yearRange] of [getStats] is made of the least and the greatest of
    the local years of the rows: the year alone when all rows are of one
    year, else the two joined by [-]. *)
Theorem getStats_year_range LocalTZA csv i o fs lines ys :
  fs i = Some lines -> ys <> [] ->
  map (fun rawRecord => fst (record_key LocalTZA (parse_record rawRecord)))
    (csv lines) = map Some ys ->
  let r := process LocalTZA csv (new_SalesProcessor i o) fs in
  exists lo hi,
    In lo ys /\ In hi ys /\ (forall y, In y ys -> lo <= y <= hi)
    /\ yearRange (getStats (processor r))
       = if lo =? hi then Digits.of_Z lo
         else (Digits.of_Z lo ++ "-" ++ Digits.of_Z hi)%string.
Proof.
  intros Hi Hys Hrows. cbv zeta.
  rewrite (process_new LocalTZA csv i o fs lines Hi). cbv zeta.
  cbn [processor]. unfold getStats. cbn [monthlyStats with_stats].
  set (rs := map parse_record (csv lines)).
  set (m := map (fun e => (fst e, finalized (snd e)))
              (fold_records LocalTZA [] rs)).
  set (years := map (fun stats => year stats) (JSMap.values m)).
  assert (forall o, In o years
                    <-> In o (map Some ys)) as Hyears.
  { intros o'. unfold years, m. rewrite final_years. unfold rs.
    now rewrite map_map, Hrows. }
  destruct (all_Some years) as (zs & Hzs).
  { rewrite Hyears, in_map_iff. now intros (y & Hy & _). }
  assert (forall z, In z zs <-> In z ys) as Hsame.
  { intros z. rewrite <- (In_map_Some z zs), <- (In_map_Some z ys), <- Hzs.
    apply Hyears. }
  assert (zs <> []) as Hne.
  { destruct ys as [|y ys]; [congruence|].
    intros Hnil. rewrite Hnil in Hsame.
    apply (proj2 (Hsame y)). now left. }
  replace (JSMap.size m =? 0) with false.
  2:{ symmetry. apply Z.eqb_neq. unfold JSMap.size. intros H.
      assert (years = []) as Hnil.
      { unfold years, JSMap.values. destruct m; [reflexivity | discriminate]. }
      rewrite Hnil in Hzs. now destruct zs. }
  cbn [yearRange]. rewrite Hzs.
  destruct (spread_numbers zs Hne) as (lo & hi & -> & -> & Hlo & Hhi & Hall).
  exists lo, hi. rewrite <- !Hsame.
  split; [exact Hlo|]. split; [exact Hhi|].
  split; [intros y Hy; apply Hall; now apply Hsame|].
  reflexivity.
Qed.

Lemma getStats_year_range_witness :
  let r := process 0 (fun _ => short_year_rows)
             (new_SalesProcessor "sales.csv" "sales_report.csv") store in
  exists lo hi,
    In lo [999; 1000] /\ In hi [999; 1000]
    /\ (forall y, In y [999; 1000] -> lo <= y <= hi)
    /\ yearRange (getStats (processor r))
       = if lo =? hi then Digits.of_Z lo
         else (Digits.of_Z lo ++ "-" ++ Digits.of_Z hi)%string.
Proof.
  apply (getStats_year_range 0 (fun _ => short_year_rows)
           "sales.csv" "sales_report.csv" store [] [999; 1000]).
  - reflexivity.
  - discriminate.
  - vm_compute. reflexivity.
Defined.



(** X15. When the local year of every row is written with four digits
    (1000 to 9999), the lines of the report of a new processor are in
    strictly ascending order of year, and of month within a year. *)
Theorem report_sorted_by_month LocalTZA csv i o fs lines :
  fs i = Some lines ->
  Forall (four_digit_year LocalTZA) (csv lines) ->
  let r := process LocalTZA csv (new_SalesProcessor i o) fs in
  files r o
  = Some (report_header
          :: map (fun e => report_line (snd e))
               (sort_entries (monthlyStats (processor r))))
  /\ StronglySorted month_before (report_months (monthlyStats (processor r))).
Proof.
  intros Hi Hrows. cbv zeta.
  rewrite (process_new LocalTZA csv i o fs lines Hi). cbv zeta.
  cbn [files processor monthlyStats with_stats].
  split; [unfold FS.writeFileSync, statsToCSV; now rewrite String.eqb_refl|].
  apply final_months_sorted. apply Forall_map.
  eapply Forall_impl; [|exact Hrows]. intros raw H. exact H.
Qed.

Lemma report_sorted_by_month_witness :
  let r := process 0 (fun _ => two_month_rows)
             (new_SalesProcessor "sales.csv" "sales_report.csv") store in
  files r "sales_report.csv"
  = Some (report_header
          :: map (fun e => report_line (snd e))
               (sort_entries (monthlyStats (processor r))))
  /\ StronglySorted month_before (report_months (monthlyStats (processor r))).
Proof.
  apply (report_sorted_by_month 0 (fun _ => two_month_rows)
           "sales.csv" "sales_report.csv" store []).
  - reflexivity.
  - repeat constructor;
      [exists 2021 | exists 2020]; (split; [vm_compute; reflexivity | lia]).
Defined.

(** X21. The report depends on the total and date columns alone: two
    parsers whose rows agree, row by row, on the total and the date make
    [process] end the same way, with the same files and the same buckets,
    whatever the id, order id and customer id columns hold. *)
Theorem process_ignores_ids LocalTZA csv csv' p fs :
  (forall lines, Forall2 same_sale (csv lines) (csv' lines)) ->
  process LocalTZA csv p fs = process LocalTZA csv' p fs.
Proof.
  intros Hrows. unfold process.
  destruct (negb (FS.existsSync fs (inputPath p))); [reflexivity|].
  unfold read_rows.
  now rewrite (read_rows_ext LocalTZA _ _
                 (Hrows match fs (inputPath p) with Some l => l | None => [] end)).
Qed.

Lemma process_ignores_ids_witness :
  process 0 (fun _ => two_month_rows) sales store
  = process 0 (fun _ => unnumbered_rows) sales store.
Proof.
  apply (process_ignores_ids 0 (fun _ => two_month_rows)
           (fun _ => unnumbered_rows) sales store).
  intros lines. repeat constructor.
Defined.



(** X23. A total that is [NaN] spoils its bucket: once such a total is
    among the records of a key, the [maxAmount], the [minAmount] and the
    [totalAmount] of the bucket are [NaN], and the line of the report shows
    [NaN] for the maximum, the minimum and the average. *)
Theorem nan_total_spoils_bucket LocalTZA rs k st :
  JSMap.get (fold_records LocalTZA [] rs) k = Some st ->
  existsb (fun r => is_nan (total r)) (bucket_records LocalTZA k rs) = true ->
  is_nan (maxAmount st) = true /\ is_nan (minAmount st) = true
  /\ is_nan (totalAmount st) = true
  /\ exists sd, amount_columns (finalized st) = ["NaN"; "NaN"; "NaN"; sd].
Proof.
  intros Hget Hnan. rewrite get_fold_records_empty in Hget.
  destruct (bucket_records LocalTZA k rs) as [|r rest] eqn:Hb; [discriminate|].
  set (ts := map total (r :: rest)) in *.
  set (b0 := bucket_stats (fst (record_key LocalTZA r))
               (snd (record_key LocalTZA r)) ts) in *.
  assert (st = b0) as -> by congruence.
  assert (existsb is_nan ts = true) as Hts.
  { unfold ts. revert Hnan. generalize (r :: rest). intros l.
    induction l as [|x l IH]; [intros H; exact H|].
    cbn [existsb map]. intros H. apply orb_prop in H. apply orb_true_iff.
    destruct H as [H|H]; [now left | right; now apply IH]. }
  assert (is_nan (maxAmount b0) = true) as Hmax
      by (apply (NaNFacts.fold_left_nan _ NaNFacts.Math_max_nan); now right).
  assert (is_nan (minAmount b0) = true) as Hmin
      by (apply (NaNFacts.fold_left_nan _ NaNFacts.Math_min_nan); now right).
  assert (is_nan (totalAmount b0) = true) as Hsum
      by (apply (NaNFacts.fold_left_nan _ NaNFacts.add_nan); now right).
  split; [exact Hmax|]. split; [exact Hmin|]. split; [exact Hsum|].
  assert (is_nan (maxAmount (finalized b0)) = true) as H1 by exact Hmax.
  assert (is_nan (minAmount (finalized b0)) = true) as H2 by exact Hmin.
  assert (is_nan (salesAverage (finalized b0)) = true) as H3
      by exact (NaNFacts.div_nan _ (of_Z (numberOfOrders b0)) Hsum).
  eexists. unfold amount_columns.
  rewrite (NaNFacts.toFixed_nan _ 2 H1), (NaNFacts.toFixed_nan _ 2 H2),
    (NaNFacts.toFixed_nan _ 2 H3).
  reflexivity.
Qed.

Lemma nan_total_spoils_bucket_witness :
  is_nan (maxAmount nan_stats) = true /\ is_nan (minAmount nan_stats) = true
  /\ is_nan (totalAmount nan_stats) = true
  /\ exists sd, amount_columns (finalized nan_stats) = ["NaN"; "NaN"; "NaN"; sd].
Proof.
  apply (nan_total_spoils_bucket 0 nan_sales "2021-03" nan_stats).
  - vm_compute. reflexivity.
  - vm_compute. reflexivity.
Defined.

End ProcessorProperties.

(** * Further properties of the sales data generator *)

Module GeneratorProperties.
Import JSNumber JSDate Generator RangeDefs GeneratorDefs GeneratorRuns GeneratorCases
       GeneratorFacts.



(** X2. [generateBatch(startId, count)] returns [count] records, none for a
    [count] of zero or less, with the ids [startId], [startId + 1], ... in
    order; it makes nine draws for each record and never throws. *)
Theorem generateBatch_numbers LocalTZA random startId count i :
  valid_zone LocalTZA -> valid_draws random ->
  exists records,
    generateBatch LocalTZA random startId count i
    = (Some records, (i + 9 * Z.to_nat count)%nat)
    /\ List.length records = Z.to_nat count
    /\ map id records = Zseq startId (Z.to_nat count).
Proof.
  intros Hz Hd. unfold generateBatch.
  destruct (generateBatch_loop_spec LocalTZA random Hz Hd (Z.to_nat count)
              startId 0 [] i) as (rs & Hrs & Hids & _).
  exists rs. rewrite Z.add_0_r in Hids. split; [exact Hrs|]. split; [|exact Hids].
  now rewrite <- (length_map id), Hids, RangeFacts.Zseq_length.
Qed.

Lemma generateBatch_numbers_witness :
  exists records,
    generateBatch 0 zero_draws 5 3 0%nat
    = (Some records, (0 + 9 * Z.to_nat 3)%nat)
    /\ List.length records = Z.to_nat 3
    /\ map id records = Zseq 5 (Z.to_nat 3).
Proof.
  apply (generateBatch_numbers 0 zero_draws 5 3 0%nat).
  - unfold valid_zone, msPerDay. lia.
  - intros i. split; [discriminate | reflexivity].
Defined.

(** X3. With [totalRecords] zero or less the loop of [generate] is not
    entered: whatever the batch size and the draws, [generate] resolves and
    the output file holds the header line alone. *)
Theorem generate_no_records LocalTZA random fuel g fs :
  totalRecords g <= 0 ->
  generate LocalTZA random fuel g fs
  = Some (Resolved, FS.writeFileSync fs (outputPath g) [header]).
Proof.
  intros HT. unfold generate.
  assert (generate_loop LocalTZA random fuel g 0 [header] 0%nat
          = (Some (Resolved, [header]), 0%nat)) as ->.
  { destruct fuel; cbn [generate_loop];
      replace (0 <? totalRecords g) with false by lia; reflexivity. }
  reflexivity.
Qed.

Lemma generate_no_records_witness :
  generate 0 zero_draws 0 no_records FS.empty
  = Some (Resolved, FS.writeFileSync FS.empty (outputPath no_records) [header]).
Proof.
  apply (generate_no_records 0 zero_draws 0 no_records FS.empty).
  discriminate.
Defined.

(** The loop of [generate] with a batch size of zero or less, from a count
    of zero or less: every round makes no record and leaves the count at
    zero or less, so no number of rounds ends it. *)
Lemma generate_loop_stuck LocalTZA random g fuel :
  batchSize g <= 0 -> 0 < totalRecords g ->
  forall processed written i,
    processed <= 0 ->
    fst (generate_loop LocalTZA random fuel g processed written i) = None.
Proof.
  intros Hb HT. induction fuel as [|fuel IH]; intros processed written i Hp;
    cbn [generate_loop]; replace (processed <? totalRecords g) with true by lia.
  - reflexivity.
  - set (c := Z.min (batchSize g) (totalRecords g - processed)).
    assert (c <= 0) as Hc by (unfold c; lia).
    unfold generateBatch, bind.
    replace (Z.to_nat c) with 0%nat by lia.
    cbn [generateBatch_loop ret]. apply IH. lia.
Qed.

(** X4. With a positive [totalRecords] and a [batchSize] of zero or less
    [generate] never settles: each round of its loop writes no line and
    does not advance the count, whatever the number of rounds. *)
Theorem generate_never_ends LocalTZA random g fs :
  batchSize g <= 0 -> 0 < totalRecords g ->
  forall fuel, generate LocalTZA random fuel g fs = None.
Proof.
  intros Hb HT fuel. unfold generate.
  now rewrite (generate_loop_stuck LocalTZA random g fuel Hb HT 0 [header] 0%nat).
Qed.

Lemma generate_never_ends_witness :
  generate 0 zero_draws 1000 empty_batches FS.empty = None.
Proof.
  apply (generate_never_ends 0 zero_draws empty_batches FS.empty).
  - discriminate.
  - reflexivity.
Defined.



End GeneratorProperties.

(** * Properties of the generator and the processor together *)

Module PipelineProperties.
Import JSNumber FloatKey Generator RangeDefs GeneratorDefs GeneratorRuns
       GeneratorFacts ReadBackDefs ReadBackFacts PipelineDefs PipelineFacts
       ProcessorRuns ProcessorViews LineDefs LineFacts DrawnFacts.

(** X16. Every data line [generate] writes splits at its commas into five
    columns, those of its record, and the processor reads the columns back
    as the record: [parseInt] gives the three integers, [parseFloat] gives
    the total, the very number that was written, and the date is the same
    text. *)
Theorem generated_records_read_back LocalTZA random g fs fuel :
  valid_zone LocalTZA -> valid_draws random ->
  0 < totalRecords g -> 0 < batchSize g ->
  (Z.to_nat (totalRecords g) <= fuel)%nat ->
  exists records,
    generate LocalTZA random fuel g fs
    = Some (Resolved,
            FS.writeFileSync fs (outputPath g)
              (header :: map record_line records))
    /\ Forall (fun r => columns (record_line r) = Some (fields r)
                        /\ Processor.parse_record (fields r) = read_back r)
         records.
Proof.
  intros Hz Hd HT Hb Hfuel.
  destruct (generate_made LocalTZA random Hz Hd (reads_well LocalTZA)
              (made_reads_well LocalTZA) g fs fuel HT Hb Hfuel)
    as (records & Hrun & _ & Hok).
  exists records. split; [exact Hrun|].
  eapply Forall_impl; [|exact Hok].
  intros r (H1 & H2 & _). now split.
Qed.

Lemma generated_records_read_back_witness :
  exists records,
    generate 0 zero_draws 7 seven_records FS.empty
    = Some (Resolved,
            FS.writeFileSync FS.empty (outputPath seven_records)
              (header :: map record_line records))
    /\ Forall (fun r => columns (record_line r) = Some (fields r)
                        /\ Processor.parse_record (fields r) = read_back r)
         records.
Proof.
  apply (generated_records_read_back 0 zero_draws seven_records FS.empty 7).
  - unfold valid_zone, JSDate.msPerDay. lia.
  - intros i. split; [discriminate | reflexivity].
  - reflexivity.
  - reflexivity.
  - apply Nat.le_refl.
Defined.



End PipelineProperties.

Module ReportProperties.
Import JSNumber GeneratorDefs ProcessorRuns ProcessorViews.


(** X19. In a line of the report the four amounts stand after the count,
    separated by commas, and each amount that is finite and below [10^21] in
    size is written with two digits after the point, no more and no
    fewer. *)
Theorem report_amounts_two_decimals st :
  Forall fixed_range
    [Processor.maxAmount st; Processor.minAmount st;
     Processor.salesAverage st; Processor.standardDeviation st] ->
  (exists a b c d,
     amount_columns st = [a; b; c; d]
     /\ Processor.report_line st
        = (Processor.int_text (Processor.year st) ++ ","
           ++ Processor.int_text (Processor.month st) ++ ","
           ++ Processor.text_or_undefined
                (Processor.getMonthName (Processor.month st)) ++ ","
           ++ Digits.of_Z (Processor.numberOfOrders st) ++ ","
           ++ a ++ "," ++ b ++ "," ++ c ++ "," ++ d)%string)
  /\ Forall (fun t => fraction_digits t = 2%nat) (amount_columns st).
Proof.
  intros H. split.
  - do 4 eexists. split; reflexivity.
  - unfold amount_columns.
    inversion H as [|? ? H1 Hr1]; subst. inversion Hr1 as [|? ? H2 Hr2]; subst.
    inversion Hr2 as [|? ? H3 Hr3]; subst. inversion Hr3 as [|? ? H4 _]; subst.
    repeat constructor; now apply FixedFacts.toFixed_fraction.
Qed.

Lemma report_amounts_two_decimals_witness :
  (exists a b c d,
     amount_columns (finalized march_stats) = [a; b; c; d]
     /\ Processor.report_line (finalized march_stats)
        = (Processor.int_text (Processor.year (finalized march_stats)) ++ ","
           ++ Processor.int_text (Processor.month (finalized march_stats)) ++ ","
           ++ Processor.text_or_undefined
                (Processor.getMonthName (Processor.month (finalized march_stats)))
           ++ ","
           ++ Digits.of_Z (Processor.numberOfOrders (finalized march_stats)) ++ ","
           ++ a ++ "," ++ b ++ "," ++ c ++ "," ++ d)%string)
  /\ Forall (fun t => fraction_digits t = 2%nat)
       (amount_columns (finalized march_stats)).
Proof.
  apply (report_amounts_two_decimals (finalized march_stats)).
  repeat constructor; vm_compute; left; reflexivity.
Defined.

End ReportProperties.
